(** * claude_code_log.parser: transcript loading, date filtering and span
    segmentation

    A shallow embedding of [src/claude_code_log/parser.py].  Python values
    are modelled as follows.

    - [str] is [string]; a character is one of the code points U+0000 to
      U+00FF (Rocq's 8-bit [ascii]).
    - [int] is [nat] for indices and [Z] elsewhere.
    - A raised exception is the [Raise] case of [result].
    - [datetime.datetime] is the record [datetime]; the standard-library
      parser [datetime.fromisoformat], the third-party [dateparser.parse],
      [json.loads], [re.sub] and the repository's [parse_transcript_entry]
      (module [models], not part of this development) are parameters of the
      sections that use them. *)

From Stdlib Require Import ZArith List String Ascii Bool Lia Sorted.
From stdpp Require Import base list strings pretty.
Import ListNotations.

Open Scope string_scope.
Open Scope list_scope.
Open Scope nat_scope.

(** ** Exceptions *)

Inductive exn_class :=
| IndexError
| TypeError
| ValueError
| JSONDecodeError   (* a subclass of ValueError *)
| UnicodeDecodeError   (* a subclass of ValueError *)
| OSError
| OtherException.   (* any other subclass of Exception *)

Record exn := mkExn { exn_cls : exn_class; exn_str : string }.

Inductive result (A : Type) :=
| Ok (a : A)
| Raise (e : exn).
Arguments Ok {A} a.
Arguments Raise {A} e.

#[global] Instance result_ret : MRet result := fun A a => Ok a.
#[global] Instance result_bind : MBind result :=
  fun A B f m => match m with Ok a => f a | Raise e => Raise e end.

Definition is_Ok {A} (r : result A) : Prop := exists a, r = Ok a.

(** [l[i]] for a non-negative index: IndexError out of range. *)
Definition getitem {A} (l : list A) (i : nat) : result A :=
  match l !! i with
  | Some x => Ok x
  | None => Raise (mkExn IndexError "list index out of range")
  end.

(** A monadic left fold: the body of a [for] loop run over its range. *)
Fixpoint foldM {St I} (body : St -> I -> result St) (st : St) (idxs : list I)
  : result St :=
  match idxs with
  | [] => Ok st
  | i :: rest => st' ← body st i; foldM body st' rest
  end.

(** [enumerate(l)] *)
Definition enumerate {A} (l : list A) : list (nat * A) :=
  combine (List.seq 0 (length l)) l.

(** ** Strings *)

Module Str.

Definition code (c : ascii) : nat := nat_of_ascii c.

(** [str.isspace] on U+0000..U+00FF. *)
Definition isspace (c : ascii) : bool :=
  let n := code c in
  ((9 <=? n) && (n <=? 13)) || ((28 <=? n) && (n <=? 32))
  || (n =? 133) || (n =? 160).

(** Line boundaries of [str.splitlines] on U+0000..U+00FF. *)
Definition is_linebreak (c : ascii) : bool :=
  let n := code c in
  ((10 <=? n) && (n <=? 13)) || ((28 <=? n) && (n <=? 30)) || (n =? 133).

Definition truthy (s : string) : bool :=
  match s with EmptyString => false | String _ _ => true end.

Fixpoint lstrip (s : string) : string :=
  match s with
  | EmptyString => EmptyString
  | String c s' => if isspace c then lstrip s' else s
  end.

Definition rstrip (s : string) : string := String.rev (lstrip (String.rev s)).

Definition strip (s : string) : string := rstrip (lstrip s).

(** [s.splitlines()]; [cur] is the line being read, reversed. *)
Fixpoint splitlines_go (cur : string) (s : string) : list string :=
  match s with
  | EmptyString =>
      match cur with
      | EmptyString => []
      | _ => [String.rev cur]
      end
  | String c s' =>
      if is_linebreak c then
        String.rev cur ::
          match s' with
          | String c' s'' =>
              if (code c =? 13) && (code c' =? 10)
              then splitlines_go EmptyString s''
              else splitlines_go EmptyString s'
          | EmptyString => splitlines_go EmptyString s'
          end
      else splitlines_go (String c cur) s'
  end.

Definition splitlines (s : string) : list string := splitlines_go EmptyString s.

(** [s[:n]] *)
Definition slice_to (n : nat) (s : string) : string := String.substring 0 n s.

(** [sep.join(parts)] *)
Fixpoint join (sep : string) (parts : list string) : string :=
  match parts with
  | [] => EmptyString
  | [p] => p
  | p :: rest => p +:+ sep +:+ join sep rest
  end.

(** [needle in hay] *)
Fixpoint contains (needle hay : string) : bool :=
  String.prefix needle hay
  || match hay with
     | EmptyString => false
     | String _ hay' => contains needle hay'
     end.

(** [s.replace(old, new)] for a one-character [old]. *)
Fixpoint replace_char (old : ascii) (new : string) (s : string) : string :=
  match s with
  | EmptyString => EmptyString
  | String c s' =>
      (if Ascii.eqb c old then new else String c EmptyString)
        +:+ replace_char old new s'
  end.

(** [str.lower] on U+0000..U+00FF. *)
Definition lower_char (c : ascii) : ascii :=
  let n := code c in
  if ((65 <=? n) && (n <=? 90))
     || ((192 <=? n) && (n <=? 222) && negb (n =? 215))
  then ascii_of_nat (n + 32) else c.

Fixpoint lower (s : string) : string :=
  match s with
  | EmptyString => EmptyString
  | String c s' => String (lower_char c) (lower s')
  end.

Definition LF : string := String (ascii_of_nat 10) EmptyString.

End Str.

(** [str(n)] for a non-negative [int]. *)
Definition str_int (n : nat) : string := pretty n.

(** ** Data model (module [models]) *)

(** Content items.  The payloads the parser never inspects ([input] of a
    tool use, [content] of a tool result, [source] of an image) are kept as
    opaque strings. *)
Inductive ContentItem :=
| TextContent (text : string)
| ThinkingContent (thinking : string)
| ToolUseContent (id name input : string)
| ToolResultContent (tool_use_id content : string)
| ImageContent (source : string).

(** [Union[str, List[ContentItem], None]] *)
Inductive MessageContent :=
| ContentNone
| ContentStr (s : string)
| ContentList (items : list ContentItem).

(** Transcript entries.  [sessionId] and [timestamp] are optional because
    the parser reads them defensively ([getattr(m, "timestamp", None)]). *)
Inductive TranscriptEntry :=
| UserTranscriptEntry (uuid : string) (sessionId timestamp : option string)
    (isSidechain : bool) (content : MessageContent)
| AssistantTranscriptEntry (uuid : string) (sessionId timestamp : option string)
    (isSidechain : bool) (content : list ContentItem)
| SystemTranscriptEntry (sessionId timestamp : option string)
    (message : option MessageContent)
| SummaryTranscriptEntry (leafUuid summary : string).

#[global] Instance ContentItem_eq_dec : EqDecision ContentItem.
Proof. solve_decision. Defined.
#[global] Instance MessageContent_eq_dec : EqDecision MessageContent.
Proof. solve_decision. Defined.
#[global] Instance TranscriptEntry_eq_dec : EqDecision TranscriptEntry.
Proof. solve_decision. Defined.

(** [isinstance(m, SummaryTranscriptEntry)] *)
Definition is_summary (m : TranscriptEntry) : bool :=
  match m with SummaryTranscriptEntry _ _ => true | _ => false end.

(** [getattr(m, "type", "")] *)
Definition entry_type (m : TranscriptEntry) : string :=
  match m with
  | UserTranscriptEntry _ _ _ _ _ => "user"
  | AssistantTranscriptEntry _ _ _ _ _ => "assistant"
  | SystemTranscriptEntry _ _ _ => "system"
  | SummaryTranscriptEntry _ _ => "summary"
  end.

(** [getattr(m, "timestamp", None)] *)
Definition entry_timestamp (m : TranscriptEntry) : option string :=
  match m with
  | UserTranscriptEntry _ _ ts _ _ => ts
  | AssistantTranscriptEntry _ _ ts _ _ => ts
  | SystemTranscriptEntry _ ts _ => ts
  | SummaryTranscriptEntry _ _ => None
  end.

(** [getattr(m, "sessionId", None)] *)
Definition entry_sessionId (m : TranscriptEntry) : option string :=
  match m with
  | UserTranscriptEntry _ sid _ _ _ => sid
  | AssistantTranscriptEntry _ sid _ _ _ => sid
  | SystemTranscriptEntry sid _ _ => sid
  | SummaryTranscriptEntry _ _ => None
  end.

(** [getattr(getattr(m, "message", None), "content", None)] *)
Definition entry_content (m : TranscriptEntry) : MessageContent :=
  match m with
  | UserTranscriptEntry _ _ _ _ c => c
  | AssistantTranscriptEntry _ _ _ _ items => ContentList items
  | SystemTranscriptEntry _ _ (Some c) => c
  | SystemTranscriptEntry _ _ None => ContentNone
  | SummaryTranscriptEntry _ _ => ContentNone
  end.

(** Truth value of an optional string: [None] and [""] are false. *)
Definition opt_truthy (o : option string) : bool :=
  match o with Some s => Str.truthy s | None => false end.

Inductive SpanKind := todo | tooling | system | chat | unknown.

Record Span := mkSpan {
  id : string;
  title : option string;
  kind : SpanKind;
  start_index : nat;
  end_index : nat;
  message_indices : list nat;
  start_timestamp : option string;
  end_timestamp : option string;
  session_id : option string
}.

#[global] Instance SpanKind_eq_dec : EqDecision SpanKind.
Proof. solve_decision. Defined.
#[global] Instance Span_eq_dec : EqDecision Span.
Proof. solve_decision. Defined.

(** ** Dates and times (module [datetime]) *)

(** A [datetime.datetime].  The date is held as its proleptic Gregorian
    ordinal ([toordinal()]), which orders dates as the triple (year, month,
    day) does; [dt_tzinfo] is [utcoffset()] in microseconds, [None] for a
    naive value. *)
Record datetime := mkDatetime {
  dt_ordinal : Z;
  dt_hour : Z;
  dt_minute : Z;
  dt_second : Z;
  dt_microsecond : Z;
  dt_tzinfo : option Z
}.

#[global] Instance datetime_eq_dec : EqDecision datetime.
Proof. solve_decision. Defined.

Module DT.

(** [d.replace(hour=h, minute=m, second=s, microsecond=us)] *)
Definition replace_time (d : datetime) (h m s us : Z) : datetime :=
  mkDatetime (dt_ordinal d) h m s us (dt_tzinfo d).

(** [d.replace(tzinfo=None)] *)
Definition replace_tzinfo_none (d : datetime) : datetime :=
  mkDatetime (dt_ordinal d) (dt_hour d) (dt_minute d) (dt_second d)
    (dt_microsecond d) None.

(** Comparison of the field tuples, most significant field first. *)
Definition cmp_fields (a b : datetime) : comparison :=
  match (dt_ordinal a ?= dt_ordinal b)%Z with
  | Eq =>
      match (dt_hour a ?= dt_hour b)%Z with
      | Eq =>
          match (dt_minute a ?= dt_minute b)%Z with
          | Eq =>
              match (dt_second a ?= dt_second b)%Z with
              | Eq => (dt_microsecond a ?= dt_microsecond b)%Z
              | c => c
              end
          | c => c
          end
      | c => c
      end
  | c => c
  end.

(** The wall-clock difference [a - b] in microseconds. *)
Definition base_delta (a b : datetime) : Z :=
  let secs1 := (dt_second a + dt_minute a * 60 + dt_hour a * 3600)%Z in
  let secs2 := (dt_second b + dt_minute b * 60 + dt_hour b * 3600)%Z in
  ((dt_ordinal a - dt_ordinal b) * 86400000000
   + (secs1 - secs2) * 1000000
   + (dt_microsecond a - dt_microsecond b))%Z.

Definition mixed : exn :=
  mkExn TypeError "can't subtract offset-naive and offset-aware datetimes".

(** [a - b]: a [timedelta], in microseconds. *)
Definition sub (a b : datetime) : result Z :=
  match dt_tzinfo a, dt_tzinfo b with
  | None, None => Ok (base_delta a b)
  | Some myoff, Some otoff => Ok (base_delta a b + otoff - myoff)%Z
  | _, _ => Raise mixed
  end.

Definition mixed_cmp : exn :=
  mkExn TypeError "can't compare offset-naive and offset-aware datetimes".

(** The three-way comparison behind [<], [>], [<=] and [>=]. *)
Definition cmp (a b : datetime) : result comparison :=
  match dt_tzinfo a, dt_tzinfo b with
  | None, None => Ok (cmp_fields a b)
  | Some myoff, Some otoff =>
      if (myoff =? otoff)%Z then Ok (cmp_fields a b)
      else Ok ((base_delta a b + otoff - myoff) ?= 0)%Z
  | _, _ => Raise mixed_cmp
  end.

(** [a < b] *)
Definition lt (a b : datetime) : result bool :=
  c ← cmp a b; mret (match c with Lt => true | _ => false end).

(** [a > b] *)
Definition gt (a b : datetime) : result bool :=
  c ← cmp a b; mret (match c with Gt => true | _ => false end).

(** A [float]: the number [fl_mant * 2 ^ fl_exp].  The values that
    [total_seconds] produces have a mantissa of 53 bits; a [timedelta]
    between two [datetime] values is below 2**59 microseconds, so that
    its seconds lie between 10**-6 and 2**39, far from the exponents at
    which a [float] overflows or loses bits. *)
Record float := mkFloat { fl_mant : Z; fl_exp : Z }.

(** The numerator and the denominator of [n / d / 2 ^ e]. *)
Definition scaled (n d e : Z) : Z * Z :=
  (n * 2 ^ Z.max 0 (- e), d * 2 ^ Z.max 0 e)%Z.

(** [n / d] for two positive [int]: the quotient rounded to the nearest
    [float], to the even mantissa on a tie.  [e] is the exponent at which
    the quotient has a mantissa from 2**52 up to, not including, 2**53. *)
Definition true_divide_pos (n d : Z) : float :=
  let e0 := (Z.log2 n - Z.log2 d - 53)%Z in
  let e := (if 2 ^ 53 <=? fst (scaled n d e0) / snd (scaled n d e0)
            then e0 + 1 else e0)%Z in
  let a := fst (scaled n d e) in
  let b := snd (scaled n d e) in
  let q := (a / b)%Z in
  let r := (a mod b)%Z in
  mkFloat (if (b <? 2 * r) || ((b =? 2 * r) && Z.odd q) then q + 1 else q)%Z e.

(** [delta.total_seconds()] for a [timedelta] of [delta] microseconds:
    [delta / 10**6], a true division of two [int]. *)
Definition total_seconds (delta : Z) : float :=
  match delta with
  | Z0 => mkFloat 0 0
  | Zpos _ => true_divide_pos delta 1000000
  | Zneg _ =>
      let x := true_divide_pos (- delta) 1000000 in
      mkFloat (- fl_mant x) (fl_exp x)
  end.

(** [x > n] for a [float] and an [int]: the two numbers are compared as
    they are, the [int] is not rounded. *)
Definition float_gt_int (x : float) (n : Z) : bool :=
  (n * 2 ^ Z.max 0 (- fl_exp x) <? fl_mant x * 2 ^ Z.max 0 (fl_exp x))%Z.

(** [delta.total_seconds() > gap_seconds] for a [timedelta] of [delta]
    microseconds and an [int] number of seconds. *)
Definition total_seconds_gt (delta gap_seconds : Z) : bool :=
  float_gt_int (total_seconds delta) gap_seconds.

(** [a <= b] for naive values. *)
Definition le (a b : datetime) : bool :=
  match cmp_fields a b with Gt => false | _ => true end.

End DT.

(** ** Content helpers *)

(** [extract_text_content]: the texts of the [TextContent] items joined by
    newlines; a string stands for itself. *)
Definition extract_text_content (content : MessageContent) : string :=
  match content with
  | ContentNone => EmptyString
  | ContentList items =>
      let text_parts :=
        flat_map (fun item =>
                    match item with
                    | TextContent text => [text]
                    | _ => []
                    end) items in
      Str.join Str.LF text_parts
  | ContentStr s => s
  end.

(** [_has_tool_activity] *)
Definition _has_tool_activity (content : MessageContent) : bool :=
  match content with
  | ContentNone | ContentStr _ => false
  | ContentList items =>
      existsb (fun item =>
                 match item with
                 | ToolUseContent _ _ _ | ToolResultContent _ _
                 | ThinkingContent _ | ImageContent _ => true
                 | TextContent _ => false
                 end) items
  end.

(** [_contains_todowrite] *)
Definition _contains_todowrite (content : MessageContent) : bool :=
  match content with
  | ContentNone | ContentStr _ => false
  | ContentList items =>
      existsb (fun item =>
                 match item with
                 | ToolUseContent _ name _ => String.eqb name "TodoWrite"
                 | _ => false
                 end) items
  end.

(** ** Timestamps and the span segmenter *)

Section Parser.

(** [datetime.fromisoformat]; [None] stands for its ValueError. *)
Variable fromisoformat : string -> option datetime.

(** [parse_timestamp] *)
Definition parse_timestamp (timestamp_str : string) : option datetime :=
  fromisoformat (Str.replace_char "Z" "+00:00" timestamp_str).

(** The accumulator dictionary [cur] of [group_messages_into_spans]. *)
Record SpanDraft := mkDraft {
  d_start_index : nat;
  d_end_index : nat;
  d_message_indices : list nat;
  d_session_id : option string;
  d_start_timestamp : option string;
  d_end_timestamp : option string;
  d_kind : SpanKind;
  d_title : option string;
  d_has_tooling : bool;
  d_has_todo : bool;
  d_all_system : bool
}.

(** [parse_timestamp(ts) if ts else None] *)
Definition timestamp_dt (ts : option string) : option datetime :=
  match ts with
  | Some s => if Str.truthy s then parse_timestamp s else None
  | None => None
  end.

(** [get_dt] *)
Definition get_dt (seq : list TranscriptEntry) (idx : nat)
  : result (option datetime) :=
  m ← getitem seq idx;
  let ts := entry_timestamp m in
  mret (timestamp_dt ts).

(** [start_new_span] *)
Definition start_new_span (seq : list TranscriptEntry) (start_idx : nat)
  : result SpanDraft :=
  m ← getitem seq start_idx;
  mret {| d_start_index := start_idx;
          d_end_index := start_idx;
          d_message_indices := [start_idx];
          d_session_id := entry_sessionId m;
          d_start_timestamp := entry_timestamp m;
          d_end_timestamp := entry_timestamp m;
          d_kind := unknown;
          d_title := None;
          d_has_tooling := false;
          d_has_todo := false;
          d_all_system := true |}.

(** [text.strip().splitlines()[0][:120]] *)
Definition title_line (text : string) : result string :=
  line ← getitem (Str.splitlines (Str.strip text)) 0;
  mret (Str.slice_to 120 line).

(** The two title statements of [fold_message], run on the title held so
    far. *)
Definition fold_title (m : TranscriptEntry) (held : option string)
  : result (option string) :=
  let content := entry_content m in
  t1 ← match held with
       | None =>
           let text := extract_text_content content in
           if String.eqb (entry_type m) "user" && Str.truthy (Str.strip text)
           then t ← title_line text; mret (Some t)
           else mret None
       | Some _ => mret held
       end;
  match t1 with
  | None =>
      if String.eqb (entry_type m) "assistant" then
        let text := extract_text_content content in
        if Str.truthy (Str.strip text)
        then t ← title_line text; mret (Some t)
        else mret None
      else mret None
  | Some _ => mret t1
  end.

(** [fold_message]: note that it reads [messages[i]], the unfiltered
    list, while [i] ranges over the positions of [seq]. *)
Definition fold_message (messages : list TranscriptEntry) (cur : SpanDraft)
    (i : nat) : result SpanDraft :=
  m ← getitem messages i;
  let content := entry_content m in
  t ← fold_title m (d_title cur);
  mret {| d_start_index := d_start_index cur;
          d_end_index := i;
          d_message_indices := d_message_indices cur ++ [i];
          d_session_id := d_session_id cur;
          d_start_timestamp := d_start_timestamp cur;
          d_end_timestamp := entry_timestamp m;
          d_kind := d_kind cur;
          d_title := t;
          d_has_tooling :=
            if _has_tool_activity content then true else d_has_tooling cur;
          d_has_todo :=
            if _contains_todowrite content then true else d_has_todo cur;
          d_all_system :=
            if negb (String.eqb (entry_type m) "system") then false
            else d_all_system cur |}.

(** [f"{session_id or 'span'}-{start_index}-{end_index}"] *)
Definition span_id (sid : option string) (start_idx end_idx : nat) : string :=
  (if opt_truthy sid then default EmptyString sid else "span")
    +:+ "-" +:+ str_int start_idx +:+ "-" +:+ str_int end_idx.

Definition classify (cur : SpanDraft) : SpanKind :=
  if d_has_todo cur then todo
  else if d_has_tooling cur then tooling
  else if d_all_system cur then system
  else chat.

(** The [Span] that [finalize_current_span] appends to [spans]. *)
Definition finalize_current_span (cur : SpanDraft) : Span :=
  {| id := span_id (d_session_id cur) (d_start_index cur) (d_end_index cur);
     title := d_title cur;
     kind := classify cur;
     start_index := d_start_index cur;
     end_index := d_end_index cur;
     message_indices := d_message_indices cur;
     start_timestamp := d_start_timestamp cur;
     end_timestamp := d_end_timestamp cur;
     session_id := d_session_id cur |}.

(** The value of [boundary] computed for position [i] of the loop. *)
Definition boundary (seq : list TranscriptEntry) (gap_seconds : Z) (i : nat)
  : result bool :=
  prev_dt ← get_dt seq (i - 1);
  cur_dt ← get_dt seq i;
  prev_m ← getitem seq (i - 1);
  cur_m ← getitem seq i;
  let prev_sess := entry_sessionId prev_m in
  let cur_sess := entry_sessionId cur_m in
  if negb (bool_decide (prev_sess = cur_sess)) then mret true
  else
    match prev_dt, cur_dt with
    | Some p, Some c =>
        delta ← DT.sub c p;
        mret (DT.total_seconds_gt delta gap_seconds)
    | _, _ => mret false
    end.

(** One turn of the loop over [range(1, len(seq))]; the state is the
    open draft [cur] and the list [spans] closed so far. *)
Definition loop_body (messages seq : list TranscriptEntry) (gap_seconds : Z)
    (st : SpanDraft * list Span) (i : nat) : result (SpanDraft * list Span) :=
  let '(cur, spans) := st in
  b ← boundary seq gap_seconds i;
  if b : bool then
    let spans := spans ++ [finalize_current_span cur] in
    cur ← start_new_span seq i;
    cur ← fold_message messages cur i;
    mret (cur, spans)
  else
    cur ← fold_message messages cur i;
    mret (cur, spans).

(** [group_messages_into_spans] *)
Definition group_messages_into_spans (messages : list TranscriptEntry)
    (gap_seconds : Z) : result (list Span) :=
  match messages with
  | [] => Ok []
  | _ =>
      let seq := List.filter (fun m => negb (is_summary m)) messages in
      match seq with
      | [] => Ok []
      | _ =>
          cur ← start_new_span seq 0;
          cur ← fold_message messages cur 0;
          st ← foldM (loop_body messages seq gap_seconds) (cur, [])
                 (List.seq 1 (length seq - 1));
          mret (snd st ++ [finalize_current_span (fst st)])
      end
  end.

End Parser.

(** ** A reference decoder for ISO timestamps

    [Iso.fromisoformat] accepts the timestamps transcripts carry,
    [YYYY-MM-DDTHH:MM:SS], optionally followed by a fraction of three or
    six digits and by an offset [+HH:MM] or [-HH:MM], and rejects every
    other string.  It instantiates the parameter [fromisoformat] when the
    model is run on concrete transcripts. *)
Module Iso.

Definition digit (c : ascii) : option Z :=
  let n := Str.code c in
  if (48 <=? n) && (n <=? 57) then Some (Z.of_nat (n - 48)) else None.

(** Reads exactly [n] decimal digits. *)
Fixpoint number (n : nat) (acc : Z) (l : list ascii) : option (Z * list ascii) :=
  match n with
  | 0 => Some (acc, l)
  | S n' =>
      match l with
      | c :: l' => d ← digit c; number n' (acc * 10 + d)%Z l'
      | [] => None
      end
  end.

Definition expect (c : ascii) (l : list ascii) : option (list ascii) :=
  match l with
  | c' :: l' => if Ascii.eqb c c' then Some l' else None
  | [] => None
  end.

Definition is_leap (y : Z) : bool :=
  ((y mod 4 =? 0) && (negb (y mod 100 =? 0) || (y mod 400 =? 0)))%Z.

Definition days_in_month (y m : Z) : Z :=
  (if m =? 2 then (if is_leap y then 29 else 28)
   else if (m =? 4) || (m =? 6) || (m =? 9) || (m =? 11) then 30
   else 31)%Z.

Definition days_before_year (year : Z) : Z :=
  (let y := year - 1 in y * 365 + y / 4 - y / 100 + y / 400)%Z.

Definition days_before_month (y m : Z) : Z :=
  fold_right Z.add 0%Z
    (map (fun k => days_in_month y (Z.of_nat k)) (List.seq 1 (Z.to_nat m - 1))).

Definition ymd2ord (y m d : Z) : Z :=
  (days_before_year y + days_before_month y m + d)%Z.

Definition in_range (lo x hi : Z) : bool := ((lo <=? x) && (x <=? hi))%Z.

(** The fraction: nothing, [.fff] or [.ffffff]; the result is in
    microseconds. *)
Definition fraction (l : list ascii) : option (Z * list ascii) :=
  match l with
  | "."%char :: l' =>
      match number 6 0 l' with
      | Some r => Some r
      | None => '(ms, rest) ← number 3 0 l'; Some (ms * 1000, rest)%Z
      end
  | _ => Some (0%Z, l)
  end.

(** The offset: nothing, [+HH:MM] or [-HH:MM]; the result is in
    microseconds. *)
Definition offset (l : list ascii) : option (option Z) :=
  match l with
  | [] => Some None
  | sign :: l' =>
      sgn ← (if Ascii.eqb sign "+" then Some 1%Z
             else if Ascii.eqb sign "-" then Some (-1)%Z else None);
      '(hh, l1) ← number 2 0 l';
      l2 ← expect ":" l1;
      '(mm, l3) ← number 2 0 l2;
      match l3 with
      | [] =>
          if in_range 0 hh 23 && in_range 0 mm 59
          then Some (Some (sgn * (hh * 3600 + mm * 60) * 1000000)%Z)
          else None
      | _ => None
      end
  end.

Definition fromisoformat (s : string) : option datetime :=
  let l := list_ascii_of_string s in
  '(y, l) ← number 4 0 l;
  l ← expect "-" l;
  '(mo, l) ← number 2 0 l;
  l ← expect "-" l;
  '(d, l) ← number 2 0 l;
  l ← expect "T" l;
  '(h, l) ← number 2 0 l;
  l ← expect ":" l;
  '(mi, l) ← number 2 0 l;
  l ← expect ":" l;
  '(sec, l) ← number 2 0 l;
  '(us, l) ← fraction l;
  tz ← offset l;
  if in_range 1 y 9999 && in_range 1 mo 12
     && in_range 1 d (days_in_month y mo)
     && in_range 0 h 23 && in_range 0 mi 59 && in_range 0 sec 59
  then Some (mkDatetime (ymd2ord y mo d) h mi sec us tz)
  else None.

End Iso.

(** ** The date filter *)

Section DateFilter.

(** [datetime.fromisoformat], as in section [Parser]. *)
Variable fromisoformat : string -> option datetime.

(** [dateparser.parse]: the instant an expression resolves to, [None] when
    the expression is not understood. *)
Variable dateparser_parse : string -> option datetime.

(** [expr in ["today", "yesterday"] or "days ago" in expr] *)
Definition relative_day (expr : string) : bool :=
  bool_decide (expr ∈ ["today"; "yesterday"]) || Str.contains "days ago" expr.

(** The block [if from_date: ...] computing [from_dt]. *)
Definition resolve_from (from_date : option string) : result (option datetime) :=
  match from_date with
  | Some s =>
      if Str.truthy s then
        match dateparser_parse s with
        | None => Raise (mkExn ValueError ("Could not parse from-date: " +:+ s))
        | Some from_dt =>
            mret (Some (if relative_day s
                        then DT.replace_time from_dt 0 0 0 0
                        else from_dt))
        end
      else mret None
  | None => mret None
  end.

(** The block [if to_date: ...] computing [to_dt]. *)
Definition resolve_to (to_date : option string) : result (option datetime) :=
  match to_date with
  | Some s =>
      if Str.truthy s then
        match dateparser_parse s with
        | None => Raise (mkExn ValueError ("Could not parse to-date: " +:+ s))
        | Some to_dt =>
            mret (Some (if relative_day s
                        then DT.replace_time to_dt 23 59 59 999999
                        else to_dt))
        end
      else mret None
  | None => mret None
  end.

(** The naive time of a message: [parse_timestamp] followed by
    [replace(tzinfo=None)] when an offset is present; [None] when the
    timestamp is absent, empty or not parseable. *)
Definition message_time (message : TranscriptEntry) : option datetime :=
  match entry_timestamp message with
  | Some timestamp_str =>
      if Str.truthy timestamp_str then
        match parse_timestamp fromisoformat timestamp_str with
        | Some message_dt =>
            Some (match dt_tzinfo message_dt with
                  | Some _ => DT.replace_tzinfo_none message_dt
                  | None => message_dt
                  end)
        | None => None
        end
      else None
  | None => None
  end.

(** One turn of the loop: does the message reach [filtered_messages]? *)
Definition keeps (from_dt to_dt : option datetime) (message : TranscriptEntry)
  : result bool :=
  if is_summary message then mret true
  else
    match message_time message with
    | None => mret false
    | Some message_dt =>
        early ← match from_dt with
                | Some f => DT.lt message_dt f
                | None => mret false
                end;
        if early : bool then mret false
        else
          late ← match to_dt with
                 | Some t => DT.gt message_dt t
                 | None => mret false
                 end;
          mret (negb late)
    end.

Definition filter_body (from_dt to_dt : option datetime)
    (filtered_messages : list TranscriptEntry) (message : TranscriptEntry)
  : result (list TranscriptEntry) :=
  k ← keeps from_dt to_dt message;
  mret (if k : bool then filtered_messages ++ [message] else filtered_messages).

(** [filter_messages_by_date] *)
Definition filter_messages_by_date (messages : list TranscriptEntry)
    (from_date to_date : option string) : result (list TranscriptEntry) :=
  if negb (opt_truthy from_date) && negb (opt_truthy to_date) then mret messages
  else
    from_dt ← resolve_from from_date;
    to_dt ← resolve_to to_date;
    foldM (filter_body from_dt to_dt) [] messages.

End DateFilter.

(** ** Loading a transcript *)

(** A decoded JSON value; an object holds its members in the order of the
    dictionary [json.loads] builds, one per key. *)
#[warnings="-register-all"]
Inductive json :=
| JNull
| JBool (b : bool)
| JNumber (literal : string)
| JString (s : string)
| JArray (items : list json)
| JObject (members : list (string * json)).

(** [d.get(key)] *)
Fixpoint dict_get (key : string) (members : list (string * json)) : option json :=
  match members with
  | [] => None
  | (k, v) :: rest => if String.eqb k key then Some v else dict_get key rest
  end.

Section Loader.

(** [json.loads] *)
Variable json_loads : string -> result json.

(** [models.parse_transcript_entry], applied to the members of the decoded
    object. *)
Variable parse_transcript_entry : list (string * json) -> result TranscriptEntry.

(** [re.sub(pattern, repl, string)] *)
Variable re_sub : string -> string -> string -> string.

(** The methods of [cache.CacheManager] that [load_transcript] calls. *)
Record CacheManager := mkCache {
  load_cached_entries : string -> option (list TranscriptEntry);
  load_cached_entries_filtered :
    string -> option string -> option string -> option (list TranscriptEntry);
  save_cached_entries : string -> list TranscriptEntry -> result unit
}.

(** What the loop has built so far: the list [messages] and the lines
    printed. *)
Record LoadState := mkLoad {
  ld_messages : list TranscriptEntry;
  ld_stdout : list string
}.

Definition print (line : string) (st : LoadState) : LoadState :=
  mkLoad (ld_messages st) (ld_stdout st ++ [line]).

Definition append_message (entry : TranscriptEntry) (st : LoadState) : LoadState :=
  mkLoad (ld_messages st ++ [entry]) (ld_stdout st).

(** [f"Line {line_no} of {jsonl_path}"], the head of every diagnostic. *)
Definition line_of (line_no : nat) (jsonl_path : string) : string :=
  "Line " +:+ str_int line_no +:+ " of " +:+ jsonl_path.

Definition recognised (entry_type : option json) : bool :=
  match entry_type with
  | Some (JString t) =>
      bool_decide (t ∈ ["user"; "assistant"; "summary"; "system"])
  | _ => false
  end.

(** The body of the [try] statement for a non-blank, stripped line. *)
Definition try_body (jsonl_path : string) (line_no : nat) (line : string)
    (st : LoadState) : result LoadState :=
  entry_dict ← json_loads line;
  match entry_dict with
  | JObject members =>
      let entry_type := dict_get "type" members in
      if recognised entry_type then
        entry ← parse_transcript_entry members;
        mret (append_message entry st)
      else
        mret (print (line_of line_no jsonl_path
                       +:+ " is not a recognised message type: " +:+ line) st)
  | _ =>
      mret (print (line_of line_no jsonl_path
                     +:+ " is not a JSON object: " +:+ line) st)
  end.

Definition pydantic_url : string :=
  "    For further information visit https://errors.pydantic(."
    +:+ "*" +:+ ")\n?".

Definition traceback_literal : string := Str.LF +:+ "{traceback.format_exc()}".

(** The [except] clauses, tried in order: JSONDecodeError, ValueError,
    Exception. *)
Definition except_clauses (jsonl_path : string) (line_no : nat) (e : exn)
    (st : LoadState) : result LoadState :=
  match exn_cls e with
  | JSONDecodeError =>
      mret (print (line_of line_no jsonl_path
                     +:+ " | JSON decode error: " +:+ exn_str e) st)
  | ValueError | UnicodeDecodeError =>
      let error_msg := exn_str e in
      if Str.contains "validation error" (Str.lower error_msg) then
        let err_no_url := re_sub pydantic_url EmptyString error_msg in
        mret (print (line_of line_no jsonl_path +:+ " | " +:+ err_no_url) st)
      else
        mret (print (line_of line_no jsonl_path +:+ " | ValueError: "
                       +:+ error_msg +:+ traceback_literal) st)
  | IndexError | TypeError | OSError | OtherException =>
      mret (print (line_of line_no jsonl_path +:+ " | Unexpected error: "
                     +:+ exn_str e +:+ traceback_literal) st)
  end.

(** One turn of [for line_no, line in enumerate(f)]. *)
Definition line_body (jsonl_path : string) (st : LoadState)
    (numbered : nat * string) : result LoadState :=
  let '(line_no, line) := numbered in
  let line := Str.strip line in
  if Str.truthy line then
    match try_body jsonl_path line_no line st with
    | Ok st' => mret st'
    | Raise e => except_clauses jsonl_path line_no e st
    end
  else mret st.

(** The cache lookup that opens [load_transcript]. *)
Definition cache_lookup (cache_manager : option CacheManager)
    (jsonl_path : string) (from_date to_date : option string)
  : option (list TranscriptEntry) :=
  match cache_manager with
  | Some cm =>
      if opt_truthy from_date || opt_truthy to_date
      then load_cached_entries_filtered cm jsonl_path from_date to_date
      else load_cached_entries cm jsonl_path
  | None => None
  end.

(** [load_transcript].  [f] is what [open(jsonl_path, "r", encoding="utf-8")]
    and the iteration over the file give: the decoded lines of the file,
    or the exception that [open] raises (an OSError: no such file, no
    permission) or that the decoder raises on bytes that are not UTF-8 (a
    UnicodeDecodeError).  The [with] and the [for] statement stand outside
    the [try], so that exception leaves [load_transcript].  The result
    pairs the returned entries with the lines printed. *)
Definition load_transcript (jsonl_path : string) (f : result (list string))
    (cache_manager : option CacheManager) (from_date to_date : option string)
    (silent : bool) : result (list TranscriptEntry * list string) :=
  match cache_lookup cache_manager jsonl_path from_date to_date with
  | Some cached_entries =>
      mret (cached_entries,
            if silent then []
            else ["Loading " +:+ jsonl_path +:+ " from cache..."])
  | None =>
      lines ← f;
      let st := mkLoad [] (if silent then []
                           else ["Processing " +:+ jsonl_path +:+ "..."]) in
      st ← foldM (line_body jsonl_path) st (enumerate lines);
      _ ← match cache_manager with
          | Some cm => save_cached_entries cm jsonl_path (ld_messages st)
          | None => mret ()
          end;
      mret (ld_messages st, ld_stdout st)
  end.

End Loader.

(** ** Reference instances of the loader's parameters

    A decoder for the fragment of JSON without escapes, exponents and
    fractions, and a converter for the entries of the data model.  They
    instantiate [json_loads] and [parse_transcript_entry] when the loader
    is run on a concrete file. *)
Module Ref.

Definition quote : ascii := ascii_of_nat 34.

(** Writes a JSON text with ['] in place of the double quote. *)
Definition q (s : string) : string :=
  Str.replace_char "'" (String quote EmptyString) s.

Definition is_ws (c : ascii) : bool :=
  let n := Str.code c in (n =? 32) || (n =? 9) || (n =? 10) || (n =? 13).

Fixpoint skip_ws (l : list ascii) : list ascii :=
  match l with
  | c :: l' => if is_ws c then skip_ws l' else l
  | [] => []
  end.

(** The characters of a string literal up to its closing quote; [acc] is
    reversed. *)
Fixpoint string_body (acc : string) (l : list ascii) : option (string * list ascii) :=
  match l with
  | [] => None
  | c :: l' =>
      if Ascii.eqb c quote then Some (String.rev acc, l')
      else if Ascii.eqb c "\" || (Str.code c <? 32) then None
      else string_body (String c acc) l'
  end.

Fixpoint digits (acc : string) (l : list ascii) : string * list ascii :=
  match l with
  | c :: l' =>
      match Iso.digit c with
      | Some _ => digits (String c acc) l'
      | None => (String.rev acc, l)
      end
  | [] => (String.rev acc, [])
  end.

(** [d[k] = v] on the members of a dictionary. *)
Fixpoint dict_set (k : string) (v : json) (members : list (string * json))
  : list (string * json) :=
  match members with
  | [] => [(k, v)]
  | (k', v') :: rest =>
      if String.eqb k' k then (k', v) :: rest else (k', v') :: dict_set k v rest
  end.

Fixpoint value (fuel : nat) (l : list ascii) : option (json * list ascii) :=
  match fuel with
  | 0 => None
  | S fuel =>
      match skip_ws l with
      | "{"%char :: l1 =>
          match skip_ws l1 with
          | "}"%char :: l2 => Some (JObject [], l2)
          | _ => members fuel [] l1
          end
      | "["%char :: l1 =>
          match skip_ws l1 with
          | "]"%char :: l2 => Some (JArray [], l2)
          | _ => elements fuel [] l1
          end
      | "t"%char :: "r"%char :: "u"%char :: "e"%char :: l1 => Some (JBool true, l1)
      | "f"%char :: "a"%char :: "l"%char :: "s"%char :: "e"%char :: l1 =>
          Some (JBool false, l1)
      | "n"%char :: "u"%char :: "l"%char :: "l"%char :: l1 => Some (JNull, l1)
      | c :: l1 =>
          if Ascii.eqb c quote then
            '(s, l2) ← string_body EmptyString l1; Some (JString s, l2)
          else
            match digits EmptyString (c :: l1) with
            | (EmptyString, _) => None
            | (lit, l2) => Some (JNumber lit, l2)
            end
      | [] => None
      end
  end
with members (fuel : nat) (acc : list (string * json)) (l : list ascii)
  : option (json * list ascii) :=
  match fuel with
  | 0 => None
  | S fuel =>
      match skip_ws l with
      | c :: l1 =>
          if Ascii.eqb c quote then
            '(k, l2) ← string_body EmptyString l1;
            match skip_ws l2 with
            | ":"%char :: l3 =>
                '(v, l4) ← value fuel l3;
                match skip_ws l4 with
                | ","%char :: l5 => members fuel (dict_set k v acc) l5
                | "}"%char :: l5 => Some (JObject (dict_set k v acc), l5)
                | _ => None
                end
            | _ => None
            end
          else None
      | [] => None
      end
  end
with elements (fuel : nat) (acc : list json) (l : list ascii)
  : option (json * list ascii) :=
  match fuel with
  | 0 => None
  | S fuel =>
      '(v, l1) ← value fuel l;
      match skip_ws l1 with
      | ","%char :: l2 => elements fuel (acc ++ [v]) l2
      | "]"%char :: l2 => Some (JArray (acc ++ [v]), l2)
      | _ => None
      end
  end.

Definition json_loads (s : string) : result json :=
  match value (S (String.length s)) (list_ascii_of_string s) with
  | Some (v, rest) =>
      match skip_ws rest with
      | [] => Ok v
      | _ => Raise (mkExn JSONDecodeError "Extra data")
      end
  | None => Raise (mkExn JSONDecodeError "Expecting value")
  end.

Definition get_str (key : string) (members : list (string * json)) : option string :=
  match dict_get key members with
  | Some (JString s) => Some s
  | _ => None
  end.

Definition content_item (j : json) : option ContentItem :=
  match j with
  | JObject m =>
      t ← get_str "type" m;
      if String.eqb t "text" then TextContent <$> get_str "text" m
      else if String.eqb t "thinking" then ThinkingContent <$> get_str "thinking" m
      else if String.eqb t "tool_use" then
        i ← get_str "id" m; n ← get_str "name" m;
        Some (ToolUseContent i n EmptyString)
      else if String.eqb t "tool_result" then
        i ← get_str "tool_use_id" m;
        Some (ToolResultContent i (default EmptyString (get_str "content" m)))
      else if String.eqb t "image" then Some (ImageContent EmptyString)
      else None
  | _ => None
  end.

Definition content_items (items : list json) : option (list ContentItem) :=
  mapM content_item items.

Definition message_content (members : list (string * json)) : option MessageContent :=
  match dict_get "message" members with
  | Some (JObject m) =>
      match dict_get "content" m with
      | Some (JString s) => Some (ContentStr s)
      | Some (JArray items) => ContentList <$> content_items items
      | _ => None
      end
  | _ => None
  end.

Definition validation_error (what : string) : exn :=
  mkExn ValueError ("1 validation error for " +:+ what).

(** Modelled from the spec: [models.parse_transcript_entry], which is not
    among the sources.  A recognised object becomes the matching entry
    variant; a missing required field or a field of the wrong type is a
    validation error. *)
Definition parse_transcript_entry (members : list (string * json))
  : result TranscriptEntry :=
  let bad := Raise (validation_error "TranscriptEntry") in
  match get_str "type" members with
  | Some t =>
      if String.eqb t "summary" then
        match get_str "leafUuid" members, get_str "summary" members with
        | Some l, Some s => Ok (SummaryTranscriptEntry l s)
        | _, _ => bad
        end
      else
        match get_str "sessionId" members, get_str "timestamp" members with
        | Some sid, Some ts =>
            let uuid := default EmptyString (get_str "uuid" members) in
            if String.eqb t "user" then
              match message_content members with
              | Some c => Ok (UserTranscriptEntry uuid (Some sid) (Some ts) false c)
              | None => bad
              end
            else if String.eqb t "assistant" then
              match message_content members with
              | Some (ContentList items) =>
                  Ok (AssistantTranscriptEntry uuid (Some sid) (Some ts) false items)
              | _ => bad
              end
            else if String.eqb t "system" then
              Ok (SystemTranscriptEntry (Some sid) (Some ts) (message_content members))
            else bad
        | _, _ => bad
        end
  | None => bad
  end.

(** If [p] starts [l], what follows it. *)
Fixpoint after_prefix (p l : list ascii) : option (list ascii) :=
  match p, l with
  | [], _ => Some l
  | c :: p', c' :: l' => if Ascii.eqb c c' then after_prefix p' l' else None
  | _ :: _, [] => None
  end.

(** Skips the rest of the line and its newline. *)
Fixpoint after_line (l : list ascii) : list ascii :=
  match l with
  | [] => []
  | c :: l' => if Str.code c =? 10 then l' else after_line l'
  end.

Definition pydantic_prefix : list ascii :=
  list_ascii_of_string "    For further information visit https://errors.pydantic".

Fixpoint sub_url (fuel : nat) (repl : list ascii) (l : list ascii) : list ascii :=
  match fuel with
  | 0 => l
  | S fuel =>
      match after_prefix pydantic_prefix l with
      | Some rest => repl ++ sub_url fuel repl (after_line rest)
      | None =>
          match l with
          | [] => []
          | c :: l' => c :: sub_url fuel repl l'
          end
      end
  end.

(** [re.sub] for the one pattern the loader uses; any other pattern is
    taken not to match. *)
Definition re_sub (pattern repl s : string) : string :=
  if String.eqb pattern
       ("    For further information visit https://errors.pydantic(."
          +:+ "*" +:+ ")\n?")
  then string_of_list_ascii
         (sub_url (S (String.length s)) (list_ascii_of_string repl)
            (list_ascii_of_string s))
  else s.

End Ref.

(** ** Vocabulary of the properties *)

(** The entries the segmenter works on. *)
Definition non_summary (messages : list TranscriptEntry) : list TranscriptEntry :=
  List.filter (fun m => negb (is_summary m)) messages.

(** The positions from a span's start to its end. *)
Definition span_range (s : Span) : list nat :=
  List.seq (start_index s) (S (end_index s) - start_index s).

(** For each non-summary entry, in order, its position in [messages]. *)
Definition original_indices (messages : list TranscriptEntry) : list nat :=
  map fst (List.filter (fun p => negb (is_summary (snd p))) (enumerate messages)).

(** The title a message offers: the first 120 characters of the first line
    of its text, when the text is not blank. *)
Definition offered_title (m : TranscriptEntry) : option string :=
  let text := extract_text_content (entry_content m) in
  if Str.truthy (Str.strip text)
  then Some (Str.slice_to 120 (default EmptyString (head (Str.splitlines (Str.strip text)))))
  else None.

(** The first title offered by an entry of type [ty]. *)
Fixpoint first_title (ty : string) (members : list TranscriptEntry) : option string :=
  match members with
  | [] => None
  | m :: rest =>
      if String.eqb (entry_type m) ty then
        match offered_title m with
        | Some t => Some t
        | None => first_title ty rest
        end
      else first_title ty rest
  end.

(** The title as the documentation words it: the first user text of the
    span, else the first assistant text. *)
Definition title_user_first (members : list TranscriptEntry) : option string :=
  match first_title "user" members with
  | Some t => Some t
  | None => first_title "assistant" members
  end.

(** The title in arrival order: the first text offered by a user or an
    assistant entry. *)
Fixpoint title_first_come (members : list TranscriptEntry) : option string :=
  match members with
  | [] => None
  | m :: rest =>
      if String.eqb (entry_type m) "user" || String.eqb (entry_type m) "assistant" then
        match offered_title m with
        | Some t => Some t
        | None => title_first_come rest
        end
      else title_first_come rest
  end.

(** The kind as the documentation words it, from the content of the
    members. *)
Definition kind_of_members (members : list TranscriptEntry) : SpanKind :=
  if existsb (fun m => _contains_todowrite (entry_content m)) members then todo
  else if existsb (fun m => _has_tool_activity (entry_content m)) members then tooling
  else if forallb (fun m => String.eqb (entry_type m) "system") members then system
  else chat.

(** The entries at the given positions of a list. *)
Definition entries_at (l : list TranscriptEntry) (positions : list nat)
  : list TranscriptEntry :=
  omap (fun i => l !! i) positions.

(** What [fold_message] leaves in [cur["title"]]. *)
Definition next_title (held : option string) (m : TranscriptEntry) : option string :=
  match held with
  | Some _ => held
  | None =>
      if String.eqb (entry_type m) "user" || String.eqb (entry_type m) "assistant"
      then offered_title m
      else None
  end.

(** *** Invariants of the segmenter loop *)

Section SegmenterVocabulary.

Variable fromisoformat : string -> option datetime.

(** The positions a draft covers once position [k] is folded in. *)
Definition draft_range (cur : SpanDraft) (k : nat) : list nat :=
  List.seq (d_start_index cur) (S k - d_start_index cur).

(** What holds of the open draft after position [k] of [seq] is folded
    in.  Flags, title and end timestamp are stated over [messages], the
    list [fold_message] reads. *)
Record draft_ok (messages seq : list TranscriptEntry) (k : nat) (cur : SpanDraft)
  : Prop := {
  dk_end : d_end_index cur = k;
  dk_start : d_start_index cur <= k;
  dk_indices : d_message_indices cur = d_start_index cur :: draft_range cur k;
  dk_session : forall i, d_start_index cur <= i <= k ->
      entry_sessionId <$> seq !! i = Some (d_session_id cur);
  dk_start_ts :
    entry_timestamp <$> seq !! d_start_index cur = Some (d_start_timestamp cur);
  dk_end_ts : entry_timestamp <$> messages !! k = Some (d_end_timestamp cur);
  dk_todo : d_has_todo cur =
    existsb (fun m => _contains_todowrite (entry_content m))
      (entries_at messages (draft_range cur k));
  dk_tooling : d_has_tooling cur =
    existsb (fun m => _has_tool_activity (entry_content m))
      (entries_at messages (draft_range cur k));
  dk_system : d_all_system cur =
    forallb (fun m => String.eqb (entry_type m) "system")
      (entries_at messages (draft_range cur k));
  dk_title : d_title cur = title_first_come (entries_at messages (draft_range cur k))
}.

(** What holds of every span the segmenter returns. *)
Record span_ok (messages seq : list TranscriptEntry) (s : Span) : Prop := {
  ok_bounds : start_index s <= end_index s < length seq;
  ok_id : id s = span_id (session_id s) (start_index s) (end_index s);
  ok_indices : message_indices s = start_index s :: span_range s;
  ok_session : forall i, start_index s <= i <= end_index s ->
      entry_sessionId <$> seq !! i = Some (session_id s);
  ok_start_ts :
    entry_timestamp <$> seq !! start_index s = Some (start_timestamp s);
  ok_end_ts : entry_timestamp <$> messages !! end_index s = Some (end_timestamp s);
  ok_kind : kind s = kind_of_members (entries_at messages (span_range s));
  ok_title : title s = title_first_come (entries_at messages (span_range s))
}.

(** The loop invariant after position [k]. *)
Record loop_inv (messages seq : list TranscriptEntry) (gap_seconds : Z) (k : nat)
    (st : SpanDraft * list Span) : Prop := {
  li_draft : draft_ok messages seq k (fst st);
  li_spans : forall s, s ∈ snd st -> span_ok messages seq s;
  li_before : forall s, s ∈ snd st -> end_index s < d_start_index (fst st);
  li_cover :
    concat (map span_range (snd st)) ++ draft_range (fst st) k = List.seq 0 (S k);
  li_ends : NoDup (map end_index (snd st));
  li_starts : forall i, 1 <= i <= k ->
      (boundary fromisoformat seq gap_seconds i = Ok true <->
       (d_start_index (fst st) = i \/ exists s, s ∈ snd st /\ start_index s = i))
}.

(** What holds of the returned list of spans. *)
Record spans_ok (messages : list TranscriptEntry) (gap_seconds : Z)
    (spans : list Span) : Prop := {
  so_spans : forall s, s ∈ spans -> span_ok messages (non_summary messages) s;
  so_cover :
    concat (map span_range spans) = List.seq 0 (length (non_summary messages));
  so_ends : NoDup (map end_index spans);
  so_starts : forall i, 1 <= i < length (non_summary messages) ->
      (boundary fromisoformat (non_summary messages) gap_seconds i = Ok true <->
       exists s, s ∈ spans /\ start_index s = i)
}.

End SegmenterVocabulary.

(** *** Span ids *)

(** Decimal digits only. *)
Fixpoint digits_only (s : string) : bool :=
  match s with
  | EmptyString => true
  | String c s' => (48 <=? Str.code c) && (Str.code c <=? 57) && digits_only s'
  end.

(** The id a span would have if its two indices were the positions of its
    first and last member in the unfiltered list [messages]. *)
Definition id_from_original (messages : list TranscriptEntry) (s : Span) : string :=
  span_id (session_id s)
    (default 0 (original_indices messages !! start_index s))
    (default 0 (original_indices messages !! end_index s)).

(** *** Offsets *)

(** Does the value carry an offset? *)
Definition aware (d : datetime) : bool :=
  match dt_tzinfo d with Some _ => true | None => false end.

(** All parseable timestamps of [seq] agree on carrying an offset. *)
Definition timestamps_agree (fromisoformat : string -> option datetime)
    (seq : list TranscriptEntry) : Prop :=
  forall m1 m2 d1 d2, m1 ∈ seq -> m2 ∈ seq ->
    timestamp_dt fromisoformat (entry_timestamp m1) = Some d1 ->
    timestamp_dt fromisoformat (entry_timestamp m2) = Some d2 ->
    aware d1 = aware d2.

(** ** Sample transcripts *)
Module Sample.

Definition user_hello : TranscriptEntry :=
  UserTranscriptEntry "u1" (Some "s1") (Some "2024-01-01T00:00:00Z") false
    (ContentStr "hello").

Definition assistant_hi : TranscriptEntry :=
  AssistantTranscriptEntry "a1" (Some "s1") (Some "2024-01-01T00:05:00Z") false
    [TextContent "hi"].

Definition assistant_early : TranscriptEntry :=
  AssistantTranscriptEntry "a0" (Some "s1") (Some "2024-01-01T00:00:00Z") false
    [TextContent "hi"].

Definition user_later : TranscriptEntry :=
  UserTranscriptEntry "u2" (Some "s1") (Some "2024-01-01T00:05:00Z") false
    (ContentStr "hello").

Definition assistant_todo : TranscriptEntry :=
  AssistantTranscriptEntry "a2" (Some "s1") (Some "2024-01-01T00:05:00Z") false
    [ToolUseContent "t1" "TodoWrite" EmptyString; ToolUseContent "t2" "Bash" EmptyString].

Definition summary : TranscriptEntry :=
  SummaryTranscriptEntry "u1" "A greeting".

(** Ten minutes after [user_hello], to the second. *)
Definition user_at_gap : TranscriptEntry :=
  UserTranscriptEntry "u3" (Some "s1") (Some "2024-01-01T00:10:00Z") false
    (ContentStr "still there").

(** One second more. *)
Definition user_past_gap : TranscriptEntry :=
  UserTranscriptEntry "u4" (Some "s1") (Some "2024-01-01T00:10:01Z") false
    (ContentStr "back again").

(** Two entries of one session that lie 2**34 seconds and one
    microsecond apart. *)
Definition user_year_1000 : TranscriptEntry :=
  UserTranscriptEntry "u5" (Some "s1") (Some "1000-01-01T00:00:00") false
    (ContentStr "long ago").

Definition user_year_1544 : TranscriptEntry :=
  UserTranscriptEntry "u6" (Some "s1") (Some "1544-05-30T01:53:04.000001") false
    (ContentStr "much later").

End Sample.

(** *** Boundaries between adjacent entries *)

(** A span of [spans] starts at position [i]. *)
Definition starts_at (spans : list Span) (i : nat) : Prop :=
  exists s, s ∈ spans /\ start_index s = i.

(** Positions [i] and [j] are members of one span of [spans]. *)
Definition together (spans : list Span) (i j : nat) : Prop :=
  exists s, s ∈ spans /\ i ∈ message_indices s /\ j ∈ message_indices s.

(** Both entries have a parseable timestamp and the time from [prev] to
    [cur] is more than [gap_seconds]. *)
Definition gap_exceeded (fromisoformat : string -> option datetime)
    (gap_seconds : Z) (prev cur : TranscriptEntry) : Prop :=
  exists dp dc delta,
    timestamp_dt fromisoformat (entry_timestamp prev) = Some dp
    /\ timestamp_dt fromisoformat (entry_timestamp cur) = Some dc
    /\ DT.sub dc dp = Ok delta
    /\ (gap_seconds * 1000000 < delta)%Z.

(** *** The date filter *)

(** A bound that carries no offset (or is absent). *)
Definition naive_bound (b : option datetime) : Prop :=
  forall d, b = Some d -> dt_tzinfo d = None.

(** The time lies between the bounds that are present, ends included. *)
Definition within (from_dt to_dt : option datetime) (t : datetime) : bool :=
  match from_dt with Some fd => DT.le fd t | None => true end
  && match to_dt with Some td => DT.le t td | None => true end.

(** The entries the filter is to retain: summaries, and entries whose
    naive time lies within the bounds. *)
Definition retained (fromisoformat : string -> option datetime)
    (from_dt to_dt : option datetime) (m : TranscriptEntry) : bool :=
  is_summary m
  || match message_time fromisoformat m with
     | Some t => within from_dt to_dt t
     | None => false
     end.


(** ** A reference resolver for date expressions

    [RefDates.parse now] resolves "today", "yesterday" and "N days ago"
    against the instant [now], keeping its time of day, and an ISO
    timestamp to itself; it does not understand anything else.  It
    instantiates the parameter [dateparser_parse] when the filter is run on
    concrete transcripts. *)
Module RefDates.

Definition days_before (now : datetime) (n : Z) : datetime :=
  mkDatetime (dt_ordinal now - n) (dt_hour now) (dt_minute now) (dt_second now)
    (dt_microsecond now) (dt_tzinfo now).

Fixpoint decimal (acc : Z) (l : list ascii) : Z :=
  match l with
  | c :: l' =>
      match Iso.digit c with
      | Some d => decimal (acc * 10 + d)%Z l'
      | None => acc
      end
  | [] => acc
  end.

Definition parse (now : datetime) (expr : string) : option datetime :=
  if String.eqb expr "today" then Some now
  else if String.eqb expr "yesterday" then Some (days_before now 1)
  else
    match Ref.digits EmptyString (list_ascii_of_string expr) with
    | (String c lit, rest) =>
        if String.eqb (string_of_list_ascii rest) " days ago"
        then Some (days_before now (decimal 0 (list_ascii_of_string (String c lit))))
        else parse_timestamp Iso.fromisoformat expr
    | (EmptyString, _) => None
    end.

(** 2024-01-03 10:30:00, naive. *)
Definition now : datetime := mkDatetime 738888 10 30 0 0 None.

End RefDates.

Module SampleDates.

(** Midnight of the day before [RefDates.now]. *)
Definition at_midnight : TranscriptEntry :=
  UserTranscriptEntry "m0" (Some "s1") (Some "2024-01-02T00:00:00Z") false
    (ContentStr "first thing").

(** The last second of the day before that. *)
Definition day_before : TranscriptEntry :=
  UserTranscriptEntry "m1" (Some "s1") (Some "2024-01-01T23:59:59Z") false
    (ContentStr "late").

Definition unparseable : TranscriptEntry :=
  UserTranscriptEntry "m2" (Some "s1") (Some "last tuesday") false
    (ContentStr "when").

Definition transcript : list TranscriptEntry :=
  [Sample.summary; day_before; unparseable; at_midnight].

End SampleDates.

(** *** Lines of a transcript file *)

Section LoaderVocabulary.

Variable json_loads : string -> result json.
Variable parse_transcript_entry : list (string * json) -> result TranscriptEntry.

(** A line is blank when nothing is left of it once stripped. *)
Definition blank (line : string) : bool := negb (Str.truthy (Str.strip line)).

(** The entry a line converts to: the line is not blank, decodes to a
    JSON object of a recognised type, and that object passes the schema
    conversion. *)
Definition converts (line : string) : option TranscriptEntry :=
  if blank line then None
  else
    match json_loads (Str.strip line) with
    | Ok (JObject members) =>
        if recognised (dict_get "type" members) then
          match parse_transcript_entry members with
          | Ok entry => Some entry
          | Raise _ => None
          end
        else None
    | _ => None
    end.

(** A line that is neither blank nor converted. *)
Definition skipped (line : string) : bool :=
  negb (blank line)
  && match converts line with Some _ => false | None => true end.

(** The diagnostic [d] names the source and the number of the line. *)
Definition names_line (jsonl_path : string) (d : string) (numbered : nat * string)
  : Prop :=
  String.prefix (line_of (fst numbered) jsonl_path) d = true.

(** The line printed before the file is read. *)
Definition progress (silent : bool) (jsonl_path : string) : list string :=
  if silent then [] else ["Processing " +:+ jsonl_path +:+ "..."].

End LoaderVocabulary.

Module SampleFile.

Definition bad_line : string := "{not json".

Definition user_line : string :=
  Ref.q "{'type':'user','sessionId':'s1','timestamp':'2024-01-01T00:00:00Z','message':{'content':'hello'}}"
    +:+ Str.LF.

Definition user_entry : TranscriptEntry :=
  UserTranscriptEntry EmptyString (Some "s1") (Some "2024-01-01T00:00:00Z") false
    (ContentStr "hello").

(** What the decoder raises on a file that starts with the byte ff. *)
Definition invalid_start_byte : exn :=
  mkExn UnicodeDecodeError
    "'utf-8' codec can't decode byte 0xff in position 0: invalid start byte".

(** A file whose first line holds the byte ff and whose second line is
    [user_line]: reading it raises. *)
Definition undecodable : result (list string) := Raise invalid_start_byte.

End SampleFile.

(** ** Further vocabulary *)


(** Two entries of one session whose timestamps both parse, one with an
    offset and one without. *)
Definition mixed_pair (fromisoformat : string -> option datetime)
    (prev cur : TranscriptEntry) : Prop :=
  entry_sessionId prev = entry_sessionId cur
  /\ exists p c,
       timestamp_dt fromisoformat (entry_timestamp prev) = Some p
       /\ timestamp_dt fromisoformat (entry_timestamp cur) = Some c
       /\ aware p <> aware c.

(** No character of the string is a line boundary. *)
Fixpoint no_linebreak (s : string) : bool :=
  match s with
  | EmptyString => true
  | String c s' => negb (Str.is_linebreak c) && no_linebreak s'
  end.

(** A cache manager that holds nothing and cannot store. *)
Module SampleCache.

Definition disk_full : exn := mkExn OtherException "No space left on device".

Definition failing : CacheManager :=
  mkCache (fun _ => None) (fun _ _ _ => None) (fun _ _ => Raise disk_full).

End SampleCache.

(** [isinstance(item, TextContent)] *)
Definition is_text (item : ContentItem) : bool :=
  match item with TextContent _ => true | _ => false end.

(** ** Loading a directory *)

(** [lst.sort(key=key)] for string keys: the sort is stable, and strings
    are ordered character by character on their code points.  [insert]
    puts an element before the first one whose key is not smaller, so that
    folding it from the right keeps equal keys in their order. *)
Fixpoint insert_by_key {A} (key : A -> string) (x : A) (l : list A) : list A :=
  match l with
  | [] => [x]
  | y :: l' =>
      if String.leb (key x) (key y) then x :: l else y :: insert_by_key key x l'
  end.

Definition stable_sort {A} (key : A -> string) (l : list A) : list A :=
  fold_right (insert_by_key key) [] l.

(** A key that is [None] cannot be compared with any other key: sorting
    two or more elements then raises TypeError.  The text of that error
    depends on the pair of keys the sort happens to compare first and is
    not modelled. *)
Definition sort_by_key {A} (key : A -> option string) (l : list A) : result (list A) :=
  if (2 <=? length l)
     && negb (forallb (fun x => match key x with Some _ => true | None => false end) l)
  then Raise (mkExn TypeError EmptyString)
  else Ok (stable_sort (fun x => default EmptyString (key x)) l).

(** [get_timestamp] of [load_directory_transcripts]: the [timestamp]
    attribute of an entry that has one, [""] for a summary record. *)
Definition get_timestamp (entry : TranscriptEntry) : option string :=
  if is_summary entry then Some EmptyString else entry_timestamp entry.

Section Directory.

Variable json_loads : string -> result json.
Variable parse_transcript_entry : list (string * json) -> result TranscriptEntry.
Variable re_sub : string -> string -> string -> string.

(** One turn of [for jsonl_file in jsonl_files]; the state is
    [all_messages] and the lines printed. *)
Definition directory_body (cache_manager : option CacheManager)
    (from_date to_date : option string) (silent : bool)
    (st : list TranscriptEntry * list string)
    (jsonl_file : string * result (list string))
  : result (list TranscriptEntry * list string) :=
  loaded ← load_transcript json_loads parse_transcript_entry re_sub
              (fst jsonl_file) (snd jsonl_file) cache_manager from_date to_date silent;
  mret (fst st ++ fst loaded, snd st ++ snd loaded).

(** [load_directory_transcripts] on the files [directory_path.glob("*.jsonl")]
    yields, each given by its path and by what reading it gives, in the
    order of the glob. *)
Definition load_directory_transcripts
    (jsonl_files : list (string * result (list string)))
    (cache_manager : option CacheManager) (from_date to_date : option string)
    (silent : bool) : result (list TranscriptEntry * list string) :=
  st ← foldM (directory_body cache_manager from_date to_date silent) ([], [])
         jsonl_files;
  all_messages ← sort_by_key get_timestamp (fst st);
  mret (all_messages, snd st).

End Directory.

(** The key under which an entry is sorted when every key is a string. *)
Definition sort_key (entry : TranscriptEntry) : string :=
  default EmptyString (get_timestamp entry).

(** The lines of a file that was read. *)
Definition lines_read (f : result (list string)) : list string :=
  match f with Ok lines => lines | Raise _ => [] end.

Module SampleDirectory.

Definition later_line : string :=
  Ref.q "{'type':'user','sessionId':'s2','timestamp':'2024-01-02T00:00:00Z','message':{'content':'later'}}".

Definition summary_line : string :=
  Ref.q "{'type':'summary','leafUuid':'u1','summary':'A greeting'}".

Definition files : list (string * result (list string)) :=
  [("b.jsonl", Ok [later_line; summary_line]);
   ("a.jsonl", Ok [SampleFile.bad_line; SampleFile.user_line])].

End SampleDirectory.

(** * Properties *)

(** ** The exception monad *)

Lemma bind_Ok {A B} (m : result A) (f : A -> result B) (b : B) :
  m ≫= f = Ok b <-> exists a, m = Ok a /\ f a = Ok b.
Proof.
  destruct m as [a|e]; simpl; split.
  - intros H. exists a. split; [reflexivity | exact H].
  - intros (a' & Ha & Hf). inversion Ha. subst. exact Hf.
  - intros H. discriminate H.
  - intros (a' & Ha & _). discriminate Ha.
Qed.

Lemma getitem_Ok {A} (l : list A) (i : nat) (x : A) :
  getitem l i = Ok x <-> l !! i = Some x.
Proof.
  unfold getitem. destruct (l !! i); split; intros H; try discriminate;
    inversion H; reflexivity.
Qed.

Lemma getitem_lt {A} (l : list A) (i : nat) :
  i < length l -> exists x, getitem l i = Ok x /\ l !! i = Some x.
Proof.
  intros Hi. destruct (lookup_lt_is_Some_2 l i Hi) as [x Hx].
  exists x. split; [apply getitem_Ok|]; exact Hx.
Qed.

Lemma foldM_cons {St I} (body : St -> I -> result St) (st : St) (i : I)
    (rest : list I) :
  foldM body st (i :: rest) = body st i ≫= fun st' => foldM body st' rest.
Proof. reflexivity. Qed.

Lemma foldM_app {St I} (body : St -> I -> result St) (st : St) (l1 l2 : list I) :
  foldM body st (l1 ++ l2) = foldM body st l1 ≫= fun st' => foldM body st' l2.
Proof.
  revert st. induction l1 as [|i l1 IH]; intros st; simpl.
  - reflexivity.
  - destruct (body st i) as [st'|e]; simpl; [apply IH | reflexivity].
Qed.

(** A loop over [range(1, n + 1)] keeps an invariant indexed by the last
    position handled. *)
Lemma foldM_range_inv {St} (body : St -> nat -> result St) (Inv : nat -> St -> Prop)
    (n : nat) (st0 st : St) :
  Inv 0 st0 ->
  (forall j st1 st2, j < n -> Inv j st1 -> body st1 (S j) = Ok st2 -> Inv (S j) st2) ->
  foldM body st0 (List.seq 1 n) = Ok st ->
  Inv n st.
Proof.
  intros H0 Hstep. revert st.
  induction n as [|n IH]; intros st Hrun.
  - simpl in Hrun. inversion Hrun. subst. exact H0.
  - rewrite seq_S, foldM_app in Hrun.
    apply bind_Ok in Hrun as (st1 & Hrun1 & Hlast).
    simpl in Hlast. apply bind_Ok in Hlast as (st2 & Hbody & Heq).
    inversion Heq. subst.
    apply (Hstep n st1); [lia | | exact Hbody].
    apply IH; [|exact Hrun1].
    intros j sa sb Hj. apply Hstep. lia.
Qed.

(** The same loop returns when every turn does. *)
Lemma foldM_range_total {St} (body : St -> nat -> result St) (Inv : nat -> St -> Prop)
    (n : nat) (st0 : St) :
  Inv 0 st0 ->
  (forall j st1, j < n -> Inv j st1 ->
     exists st2, body st1 (S j) = Ok st2 /\ Inv (S j) st2) ->
  exists st, foldM body st0 (List.seq 1 n) = Ok st /\ Inv n st.
Proof.
  intros H0 Hstep.
  induction n as [|n IH].
  - exists st0. split; [reflexivity | exact H0].
  - destruct IH as (st1 & Hrun & Hinv).
    { intros j sa Hj. apply Hstep. lia. }
    destruct (Hstep n st1) as (st2 & Hbody & Hinv2); [lia | exact Hinv |].
    exists st2. split; [|exact Hinv2].
    rewrite seq_S, foldM_app, Hrun. simpl. rewrite Hbody. reflexivity.
Qed.

(** ** Titles *)

Lemma splitlines_go_cur (cur s : string) :
  cur <> EmptyString -> Str.splitlines_go cur s <> [].
Proof.
  revert cur. induction s as [|c s IH]; intros cur Hcur; simpl.
  - destruct cur; [contradiction | discriminate].
  - destruct (Str.is_linebreak c); [discriminate |].
    apply IH. discriminate.
Qed.

Lemma splitlines_truthy (s : string) :
  Str.truthy s = true -> Str.splitlines s <> [].
Proof.
  destruct s as [|c s]; [discriminate |]. intros _.
  unfold Str.splitlines. simpl.
  destruct (Str.is_linebreak c); [discriminate |].
  apply splitlines_go_cur. discriminate.
Qed.

Lemma title_line_offered (m : TranscriptEntry) :
  Str.truthy (Str.strip (extract_text_content (entry_content m))) = true ->
  exists t, title_line (extract_text_content (entry_content m)) = Ok t
            /\ offered_title m = Some t.
Proof.
  intros Ht. unfold title_line, offered_title. rewrite Ht.
  pose proof (splitlines_truthy _ Ht) as Hne.
  destruct (Str.splitlines _) as [|line rest]; [contradiction |].
  exists (Str.slice_to 120 line). split; reflexivity.
Qed.

Lemma fold_title_Ok (m : TranscriptEntry) (held : option string) :
  fold_title m held = Ok (next_title held m).
Proof.
  unfold fold_title, next_title.
  destruct held as [t|]; [reflexivity |].
  destruct (Str.truthy (Str.strip (extract_text_content (entry_content m)))) eqn:Ht.
  - destruct (title_line_offered m Ht) as (t & Hline & Hoff).
    rewrite Hline, Hoff.
    destruct m; reflexivity.
  - assert (offered_title m = None) as ->.
    { unfold offered_title. rewrite Ht. reflexivity. }
    destruct m; reflexivity.
Qed.

Lemma title_first_come_snoc (l : list TranscriptEntry) (m : TranscriptEntry) :
  title_first_come (l ++ [m]) = next_title (title_first_come l) m.
Proof.
  induction l as [|x l IH]; simpl.
  - unfold next_title.
    destruct (String.eqb (entry_type m) "user" || String.eqb (entry_type m) "assistant");
      [|reflexivity].
    destruct (offered_title m); reflexivity.
  - destruct (String.eqb (entry_type x) "user" || String.eqb (entry_type x) "assistant");
      [|exact IH].
    destruct (offered_title x); [reflexivity | exact IH].
Qed.

(** ** Drafts *)

Lemma entries_at_snoc (l : list TranscriptEntry) (ps : list nat) (i : nat)
    (m : TranscriptEntry) :
  l !! i = Some m -> entries_at l (ps ++ [i]) = entries_at l ps ++ [m].
Proof.
  intros Hm. unfold entries_at. rewrite omap_app. simpl. rewrite Hm. reflexivity.
Qed.

Lemma draft_range_S (cur : SpanDraft) (k : nat) :
  d_start_index cur <= k -> draft_range cur (S k) = draft_range cur k ++ [S k].
Proof.
  intros Hle. unfold draft_range.
  replace (S (S k) - d_start_index cur) with (S (S k - d_start_index cur)) by lia.
  rewrite seq_S. do 2 f_equal. lia.
Qed.

Lemma fold_message_Ok (messages : list TranscriptEntry) (cur : SpanDraft)
    (i : nat) (m : TranscriptEntry) :
  messages !! i = Some m ->
  fold_message messages cur i =
  Ok {| d_start_index := d_start_index cur;
        d_end_index := i;
        d_message_indices := d_message_indices cur ++ [i];
        d_session_id := d_session_id cur;
        d_start_timestamp := d_start_timestamp cur;
        d_end_timestamp := entry_timestamp m;
        d_kind := d_kind cur;
        d_title := next_title (d_title cur) m;
        d_has_tooling := _has_tool_activity (entry_content m) || d_has_tooling cur;
        d_has_todo := _contains_todowrite (entry_content m) || d_has_todo cur;
        d_all_system := String.eqb (entry_type m) "system" && d_all_system cur |}.
Proof.
  intros Hm. unfold fold_message.
  apply getitem_Ok in Hm. rewrite Hm. simpl.
  rewrite fold_title_Ok. simpl.
  destruct (_has_tool_activity (entry_content m)),
    (_contains_todowrite (entry_content m)),
    (String.eqb (entry_type m) "system"); reflexivity.
Qed.

(** Opening a span at position [i] and folding that position in. *)
Lemma draft_open (messages seq : list TranscriptEntry) (i : nat)
    (ms mm : TranscriptEntry) :
  seq !! i = Some ms -> messages !! i = Some mm ->
  exists cur,
    (start_new_span seq i ≫= fun c => fold_message messages c i) = Ok cur
    /\ d_start_index cur = i
    /\ draft_ok messages seq i cur.
Proof.
  intros Hs Hm. unfold start_new_span.
  pose proof Hs as Hg. apply getitem_Ok in Hg. rewrite Hg. simpl.
  rewrite (fold_message_Ok _ _ _ _ Hm). simpl.
  eexists. split; [reflexivity |]. split; [reflexivity |].
  assert (Hr : forall c, d_start_index c = i -> draft_range c i = [i]).
  { intros c Hc. unfold draft_range. rewrite Hc.
    replace (S i - i) with 1 by lia. reflexivity. }
  constructor; simpl; try rewrite Hr by reflexivity;
    unfold entries_at; simpl; try rewrite Hm; simpl.
  - reflexivity.
  - lia.
  - reflexivity.
  - intros j Hj. replace j with i by lia. rewrite Hs. reflexivity.
  - rewrite Hs. reflexivity.
  - reflexivity.
  - rewrite !orb_false_r. reflexivity.
  - rewrite !orb_false_r. reflexivity.
  - rewrite !andb_true_r. reflexivity.
  - unfold next_title.
    destruct (String.eqb (entry_type mm) "user" || String.eqb (entry_type mm) "assistant");
      [|reflexivity].
    destruct (offered_title mm); reflexivity.
Qed.

(** Folding position [S k] into a draft that reaches position [k]. *)
Lemma draft_extend (messages seq : list TranscriptEntry) (k : nat)
    (cur : SpanDraft) (mm : TranscriptEntry) :
  draft_ok messages seq k cur ->
  messages !! S k = Some mm ->
  entry_sessionId <$> seq !! S k = Some (d_session_id cur) ->
  exists cur',
    fold_message messages cur (S k) = Ok cur'
    /\ d_start_index cur' = d_start_index cur
    /\ draft_ok messages seq (S k) cur'.
Proof.
  intros [He Hst Hidx Hsess Hts0 Hts1 Htodo Htool Hsys Htitle] Hm Hnew.
  rewrite (fold_message_Ok _ _ _ _ Hm).
  eexists. split; [reflexivity |]. split; [reflexivity |].
  assert (Hr : forall c, d_start_index c = d_start_index cur ->
                         draft_range c (S k) = draft_range cur k ++ [S k]).
  { intros c Hc. rewrite <- (draft_range_S cur k Hst).
    unfold draft_range. rewrite Hc. reflexivity. }
  constructor; simpl; try rewrite Hr by reflexivity;
    try rewrite (entries_at_snoc _ _ _ _ Hm).
  - reflexivity.
  - lia.
  - rewrite Hidx, app_comm_cons. reflexivity.
  - intros j Hj. destruct (decide (j = S k)) as [->|Hne]; [exact Hnew |].
    apply Hsess. lia.
  - exact Hts0.
  - rewrite Hm. reflexivity.
  - rewrite existsb_app, <- Htodo. simpl. rewrite orb_false_r. apply orb_comm.
  - rewrite existsb_app, <- Htool. simpl. rewrite orb_false_r. apply orb_comm.
  - rewrite forallb_app, <- Hsys. simpl. rewrite andb_true_r. apply andb_comm.
  - rewrite title_first_come_snoc, <- Htitle. reflexivity.
Qed.

Lemma draft_finalize (messages seq : list TranscriptEntry) (k : nat) (cur : SpanDraft) :
  draft_ok messages seq k cur -> k < length seq ->
  span_ok messages seq (finalize_current_span cur)
  /\ span_range (finalize_current_span cur) = draft_range cur k.
Proof.
  intros [He Hst Hidx Hsess Hts0 Hts1 Htodo Htool Hsys Htitle] Hk.
  assert (Hr : span_range (finalize_current_span cur) = draft_range cur k).
  { unfold span_range, draft_range. simpl. rewrite He. reflexivity. }
  split; [|exact Hr].
  constructor; try rewrite Hr; simpl; try rewrite He.
  - lia.
  - reflexivity.
  - exact Hidx.
  - exact Hsess.
  - exact Hts0.
  - exact Hts1.
  - unfold classify, kind_of_members. rewrite Htodo, Htool, Hsys. reflexivity.
  - exact Htitle.
Qed.

(** ** The loop of the segmenter *)

(** ** Seconds as a float *)

(** The two scale factors of an exponent: one of them is 1, the other a
    power of two. *)
Lemma scale_factors (e : Z) :
  exists s, (0 <= s)%Z
    /\ ((2 ^ Z.max 0 (- e) = 2 ^ s /\ 2 ^ Z.max 0 e = 1)
        \/ (2 ^ Z.max 0 (- e) = 1 /\ 2 ^ Z.max 0 e = 2 ^ s))%Z.
Proof.
  destruct (Z.le_gt_cases 0 e) as [He|He].
  - exists e. split; [exact He |]. right.
    rewrite (Z.max_l 0 (- e)), (Z.max_r 0 e) by lia. split; reflexivity.
  - exists (- e)%Z. split; [lia |]. left.
    rewrite (Z.max_r 0 (- e)), (Z.max_l 0 e) by lia. split; reflexivity.
Qed.

Lemma pow2_ge_1 (s : Z) : (0 <= s -> 1 <= 2 ^ s)%Z.
Proof. intros Hs. pose proof (Z.pow_pos_nonneg 2 s ltac:(lia) Hs). lia. Qed.

(** A power of two above 2**18 is at least 2**19. *)
Lemma pow2_above (s : Z) : (0 <= s -> 2 ^ 18 < 2 ^ s -> 2 ^ 19 <= 2 ^ s)%Z.
Proof.
  intros Hs Hlt. destruct (Z.le_gt_cases s 18) as [Hle|Hgt].
  - pose proof (Z.pow_le_mono_r 2 s 18 ltac:(lia) Hle). lia.
  - apply Z.pow_le_mono_r; lia.
Qed.

(** At the exponent [log2 n - log2 d - 53] the quotient is 2**52 or
    more. *)
Lemma scaled_lower (n d : Z) :
  (0 < n -> 0 < d ->
   2 ^ 52 * snd (DT.scaled n d (Z.log2 n - Z.log2 d - 53))
   <= fst (DT.scaled n d (Z.log2 n - Z.log2 d - 53)))%Z.
Proof.
  intros Hn Hd. unfold DT.scaled. simpl fst. simpl snd.
  set (e0 := (Z.log2 n - Z.log2 d - 53)%Z).
  pose proof (Z.log2_nonneg n) as Hln. pose proof (Z.log2_nonneg d) as Hld.
  destruct (Z.log2_spec n Hn) as [Hn1 _]. destruct (Z.log2_spec d Hd) as [_ Hd2].
  assert (Hexp : (2 ^ 52 * (2 ^ Z.succ (Z.log2 d) * 2 ^ Z.max 0 e0)
                  = 2 ^ Z.log2 n * 2 ^ Z.max 0 (- e0))%Z).
  { rewrite <- !Z.pow_add_r by lia. f_equal. lia. }
  pose proof (Z.pow_pos_nonneg 2 (Z.max 0 e0) ltac:(lia) ltac:(lia)) as HV.
  pose proof (Z.pow_pos_nonneg 2 (Z.max 0 (- e0)) ltac:(lia) ltac:(lia)) as HU.
  apply Z.le_trans with (2 ^ 52 * (2 ^ Z.succ (Z.log2 d) * 2 ^ Z.max 0 e0))%Z.
  - apply Z.mul_le_mono_nonneg_l; [lia |].
    apply Z.mul_le_mono_nonneg_r; lia.
  - rewrite Hexp. apply Z.mul_le_mono_nonneg_r; lia.
Qed.

(** One exponent higher the quotient is half as large. *)
Lemma scaled_succ (n d e : Z) :
  (0 < n -> 0 < d ->
   2 ^ 53 * snd (DT.scaled n d e) <= fst (DT.scaled n d e) ->
   2 ^ 52 * snd (DT.scaled n d (e + 1)) <= fst (DT.scaled n d (e + 1)))%Z.
Proof.
  intros Hn Hd. unfold DT.scaled. simpl fst. simpl snd.
  destruct (Z.le_gt_cases 0 e) as [He|He].
  - rewrite (Z.max_l 0 (- e)), (Z.max_r 0 e), (Z.max_l 0 (- (e + 1))),
      (Z.max_r 0 (e + 1)) by lia.
    rewrite Z.pow_add_r by lia. change (2 ^ 1)%Z with 2%Z.
    change (2 ^ 53)%Z with (2 * 2 ^ 52)%Z. lia.
  - rewrite (Z.max_r 0 (- e)), (Z.max_l 0 e), (Z.max_r 0 (- (e + 1))),
      (Z.max_l 0 (e + 1)) by lia.
    replace (- e)%Z with (- (e + 1) + 1)%Z at 1 by lia.
    rewrite Z.pow_add_r by lia. change (2 ^ 1)%Z with 2%Z.
    change (2 ^ 53)%Z with (2 * 2 ^ 52)%Z. lia.
Qed.

(** The quotient [true_divide_pos] rounds: a mantissa [q] of 2**52 or
    more and a remainder [r], of which the mantissa of the result is [q]
    or, rounded up, [q + 1]. *)
Lemma true_divide_pos_spec (n d : Z) :
  (0 < n)%Z -> (0 < d)%Z ->
  exists q r,
    let x := DT.true_divide_pos n d in
    let a := (n * 2 ^ Z.max 0 (- DT.fl_exp x))%Z in
    let b := (d * 2 ^ Z.max 0 (DT.fl_exp x))%Z in
    (a = q * b + r /\ 0 <= r < b /\ 2 ^ 52 <= q)%Z
    /\ DT.fl_mant x
       = (if (b <? 2 * r) || ((b =? 2 * r) && Z.odd q) then q + 1 else q)%Z.
Proof.
  intros Hn Hd. unfold DT.true_divide_pos.
  set (e0 := (Z.log2 n - Z.log2 d - 53)%Z).
  set (e := (if (2 ^ 53 <=? fst (DT.scaled n d e0) / snd (DT.scaled n d e0))%Z
             then (e0 + 1)%Z else e0)).
  assert (Hb : (0 < snd (DT.scaled n d e))%Z).
  { unfold DT.scaled. simpl snd.
    pose proof (Z.pow_pos_nonneg 2 (Z.max 0 e) ltac:(lia) ltac:(lia)). lia. }
  assert (Hlow : (2 ^ 52 * snd (DT.scaled n d e) <= fst (DT.scaled n d e))%Z).
  { subst e. destruct (Z.leb_spec (2 ^ 53)
                         (fst (DT.scaled n d e0) / snd (DT.scaled n d e0))) as [Hq|Hq].
    - apply scaled_succ; [exact Hn | exact Hd |].
      assert (Hb0 : (0 < snd (DT.scaled n d e0))%Z).
      { unfold DT.scaled. simpl snd.
        pose proof (Z.pow_pos_nonneg 2 (Z.max 0 e0) ltac:(lia) ltac:(lia)). lia. }
      pose proof (Z.mul_div_le (fst (DT.scaled n d e0)) _ Hb0).
      apply Z.le_trans with (snd (DT.scaled n d e0)
                             * (fst (DT.scaled n d e0) / snd (DT.scaled n d e0)))%Z;
        [| assumption].
      rewrite (Z.mul_comm (2 ^ 53)). apply Z.mul_le_mono_nonneg_l; lia.
    - apply scaled_lower; assumption. }
  exists (fst (DT.scaled n d e) / snd (DT.scaled n d e))%Z,
         (fst (DT.scaled n d e) mod snd (DT.scaled n d e))%Z.
  simpl DT.fl_exp. simpl DT.fl_mant.
  change (n * 2 ^ Z.max 0 (- e))%Z with (fst (DT.scaled n d e)).
  change (d * 2 ^ Z.max 0 e)%Z with (snd (DT.scaled n d e)).
  split; [| reflexivity].
  split; [| split].
  - rewrite Z.mul_comm. apply Z.div_mod. lia.
  - apply Z.mod_pos_bound. exact Hb.
  - apply Z.div_le_lower_bound; [exact Hb |]. rewrite Z.mul_comm. exact Hlow.
Qed.

(** A positive quotient against an [int] below 2**34: the rounded
    comparison is the exact one. *)
Lemma true_divide_gt_exact (n g : Z) :
  (0 < n)%Z -> (g < 2 ^ 34)%Z ->
  DT.float_gt_int (DT.true_divide_pos n 1000000) g = (g * 1000000 <? n)%Z.
Proof.
  intros Hn Hg.
  destruct (true_divide_pos_spec n 1000000 Hn ltac:(lia))
    as (q & r & (Ha & Hr & Hq) & Hm).
  unfold DT.float_gt_int. cbv zeta in Ha, Hr, Hm.
  set (x := DT.true_divide_pos n 1000000) in *.
  destruct (scale_factors (DT.fl_exp x)) as (s & Hs & [[HU HV]|[HU HV]]);
    rewrite HU, HV in *; clear HU HV.
  - (* the exponent is negative or zero *)
    rewrite Z.mul_1_r in *.
    pose proof (pow2_ge_1 s Hs) as HU.
    change (2 ^ 52)%Z with 4503599627370496%Z in Hq.
    change (2 ^ 34)%Z with 17179869184%Z in Hg.
    destruct (Z.lt_trichotomy (g * 2 ^ s) q) as [Hlt|[Heq|Hgt]].
    + assert (Hmq : (q <= DT.fl_mant x)%Z) by (rewrite Hm; destruct (_ || _); lia).
      transitivity true; [apply Z.ltb_lt; lia | symmetry; apply Z.ltb_lt; nia].
    + destruct (Z.eq_dec r 0%Z) as [Hr0|Hr0].
      * assert (Hmq : DT.fl_mant x = q).
        { rewrite Hm, Hr0.
          replace (1000000 <? 2 * 0)%Z with false by reflexivity.
          replace (1000000 =? 2 * 0)%Z with false by reflexivity. reflexivity. }
        transitivity false; [apply Z.ltb_ge; lia | symmetry; apply Z.ltb_ge; nia].
      * assert (Hpos : (0 < g)%Z) by nia.
        assert (Hbig : (2 ^ 18 < 2 ^ s)%Z).
        { change (2 ^ 18)%Z with 262144%Z. nia. }
        pose proof (pow2_above s Hs Hbig) as H19.
        change (2 ^ 19)%Z with 524288%Z in H19.
        assert (Hrs : (r = (n - g * 1000000) * 2 ^ s)%Z) by nia.
        assert (Hj : (1 <= n - g * 1000000)%Z) by nia.
        assert (Hr2 : (1000000 < 2 * r)%Z) by nia.
        assert (Hmq : DT.fl_mant x = (q + 1)%Z).
        { rewrite Hm. apply Z.ltb_lt in Hr2. rewrite Hr2. reflexivity. }
        transitivity true; [apply Z.ltb_lt; lia | symmetry; apply Z.ltb_lt; lia].
    + assert (Hmq : (DT.fl_mant x <= q + 1)%Z) by (rewrite Hm; destruct (_ || _); lia).
      transitivity false; [apply Z.ltb_ge; lia | symmetry; apply Z.ltb_ge; nia].
  - (* the exponent is positive or zero *)
    rewrite !Z.mul_1_r in *.
    pose proof (pow2_ge_1 s Hs) as HV.
    change (2 ^ 52)%Z with 4503599627370496%Z in Hq.
    change (2 ^ 34)%Z with 17179869184%Z in Hg.
    assert (Hmq : (q <= DT.fl_mant x)%Z) by (rewrite Hm; destruct (_ || _); lia).
    transitivity true; [apply Z.ltb_lt; nia | symmetry; apply Z.ltb_lt; nia].
Qed.

(** The same from below, for the quotient of a negative [timedelta]. *)
Lemma true_divide_lt_exact (n h : Z) :
  (0 < n)%Z -> (h <= 2 ^ 34)%Z ->
  let x := DT.true_divide_pos n 1000000 in
  (DT.fl_mant x * 2 ^ Z.max 0 (DT.fl_exp x) <? h * 2 ^ Z.max 0 (- DT.fl_exp x))%Z
  = (n <? h * 1000000)%Z.
Proof.
  intros Hn Hh.
  destruct (true_divide_pos_spec n 1000000 Hn ltac:(lia))
    as (q & r & (Ha & Hr & Hq) & Hm).
  cbv zeta in *.
  set (x := DT.true_divide_pos n 1000000) in *.
  destruct (scale_factors (DT.fl_exp x)) as (s & Hs & [[HU HV]|[HU HV]]);
    rewrite HU, HV in *; clear HU HV.
  - rewrite Z.mul_1_r in *.
    pose proof (pow2_ge_1 s Hs) as HU.
    change (2 ^ 52)%Z with 4503599627370496%Z in Hq.
    change (2 ^ 34)%Z with 17179869184%Z in Hh.
    destruct (Z.lt_trichotomy (q + 1) (h * 2 ^ s)) as [Hlt|[Heq|Hgt]].
    + assert (Hmq : (DT.fl_mant x <= q + 1)%Z) by (rewrite Hm; destruct (_ || _); lia).
      transitivity true; [apply Z.ltb_lt; lia | symmetry; apply Z.ltb_lt; nia].
    + assert (Hpos : (0 < h)%Z) by nia.
      assert (Hbig : (2 ^ 18 < 2 ^ s)%Z).
      { change (2 ^ 18)%Z with 262144%Z. nia. }
      pose proof (pow2_above s Hs Hbig) as H19.
      change (2 ^ 19)%Z with 524288%Z in H19.
      assert (Hrs : (r = 1000000 - (h * 1000000 - n) * 2 ^ s)%Z) by nia.
      assert (Hj : (1 <= h * 1000000 - n)%Z) by nia.
      assert (Hr2 : (2 * r < 1000000)%Z) by nia.
      assert (Hmq : DT.fl_mant x = q).
      { rewrite Hm.
        replace (1000000 <? 2 * r)%Z with false by (symmetry; apply Z.ltb_ge; lia).
        replace (1000000 =? 2 * r)%Z with false by (symmetry; apply Z.eqb_neq; lia).
        reflexivity. }
      transitivity true; [apply Z.ltb_lt; lia | symmetry; apply Z.ltb_lt; lia].
    + assert (Hmq : (q <= DT.fl_mant x)%Z) by (rewrite Hm; destruct (_ || _); lia).
      transitivity false; [apply Z.ltb_ge; lia | symmetry; apply Z.ltb_ge; nia].
  - rewrite !Z.mul_1_r in *.
    pose proof (pow2_ge_1 s Hs) as HV.
    change (2 ^ 52)%Z with 4503599627370496%Z in Hq.
    change (2 ^ 34)%Z with 17179869184%Z in Hh.
    assert (Hmq : (q <= DT.fl_mant x)%Z) by (rewrite Hm; destruct (_ || _); lia).
    transitivity false; [apply Z.ltb_ge; nia | symmetry; apply Z.ltb_ge; nia].
Qed.

(** For a threshold from -2**34 up to, not including, 2**34 the float
    comparison [delta.total_seconds() > gap_seconds] is the comparison of
    the microseconds. *)
Lemma total_seconds_gt_exact (delta gap_seconds : Z) :
  (- 2 ^ 34 <= gap_seconds < 2 ^ 34)%Z ->
  DT.total_seconds_gt delta gap_seconds = (gap_seconds * 1000000 <? delta)%Z.
Proof.
  intros [Hlo Hhi]. unfold DT.total_seconds_gt, DT.total_seconds.
  destruct delta as [|p|p].
  - unfold DT.float_gt_int. simpl. rewrite !Z.mul_1_r.
    destruct (Z.ltb_spec gap_seconds 0), (Z.ltb_spec (gap_seconds * 1000000) 0);
      try reflexivity; lia.
  - apply true_divide_gt_exact; lia.
  - pose proof (true_divide_lt_exact (- Z.neg p) (- gap_seconds)
                  ltac:(lia) ltac:(lia)) as H.
    cbv zeta in H.
    set (x := DT.true_divide_pos (- Z.neg p) 1000000) in *.
    unfold DT.float_gt_int. cbn [DT.fl_mant DT.fl_exp].
    transitivity (DT.fl_mant x * 2 ^ Z.max 0 (DT.fl_exp x)
                  <? - gap_seconds * 2 ^ Z.max 0 (- DT.fl_exp x))%Z.
    + destruct (Z.ltb_spec (gap_seconds * 2 ^ Z.max 0 (- DT.fl_exp x))
                  (- DT.fl_mant x * 2 ^ Z.max 0 (DT.fl_exp x))),
               (Z.ltb_spec (DT.fl_mant x * 2 ^ Z.max 0 (DT.fl_exp x))
                  (- gap_seconds * 2 ^ Z.max 0 (- DT.fl_exp x)));
        try reflexivity; lia.
    + rewrite H.
      destruct (Z.ltb_spec (- Z.neg p) (- gap_seconds * 1000000)),
               (Z.ltb_spec (gap_seconds * 1000000) (Z.neg p));
        try reflexivity; lia.
Qed.

(** A threshold the seconds exceed is exceeded for every smaller one. *)
Lemma total_seconds_gt_mono (delta gap_seconds gap_seconds' : Z) :
  (gap_seconds <= gap_seconds')%Z ->
  DT.total_seconds_gt delta gap_seconds' = true ->
  DT.total_seconds_gt delta gap_seconds = true.
Proof.
  unfold DT.total_seconds_gt, DT.float_gt_int. intros Hle Hgt.
  apply Z.ltb_lt in Hgt. apply Z.ltb_lt.
  pose proof (Z.pow_pos_nonneg 2 (Z.max 0 (- DT.fl_exp (DT.total_seconds delta)))
                ltac:(lia) ltac:(lia)).
  nia.
Qed.

Section Segmenter.

Variable fromisoformat : string -> option datetime.

(** [boundary] in terms of the two entries it compares. *)
Lemma boundary_pair (seq : list TranscriptEntry) (gap_seconds : Z) (i : nat)
    (prev cur : TranscriptEntry) :
  seq !! (i - 1) = Some prev -> seq !! i = Some cur ->
  boundary fromisoformat seq gap_seconds i =
  if negb (bool_decide (entry_sessionId prev = entry_sessionId cur)) then Ok true
  else
    match timestamp_dt fromisoformat (entry_timestamp prev),
          timestamp_dt fromisoformat (entry_timestamp cur) with
    | Some p, Some c =>
        DT.sub c p ≫= fun delta => Ok (DT.total_seconds_gt delta gap_seconds)
    | _, _ => Ok false
    end.
Proof.
  intros Hp Hc. unfold boundary, get_dt.
  apply getitem_Ok in Hp, Hc. rewrite Hp, Hc. reflexivity.
Qed.

Lemma boundary_false_session (seq : list TranscriptEntry) (gap_seconds : Z)
    (k : nat) (prev cur : TranscriptEntry) :
  seq !! k = Some prev -> seq !! S k = Some cur ->
  boundary fromisoformat seq gap_seconds (S k) = Ok false ->
  entry_sessionId prev = entry_sessionId cur.
Proof.
  intros Hp Hc Hb.
  rewrite (boundary_pair seq gap_seconds (S k) prev cur) in Hb;
    [| replace (S k - 1) with k by lia; exact Hp | exact Hc].
  destruct (bool_decide (entry_sessionId prev = entry_sessionId cur)) eqn:Hd.
  - apply bool_decide_eq_true in Hd. exact Hd.
  - simpl in Hb. discriminate Hb.
Qed.

Lemma loop_step (messages seq : list TranscriptEntry) (gap_seconds : Z) (k : nat)
    (st st' : SpanDraft * list Span) :
  length seq <= length messages ->
  S k < length seq ->
  loop_inv fromisoformat messages seq gap_seconds k st ->
  loop_body fromisoformat messages seq gap_seconds st (S k) = Ok st' ->
  loop_inv fromisoformat messages seq gap_seconds (S k) st'.
Proof.
  intros Hlen Hk [Hdraft Hspans Hbefore Hcover Hends Hstarts] Hbody.
  destruct st as [cur spans]. simpl in *.
  destruct (lookup_lt_is_Some_2 seq k ltac:(lia)) as [prev Hprev].
  destruct (lookup_lt_is_Some_2 seq (S k) Hk) as [ms Hms].
  destruct (lookup_lt_is_Some_2 messages (S k) ltac:(lia)) as [mm Hmm].
  pose proof (dk_start _ _ _ _ Hdraft) as Hstart.
  assert (Hold : forall s, s ∈ spans -> start_index s <= k).
  { intros s Hs. pose proof (ok_bounds _ _ _ (Hspans s Hs)).
    pose proof (Hbefore s Hs). lia. }
  unfold loop_body in Hbody.
  apply bind_Ok in Hbody as (b & Hb & Hbody).
  destruct b.
  - (* a boundary: the draft is closed and a new one opened *)
    destruct (draft_open messages seq (S k) ms mm Hms Hmm) as (cur' & Hopen & Hs' & Hd').
    simpl in Hopen.
    destruct (start_new_span seq (S k)) as [c0|e] eqn:Hnew; [|discriminate Hopen].
    simpl in Hopen, Hbody. rewrite Hopen in Hbody. simpl in Hbody.
    inversion Hbody; subst st'; clear Hbody. simpl.
    destruct (draft_finalize messages seq k cur Hdraft ltac:(lia)) as [Hfin Hrange].
    constructor; simpl.
    + exact Hd'.
    + intros s Hs. apply elem_of_app in Hs as [Hs|Hs]; [apply Hspans, Hs |].
      apply list_elem_of_singleton in Hs. subst s. exact Hfin.
    + intros s Hs. rewrite Hs'. apply elem_of_app in Hs as [Hs|Hs].
      * pose proof (Hbefore s Hs). lia.
      * apply list_elem_of_singleton in Hs. subst s. simpl.
        rewrite (dk_end _ _ _ _ Hdraft). lia.
    + rewrite map_app, concat_app. simpl. rewrite app_nil_r, Hrange.
      unfold draft_range at 2. rewrite Hs'.
      replace (S (S k) - S k) with 1 by lia. simpl.
      rewrite Hcover. symmetry. apply (seq_S (S k) 0).
    + rewrite map_app. simpl. apply NoDup_app. split; [exact Hends |].
      split; [|apply NoDup_singleton].
      intros x Hx Hx'. apply list_elem_of_singleton in Hx'. subst x.
      apply list_elem_of_fmap in Hx as (s & Hse & Hs).
      pose proof (Hbefore s Hs). rewrite (dk_end _ _ _ _ Hdraft) in Hse. lia.
    + intros i Hi. rewrite Hs'.
      destruct (decide (i = S k)) as [->|Hne].
      * split; [intros _; left; reflexivity | intros _; exact Hb].
      * rewrite (Hstarts i ltac:(lia)). split.
        -- intros [Hc|(s & Hs & Hsi)]; right.
           ++ exists (finalize_current_span cur). split; [|exact Hc].
              apply elem_of_app. right. apply list_elem_of_singleton. reflexivity.
           ++ exists s. split; [|exact Hsi]. apply elem_of_app. left. exact Hs.
        -- intros [Hc|(s & Hs & Hsi)]; [lia |].
           apply elem_of_app in Hs as [Hs|Hs].
           ++ right. exists s. split; assumption.
           ++ apply list_elem_of_singleton in Hs. subst s. left. exact Hsi.
  - (* no boundary: the position joins the open draft *)
    pose proof (boundary_false_session seq gap_seconds k prev ms Hprev Hms Hb) as Hsess.
    assert (Hnew : entry_sessionId <$> seq !! S k = Some (d_session_id cur)).
    { rewrite Hms. simpl. rewrite <- Hsess.
      pose proof (dk_session _ _ _ _ Hdraft k ltac:(lia)) as Hsk.
      rewrite Hprev in Hsk. exact Hsk. }
    destruct (draft_extend messages seq k cur mm Hdraft Hmm Hnew) as (cur' & Hf & Hs' & Hd').
    rewrite Hf in Hbody. simpl in Hbody.
    inversion Hbody; subst st'; clear Hbody. simpl.
    constructor; simpl.
    + exact Hd'.
    + exact Hspans.
    + intros s Hs. rewrite Hs'. apply Hbefore, Hs.
    + assert (draft_range cur' (S k) = draft_range cur k ++ [S k]) as ->.
      { rewrite <- (draft_range_S cur k Hstart). unfold draft_range.
        rewrite Hs'. reflexivity. }
      rewrite app_assoc, Hcover. symmetry. apply (seq_S (S k) 0).
    + exact Hends.
    + intros i Hi. rewrite Hs'.
      destruct (decide (i = S k)) as [->|Hne].
      * split; [intros Ht; rewrite Ht in Hb; discriminate Hb |].
        intros [Hc|(s & Hs & Hsi)]; [lia |].
        pose proof (Hold s Hs). lia.
      * apply Hstarts. lia.
Qed.

Lemma non_summary_length (messages : list TranscriptEntry) :
  length (non_summary messages) <= length messages.
Proof. unfold non_summary. apply List.filter_length_le. Qed.

(** [group_messages_into_spans] on an input with a non-summary entry. *)
Lemma group_unfold (messages : list TranscriptEntry) (gap_seconds : Z) :
  non_summary messages <> [] ->
  group_messages_into_spans fromisoformat messages gap_seconds =
  (start_new_span (non_summary messages) 0
     ≫= fun c => fold_message messages c 0)
    ≫= fun cur =>
         foldM (loop_body fromisoformat messages (non_summary messages) gap_seconds)
           (cur, []) (List.seq 1 (length (non_summary messages) - 1))
           ≫= fun st => Ok (snd st ++ [finalize_current_span (fst st)]).
Proof.
  intros Hne. unfold group_messages_into_spans.
  destruct messages as [|m0 messages]; [contradiction Hne; reflexivity |].
  fold (non_summary (m0 :: messages)).
  destruct (non_summary (m0 :: messages)) as [|s0 seq] eqn:Hseq; [contradiction Hne; reflexivity |].
  destruct (start_new_span (s0 :: seq) 0) as [c|e]; simpl; [|reflexivity].
  destruct (fold_message (m0 :: messages) c 0) as [c'|e]; simpl; reflexivity.
Qed.

Lemma group_no_entries (messages : list TranscriptEntry) (gap_seconds : Z) :
  non_summary messages = [] ->
  group_messages_into_spans fromisoformat messages gap_seconds = Ok [].
Proof.
  intros Hnil. unfold group_messages_into_spans.
  destruct messages as [|m0 messages]; [reflexivity |].
  fold (non_summary (m0 :: messages)). rewrite Hnil. reflexivity.
Qed.

(** The state before the loop. *)
Lemma loop_init (messages : list TranscriptEntry) (gap_seconds : Z) :
  non_summary messages <> [] ->
  exists cur,
    (start_new_span (non_summary messages) 0
       ≫= fun c => fold_message messages c 0) = Ok cur
    /\ loop_inv fromisoformat messages (non_summary messages) gap_seconds 0 (cur, []).
Proof.
  intros Hne. pose proof (non_summary_length messages) as Hlen.
  assert (H0 : 0 < length (non_summary messages)).
  { destruct (non_summary messages); [contradiction | simpl; lia]. }
  destruct (lookup_lt_is_Some_2 (non_summary messages) 0 H0) as [ms Hms].
  destruct (lookup_lt_is_Some_2 messages 0 ltac:(lia)) as [mm Hmm].
  destruct (draft_open messages (non_summary messages) 0 ms mm Hms Hmm)
    as (cur & Hopen & Hs & Hd).
  exists cur. split; [exact Hopen |].
  constructor; simpl.
  - exact Hd.
  - intros s Hs'. inversion Hs'.
  - intros s Hs'. inversion Hs'.
  - unfold draft_range. rewrite Hs. reflexivity.
  - constructor.
  - intros i Hi. lia.
Qed.

Lemma loop_body_returns (messages seq : list TranscriptEntry) (gap_seconds : Z)
    (k : nat) (st : SpanDraft * list Span) :
  length seq <= length messages ->
  S k < length seq ->
  loop_inv fromisoformat messages seq gap_seconds k st ->
  is_Ok (boundary fromisoformat seq gap_seconds (S k)) ->
  is_Ok (loop_body fromisoformat messages seq gap_seconds st (S k)).
Proof.
  intros Hlen Hk Hinv [b Hb]. destruct st as [cur spans].
  pose proof (li_draft _ _ _ _ _ _ Hinv) as Hdraft. simpl in Hdraft.
  destruct (lookup_lt_is_Some_2 seq k ltac:(lia)) as [prev Hprev].
  destruct (lookup_lt_is_Some_2 seq (S k) Hk) as [ms Hms].
  destruct (lookup_lt_is_Some_2 messages (S k) ltac:(lia)) as [mm Hmm].
  unfold loop_body. rewrite Hb. simpl. destruct b.
  - destruct (draft_open messages seq (S k) ms mm Hms Hmm) as (cur' & Hopen & _).
    simpl in Hopen.
    destruct (start_new_span seq (S k)) as [c0|e]; [|discriminate Hopen].
    simpl in *. rewrite Hopen. simpl. eexists. reflexivity.
  - pose proof (boundary_false_session seq gap_seconds k prev ms Hprev Hms Hb) as Hsess.
    assert (Hnew : entry_sessionId <$> seq !! S k = Some (d_session_id cur)).
    { rewrite Hms. simpl. rewrite <- Hsess.
      pose proof (dk_session _ _ _ _ Hdraft k ltac:(pose proof (dk_start _ _ _ _ Hdraft); lia)) as Hsk.
      rewrite Hprev in Hsk. exact Hsk. }
    destruct (draft_extend messages seq k cur mm Hdraft Hmm Hnew) as (cur' & Hf & _).
    rewrite Hf. simpl. eexists. reflexivity.
Qed.

(** The spans of a closed loop state. *)
Lemma loop_close (messages : list TranscriptEntry) (gap_seconds : Z)
    (st : SpanDraft * list Span) :
  non_summary messages <> [] ->
  loop_inv fromisoformat messages (non_summary messages) gap_seconds
    (length (non_summary messages) - 1) st ->
  spans_ok fromisoformat messages gap_seconds
    (snd st ++ [finalize_current_span (fst st)]).
Proof.
  intros Hne [Hdraft Hspans Hbefore Hcover Hends Hstarts].
  destruct st as [cur spans]. simpl in *.
  assert (H0 : 0 < length (non_summary messages)).
  { destruct (non_summary messages); [contradiction | simpl; lia]. }
  destruct (draft_finalize messages _ _ cur Hdraft ltac:(lia)) as [Hfin Hrange].
  constructor.
  - intros s Hs. apply elem_of_app in Hs as [Hs|Hs]; [apply Hspans, Hs |].
    apply list_elem_of_singleton in Hs. subst s. exact Hfin.
  - rewrite map_app, concat_app. simpl. rewrite app_nil_r, Hrange, Hcover.
    destruct (length (non_summary messages)) as [|n]; [lia |].
    simpl. rewrite Nat.sub_0_r. reflexivity.
  - rewrite map_app. simpl. apply NoDup_app. split; [exact Hends |].
    split; [|apply NoDup_singleton].
    intros x Hx Hx'. apply list_elem_of_singleton in Hx'. subst x.
    apply list_elem_of_fmap in Hx as (s & Hse & Hs).
    pose proof (Hbefore s Hs). pose proof (dk_start _ _ _ _ Hdraft).
    rewrite (dk_end _ _ _ _ Hdraft) in Hse. lia.
  - intros i Hi. rewrite (Hstarts i ltac:(lia)). split.
    + intros [Hc|(s & Hs & Hsi)].
      * exists (finalize_current_span cur). split; [|exact Hc].
        apply elem_of_app. right. apply list_elem_of_singleton. reflexivity.
      * exists s. split; [|exact Hsi]. apply elem_of_app. left. exact Hs.
    + intros (s & Hs & Hsi). apply elem_of_app in Hs as [Hs|Hs].
      * right. exists s. split; assumption.
      * apply list_elem_of_singleton in Hs. subst s. left. exact Hsi.
Qed.

(** Every list of spans the segmenter returns satisfies [spans_ok]. *)
Lemma group_spans_ok (messages : list TranscriptEntry) (gap_seconds : Z)
    (spans : list Span) :
  non_summary messages <> [] ->
  group_messages_into_spans fromisoformat messages gap_seconds = Ok spans ->
  spans_ok fromisoformat messages gap_seconds spans.
Proof.
  intros Hne Hrun. rewrite (group_unfold _ _ Hne) in Hrun.
  destruct (loop_init messages gap_seconds Hne) as (cur & Hopen & Hinv0).
  rewrite Hopen in Hrun. simpl in Hrun.
  apply bind_Ok in Hrun as (st & Hloop & Hret).
  inversion Hret; subst spans; clear Hret.
  apply loop_close; [exact Hne |].
  pose proof (non_summary_length messages) as Hlen.
  eapply (foldM_range_inv _
            (loop_inv fromisoformat messages (non_summary messages) gap_seconds));
    [exact Hinv0 | | exact Hloop].
  intros j st1 st2 Hj Hinv Hbody.
  apply (loop_step messages (non_summary messages) gap_seconds j st1 st2);
    [exact Hlen | lia | exact Hinv | exact Hbody].
Qed.

(** The segmenter returns whenever every comparison of adjacent entries
    does. *)
Lemma group_returns (messages : list TranscriptEntry) (gap_seconds : Z) :
  (forall i, 1 <= i < length (non_summary messages) ->
     is_Ok (boundary fromisoformat (non_summary messages) gap_seconds i)) ->
  is_Ok (group_messages_into_spans fromisoformat messages gap_seconds).
Proof.
  intros Hb.
  destruct (non_summary messages) as [|s0 seq0] eqn:Hseq.
  { exists []. apply group_no_entries. exact Hseq. }
  assert (Hne : non_summary messages <> []) by (rewrite Hseq; discriminate).
  rewrite <- Hseq in Hb.
  rewrite (group_unfold _ _ Hne).
  destruct (loop_init messages gap_seconds Hne) as (cur & Hopen & Hinv0).
  rewrite Hopen. simpl.
  pose proof (non_summary_length messages) as Hlen.
  destruct (foldM_range_total
              (loop_body fromisoformat messages (non_summary messages) gap_seconds)
              (loop_inv fromisoformat messages (non_summary messages) gap_seconds)
              (length (non_summary messages) - 1) (cur, []) Hinv0)
    as (st & Hloop & _).
  { intros j st1 Hj Hinv.
    destruct (loop_body_returns messages (non_summary messages) gap_seconds j st1)
      as [st2 Hst2]; [exact Hlen | lia | exact Hinv | apply Hb; lia |].
    exists st2. split; [exact Hst2 |].
    apply (loop_step messages (non_summary messages) gap_seconds j st1 st2);
      [exact Hlen | lia | exact Hinv | exact Hst2]. }
  rewrite Hloop. simpl. eexists. reflexivity.
Qed.

(** ** Span ids *)

Lemma append_nil_l (k : string) : EmptyString +:+ k = k.
Proof. reflexivity. Qed.

Lemma append_String (c : ascii) (a k : string) :
  String c a +:+ k = String c (a +:+ k).
Proof. reflexivity. Qed.

Lemma append_cons_assoc (a : string) (c : ascii) (s t : string) :
  a +:+ String c (s +:+ t) = (a +:+ String c s) +:+ t.
Proof.
  induction a as [|x a IH]; [reflexivity |].
  rewrite !append_String, IH. reflexivity.
Qed.

Lemma digits_only_dash (y d : string) :
  digits_only (y +:+ String "-" d) = false.
Proof.
  induction y as [|c y IH]; [reflexivity |].
  rewrite append_String. simpl. rewrite IH. apply andb_false_r.
Qed.

(** The digits after the last dash of a string are determined by it. *)
Lemma dash_suffix_inj (x y d1 d2 : string) :
  digits_only d1 = true -> digits_only d2 = true ->
  x +:+ String "-" d1 = y +:+ String "-" d2 -> d1 = d2.
Proof.
  intros H1 H2. revert y.
  induction x as [|c x IH]; intros [|c' y] Heq;
    rewrite ?append_nil_l, ?append_String in Heq.
  - inversion Heq. reflexivity.
  - inversion Heq as [[Hc Hd]]. subst d1.
    rewrite digits_only_dash in H1. discriminate H1.
  - inversion Heq as [[Hc Hd]]. subst d2.
    rewrite digits_only_dash in H2. discriminate H2.
  - inversion Heq. apply (IH y). assumption.
Qed.

Lemma pretty_N_char_digit (x : N) (s : string) :
  digits_only s = true -> digits_only (String (pretty_N_char x) s) = true.
Proof.
  intros Hs. unfold pretty_N_char.
  repeat case_match; simpl; exact Hs.
Qed.

Lemma pretty_N_go_digits (x : N) (s : string) :
  digits_only s = true -> digits_only (pretty_N_go x s) = true.
Proof.
  revert s. induction (N.lt_wf_0 x) as [x _ IH]. intros s Hs.
  destruct (decide (x = 0%N)) as [->|Hx].
  - rewrite pretty_N_go_0. exact Hs.
  - rewrite pretty_N_go_step by lia.
    apply IH; [apply N.div_lt; lia | apply pretty_N_char_digit, Hs].
Qed.

Lemma str_int_digits (n : nat) : digits_only (str_int n) = true.
Proof.
  unfold str_int, pretty, pretty_nat, pretty, pretty_N.
  destruct (decide (N.of_nat n = 0%N)); [reflexivity |].
  apply pretty_N_go_digits. reflexivity.
Qed.

Lemma str_int_inj (n m : nat) : str_int n = str_int m -> n = m.
Proof. unfold str_int. apply pretty_nat_inj. Qed.

(** An id determines the end index it was built from. *)
Lemma span_id_end_inj (sid1 sid2 : option string) (s1 e1 s2 e2 : nat) :
  span_id sid1 s1 e1 = span_id sid2 s2 e2 -> e1 = e2.
Proof.
  unfold span_id. intros Heq.
  change ("-" +:+ ?k) with (String "-" k) in Heq.
  rewrite !append_cons_assoc in Heq.
  apply str_int_inj.
  eapply dash_suffix_inj; [apply str_int_digits | apply str_int_digits |].
  exact Heq.
Qed.

(** ** Membership *)

Lemma span_range_iff (s : Span) (i : nat) :
  i ∈ span_range s <-> start_index s <= i <= end_index s.
Proof. unfold span_range. rewrite elem_of_seq. lia. Qed.

Lemma member_iff_range (messages seq : list TranscriptEntry) (s : Span) (i : nat) :
  span_ok messages seq s ->
  (i ∈ message_indices s <-> start_index s <= i <= end_index s).
Proof.
  intros Hok. rewrite (ok_indices _ _ _ Hok), elem_of_cons, span_range_iff.
  pose proof (ok_bounds _ _ _ Hok). lia.
Qed.

Lemma elem_of_concat_map {A B} (f : A -> list B) (l : list A) (x : B) :
  x ∈ concat (map f l) <-> exists a, a ∈ l /\ x ∈ f a.
Proof.
  induction l as [|a l IH]; simpl.
  - split; [intros H; inversion H | intros (a & H & _); inversion H].
  - rewrite elem_of_app, IH. split.
    + intros [H|(b & Hb & Hx)].
      * exists a. split; [apply list_elem_of_here | exact H].
      * exists b. split; [apply list_elem_of_further, Hb | exact Hx].
    + intros (b & Hb & Hx). apply elem_of_cons in Hb as [->|Hb].
      * left. exact Hx.
      * right. exists b. split; assumption.
Qed.

(** In a concatenation without repetition, an element belongs to one
    block only. *)
Lemma concat_block_unique {A B} (f : A -> list B) (l : list A) (a b : A) (x : B) :
  NoDup (concat (map f l)) -> a ∈ l -> b ∈ l -> x ∈ f a -> x ∈ f b ->
  f a = f b.
Proof.
  intros Hnd Ha Hb Hxa Hxb.
  induction l as [|c l IH]; [inversion Ha |].
  simpl in Hnd. apply NoDup_app in Hnd as (Hc & Hdisj & Hrest).
  apply elem_of_cons in Ha as [->|Ha]; apply elem_of_cons in Hb as [->|Hb].
  - reflexivity.
  - exfalso. apply (Hdisj x Hxa). apply elem_of_concat_map. exists b. split; assumption.
  - exfalso. apply (Hdisj x Hxb). apply elem_of_concat_map. exists a. split; assumption.
  - apply IH; assumption.
Qed.

Lemma NoDup_map_inj_on {A B} (g : A -> B) (l : list A) (a b : A) :
  NoDup (map g l) -> a ∈ l -> b ∈ l -> g a = g b -> a = b.
Proof.
  intros Hnd Ha Hb Heq.
  induction l as [|c l IH]; [inversion Ha |].
  simpl in Hnd. apply NoDup_cons in Hnd as [Hc Hrest].
  apply elem_of_cons in Ha as [->|Ha]; apply elem_of_cons in Hb as [->|Hb].
  - reflexivity.
  - exfalso. apply Hc. rewrite Heq. apply (list_elem_of_fmap_2 g). exact Hb.
  - exfalso. apply Hc. rewrite <- Heq. apply (list_elem_of_fmap_2 g). exact Ha.
  - apply IH; assumption.
Qed.

(** Every position of [seq] lies in a span, and in one only. *)
Lemma position_in_span (messages : list TranscriptEntry) (gap_seconds : Z)
    (spans : list Span) (i : nat) :
  spans_ok fromisoformat messages gap_seconds spans ->
  i < length (non_summary messages) ->
  exists s, s ∈ spans /\ start_index s <= i <= end_index s.
Proof.
  intros Hok Hi.
  assert (Hin : i ∈ concat (map span_range spans)).
  { rewrite (so_cover _ _ _ _ Hok). apply elem_of_seq. lia. }
  apply elem_of_concat_map in Hin as (s & Hs & Hr).
  exists s. split; [exact Hs | apply span_range_iff, Hr].
Qed.

Lemma span_unique (messages : list TranscriptEntry) (gap_seconds : Z)
    (spans : list Span) (s1 s2 : Span) (i : nat) :
  spans_ok fromisoformat messages gap_seconds spans ->
  s1 ∈ spans -> s2 ∈ spans ->
  start_index s1 <= i <= end_index s1 ->
  start_index s2 <= i <= end_index s2 ->
  s1 = s2.
Proof.
  intros Hok H1 H2 Hi1 Hi2.
  assert (Hnd : NoDup (concat (map span_range spans))).
  { rewrite (so_cover _ _ _ _ Hok). apply NoDup_seq. }
  assert (Hr : span_range s1 = span_range s2).
  { apply (concat_block_unique span_range spans s1 s2 i Hnd H1 H2);
      apply span_range_iff; assumption. }
  apply (NoDup_map_inj_on end_index spans); [exact (so_ends _ _ _ _ Hok) | exact H1 | exact H2 |].
  assert (He1 : end_index s1 ∈ span_range s2).
  { rewrite <- Hr. apply span_range_iff. lia. }
  assert (He2 : end_index s2 ∈ span_range s1).
  { rewrite Hr. apply span_range_iff. lia. }
  apply span_range_iff in He1, He2. lia.
Qed.

(** ** Boundaries *)

Lemma sub_returns (a b : datetime) : aware a = aware b -> is_Ok (DT.sub a b).
Proof.
  unfold aware, DT.sub.
  destruct (dt_tzinfo a), (dt_tzinfo b); intros H; try discriminate H;
    eexists; reflexivity.
Qed.

Lemma boundary_returns (seq : list TranscriptEntry) (gap_seconds : Z) (i : nat) :
  timestamps_agree fromisoformat seq ->
  1 <= i < length seq ->
  is_Ok (boundary fromisoformat seq gap_seconds i).
Proof.
  intros Hagree Hi.
  destruct (lookup_lt_is_Some_2 seq (i - 1) ltac:(lia)) as [prev Hprev].
  destruct (lookup_lt_is_Some_2 seq i ltac:(lia)) as [cur Hcur].
  rewrite (boundary_pair seq gap_seconds i prev cur Hprev Hcur).
  destruct (negb _); [eexists; reflexivity |].
  destruct (timestamp_dt fromisoformat (entry_timestamp prev)) as [p|] eqn:Hp;
    [|eexists; reflexivity].
  destruct (timestamp_dt fromisoformat (entry_timestamp cur)) as [c|] eqn:Hc;
    [|eexists; reflexivity].
  destruct (sub_returns c p) as [delta Hd].
  { apply (Hagree cur prev c p);
      [eapply list_elem_of_lookup_2; exact Hcur
      | eapply list_elem_of_lookup_2; exact Hprev | exact Hc | exact Hp]. }
  rewrite Hd. eexists. reflexivity.
Qed.

(** [boundary] is true exactly on a session change or when the seconds
    between two parseable timestamps, as a float, exceed the threshold. *)
Lemma boundary_true_float (seq : list TranscriptEntry) (gap_seconds : Z) (i : nat)
    (prev cur : TranscriptEntry) :
  seq !! i = Some prev -> seq !! S i = Some cur ->
  (boundary fromisoformat seq gap_seconds (S i) = Ok true <->
   entry_sessionId prev <> entry_sessionId cur
   \/ exists dp dc delta,
        timestamp_dt fromisoformat (entry_timestamp prev) = Some dp
        /\ timestamp_dt fromisoformat (entry_timestamp cur) = Some dc
        /\ DT.sub dc dp = Ok delta
        /\ DT.total_seconds_gt delta gap_seconds = true).
Proof.
  intros Hprev Hcur.
  rewrite (boundary_pair seq gap_seconds (S i) prev cur);
    [| replace (S i - 1) with i by lia; exact Hprev | exact Hcur].
  destruct (bool_decide (entry_sessionId prev = entry_sessionId cur)) eqn:Hd; simpl.
  - apply bool_decide_eq_true in Hd.
    destruct (timestamp_dt fromisoformat (entry_timestamp prev)) as [p|].
    2:{ split; [discriminate |]. intros [Hne|(dp & dc & delta & H & _)];
          [contradiction | discriminate H]. }
    destruct (timestamp_dt fromisoformat (entry_timestamp cur)) as [c|].
    2:{ split; [discriminate |]. intros [Hne|(dp & dc & delta & _ & H & _)];
          [contradiction | discriminate H]. }
    destruct (DT.sub c p) as [delta|e] eqn:Hsub; simpl.
    + split.
      * intros H. inversion H as [Hgt].
        right. exists p, c, delta. rewrite Hgt. repeat split; exact Hsub.
      * intros [Hne|(dp & dc & delta' & Hp & Hc & Hs & Hgt)]; [contradiction |].
        inversion Hp; inversion Hc; subst dp dc.
        rewrite Hsub in Hs. inversion Hs; subst delta'.
        rewrite Hgt. reflexivity.
    + split; [discriminate |].
      intros [Hne|(dp & dc & delta' & Hp & Hc & Hs & _)]; [contradiction |].
      inversion Hp; inversion Hc; subst dp dc.
      rewrite Hsub in Hs. discriminate Hs.
  - apply bool_decide_eq_false in Hd. split; [intros _; left; exact Hd | reflexivity].
Qed.

(** For a threshold below 2**34 in size, [boundary] is true exactly on a
    session change or an exceeded gap. *)
Lemma boundary_true_iff (seq : list TranscriptEntry) (gap_seconds : Z) (i : nat)
    (prev cur : TranscriptEntry) :
  (- 2 ^ 34 <= gap_seconds < 2 ^ 34)%Z ->
  seq !! i = Some prev -> seq !! S i = Some cur ->
  (boundary fromisoformat seq gap_seconds (S i) = Ok true <->
   entry_sessionId prev <> entry_sessionId cur
   \/ gap_exceeded fromisoformat gap_seconds prev cur).
Proof.
  intros Hgap Hprev Hcur.
  rewrite (boundary_true_float seq gap_seconds i prev cur Hprev Hcur).
  unfold gap_exceeded.
  split; (intros [Hne|(dp & dc & delta & Hp & Hc & Hs & Hgt)]; [left; exact Hne |]);
    right; exists dp, dc, delta; repeat split; try assumption.
  - rewrite (total_seconds_gt_exact _ _ Hgap) in Hgt. apply Z.ltb_lt. exact Hgt.
  - rewrite (total_seconds_gt_exact _ _ Hgap). apply Z.ltb_lt. exact Hgt.
Qed.

(** C4 (amended). For a threshold [gap_seconds] from -2**34 up to, not
    including, 2**34: between two adjacent non-summary entries a new span
    starts if and only if their sessionIds differ or both timestamps parse
    and the time between them is more than [gap_seconds]; otherwise the
    two entries are members of one span.  In particular a same-session
    pair exactly [gap_seconds] apart stays together, and so does a
    same-session pair with an unparseable timestamp.  The segmenter
    returns on every input whose parseable timestamps agree on carrying an
    offset. *)
Theorem span_starts_iff_session_or_gap (messages : list TranscriptEntry)
    (gap_seconds : Z) :
  (timestamps_agree fromisoformat (non_summary messages) ->
   is_Ok (group_messages_into_spans fromisoformat messages gap_seconds))
  /\ forall spans i prev cur,
      (- 2 ^ 34 <= gap_seconds < 2 ^ 34)%Z ->
      group_messages_into_spans fromisoformat messages gap_seconds = Ok spans ->
      non_summary messages !! i = Some prev ->
      non_summary messages !! S i = Some cur ->
      (starts_at spans (S i) <->
         entry_sessionId prev <> entry_sessionId cur
         \/ gap_exceeded fromisoformat gap_seconds prev cur)
      /\ (together spans i (S i) <-> ~ starts_at spans (S i))
      /\ (entry_sessionId prev = entry_sessionId cur ->
          forall dp dc,
            timestamp_dt fromisoformat (entry_timestamp prev) = Some dp ->
            timestamp_dt fromisoformat (entry_timestamp cur) = Some dc ->
            DT.sub dc dp = Ok (gap_seconds * 1000000)%Z ->
            together spans i (S i))
      /\ (entry_sessionId prev = entry_sessionId cur ->
          timestamp_dt fromisoformat (entry_timestamp prev) = None
          \/ timestamp_dt fromisoformat (entry_timestamp cur) = None ->
          together spans i (S i)).
Proof.
  split.
  { intros Hagree. apply group_returns. intros i Hi.
    apply boundary_returns; assumption. }
  intros spans i prev cur Hgap Hrun Hprev Hcur.
  assert (Hne : non_summary messages <> []).
  { intros Hnil. rewrite Hnil in Hprev. discriminate Hprev. }
  pose proof (group_spans_ok messages gap_seconds spans Hne Hrun) as Hok.
  pose proof (lookup_lt_Some _ _ _ Hcur) as Hlen.
  assert (Hstart : starts_at spans (S i) <->
                   entry_sessionId prev <> entry_sessionId cur
                   \/ gap_exceeded fromisoformat gap_seconds prev cur).
  { unfold starts_at. rewrite <- (so_starts _ _ _ _ Hok (S i) ltac:(lia)).
    apply boundary_true_iff; assumption. }
  assert (Htog : together spans i (S i) <-> ~ starts_at spans (S i)).
  { unfold together, starts_at. split.
    - intros (s & Hs & Hi & HSi) (s' & Hs' & Hst).
      pose proof (so_spans _ _ _ _ Hok s Hs) as Hsok.
      pose proof (so_spans _ _ _ _ Hok s' Hs') as Hsok'.
      apply (member_iff_range _ _ _ _ Hsok) in Hi, HSi.
      pose proof (ok_bounds _ _ _ Hsok').
      assert (s = s') as ->.
      { apply (span_unique messages gap_seconds spans s s' (S i) Hok Hs Hs'); lia. }
      lia.
    - intros Hno.
      destruct (position_in_span messages gap_seconds spans (S i) Hok Hlen)
        as (s & Hs & Hr).
      pose proof (so_spans _ _ _ _ Hok s Hs) as Hsok.
      exists s. split; [exact Hs |].
      assert (start_index s <> S i).
      { intros Heq. apply Hno. exists s. split; assumption. }
      split; apply (member_iff_range _ _ _ _ Hsok); lia. }
  split; [exact Hstart |]. split; [exact Htog |]. split.
  - intros Hsess dp dc Hp Hc Hsub. apply Htog. rewrite Hstart.
    intros [Hd|(dp' & dc' & delta & Hp' & Hc' & Hs' & Hlt)]; [contradiction |].
    rewrite Hp in Hp'. rewrite Hc in Hc'. inversion Hp'; inversion Hc'; subst dp' dc'.
    rewrite Hsub in Hs'. inversion Hs'; subst delta. lia.
  - intros Hsess Hnone. apply Htog. rewrite Hstart.
    intros [Hd|(dp' & dc' & delta & Hp' & Hc' & _)]; [contradiction |].
    destruct Hnone as [Hn|Hn]; [rewrite Hn in Hp'; discriminate Hp'
                               | rewrite Hn in Hc'; discriminate Hc'].
Qed.

(** C5 (amended). Every span of one call has the id
    "{sid}-{start_index}-{end_index}", where [sid] is the sessionId its
    members share, or "span" when that is absent or empty, and where
    [start_index] and [end_index] are the positions of its first and last
    member in the sequence of non-summary entries; the ids of one call are
    pairwise distinct. *)
Theorem span_id_from_filtered_positions (messages : list TranscriptEntry)
    (gap_seconds : Z) (spans : list Span) :
  group_messages_into_spans fromisoformat messages gap_seconds = Ok spans ->
  (forall s, s ∈ spans ->
     id s = (if opt_truthy (session_id s)
             then default EmptyString (session_id s) else "span")
              +:+ "-" +:+ str_int (start_index s)
              +:+ "-" +:+ str_int (end_index s)
     /\ start_index s <= end_index s < length (non_summary messages)
     /\ (forall i, i ∈ message_indices s <-> start_index s <= i <= end_index s)
     /\ (forall i, start_index s <= i <= end_index s ->
           entry_sessionId <$> non_summary messages !! i = Some (session_id s)))
  /\ NoDup (map id spans).
Proof.
  intros Hrun.
  destruct (non_summary messages) as [|s0 seq0] eqn:Hseq.
  { rewrite (group_no_entries messages gap_seconds Hseq) in Hrun.
    inversion Hrun; subst spans.
    split; [intros s Hs; inversion Hs | constructor]. }
  assert (Hne : non_summary messages <> []) by (rewrite Hseq; discriminate).
  rewrite <- Hseq.
  pose proof (group_spans_ok messages gap_seconds spans Hne Hrun) as Hok.
  split.
  - intros s Hs. pose proof (so_spans _ _ _ _ Hok s Hs) as Hsok.
    split; [exact (ok_id _ _ _ Hsok) |].
    split; [exact (ok_bounds _ _ _ Hsok) |].
    split; [intros i; apply (member_iff_range _ _ _ _ Hsok) |].
    exact (ok_session _ _ _ Hsok).
  - apply (NoDup_fmap_2_strong id).
    + intros x y Hx Hy Hid.
      apply (NoDup_map_inj_on end_index spans);
        [exact (so_ends _ _ _ _ Hok) | exact Hx | exact Hy |].
      rewrite (ok_id _ _ _ (so_spans _ _ _ _ Hok x Hx)) in Hid.
      rewrite (ok_id _ _ _ (so_spans _ _ _ _ Hok y Hy)) in Hid.
      exact (span_id_end_inj _ _ _ _ _ _ Hid).
    + apply (NoDup_fmap_1 end_index). exact (so_ends _ _ _ _ Hok).
Qed.

(** What the segmenter derives from the entries it folds, whatever the
    input: each span lists its start position twice, and its kind, title
    and end timestamp are those of the entries of [messages] at the span's
    positions. *)
Lemma span_reads_messages (messages : list TranscriptEntry) (gap_seconds : Z)
    (spans : list Span) (s : Span) :
  group_messages_into_spans fromisoformat messages gap_seconds = Ok spans ->
  s ∈ spans ->
  message_indices s = start_index s :: span_range s
  /\ kind s = kind_of_members (entries_at messages (span_range s))
  /\ title s = title_first_come (entries_at messages (span_range s))
  /\ entry_timestamp <$> messages !! end_index s = Some (end_timestamp s)
  /\ entry_timestamp <$> non_summary messages !! start_index s
     = Some (start_timestamp s).
Proof.
  intros Hrun Hs.
  destruct (non_summary messages) as [|s0 seq0] eqn:Hseq.
  { rewrite (group_no_entries messages gap_seconds Hseq) in Hrun.
    inversion Hrun; subst spans. inversion Hs. }
  assert (Hne : non_summary messages <> []) by (rewrite Hseq; discriminate).
  rewrite <- Hseq.
  pose proof (group_spans_ok messages gap_seconds spans Hne Hrun) as Hok.
  pose proof (so_spans _ _ _ _ Hok s Hs) as Hsok.
  split; [exact (ok_indices _ _ _ Hsok) |].
  split; [exact (ok_kind _ _ _ Hsok) |].
  split; [exact (ok_title _ _ _ Hsok) |].
  split; [exact (ok_end_ts _ _ _ Hsok) | exact (ok_start_ts _ _ _ Hsok)].
Qed.

(** The positions of the spans, in order, are those of the non-summary
    entries, each once. *)
Lemma span_ranges_partition (messages : list TranscriptEntry) (gap_seconds : Z)
    (spans : list Span) :
  group_messages_into_spans fromisoformat messages gap_seconds = Ok spans ->
  concat (map span_range spans) = List.seq 0 (length (non_summary messages)).
Proof.
  intros Hrun.
  destruct (non_summary messages) as [|s0 seq0] eqn:Hseq.
  { rewrite (group_no_entries messages gap_seconds Hseq) in Hrun.
    inversion Hrun; subst spans. reflexivity. }
  assert (Hne : non_summary messages <> []) by (rewrite Hseq; discriminate).
  rewrite <- Hseq.
  exact (so_cover _ _ _ _ (group_spans_ok messages gap_seconds spans Hne Hrun)).
Qed.

Lemma non_summary_all (messages : list TranscriptEntry) :
  forallb (fun m => negb (is_summary m)) messages = true ->
  non_summary messages = messages.
Proof.
  induction messages as [|m messages IH]; simpl; [reflexivity |].
  intros H. apply andb_true_iff in H as [Hm Hrest].
  rewrite Hm. f_equal. apply IH, Hrest.
Qed.

(** On an input without summary records, kind and title are those of the
    span's members: the kind by the documented priority, the title the
    first text offered by a user or an assistant member. *)
Lemma span_of_members_without_summaries (messages : list TranscriptEntry)
    (gap_seconds : Z) (spans : list Span) (s : Span) :
  forallb (fun m => negb (is_summary m)) messages = true ->
  group_messages_into_spans fromisoformat messages gap_seconds = Ok spans ->
  s ∈ spans ->
  kind s = kind_of_members (entries_at (non_summary messages) (span_range s))
  /\ title s = title_first_come (entries_at (non_summary messages) (span_range s)).
Proof.
  intros Hall Hrun Hs.
  destruct (span_reads_messages messages gap_seconds spans s Hrun Hs)
    as (_ & Hkind & Htitle & _).
  rewrite (non_summary_all messages Hall). split; assumption.
Qed.

End Segmenter.

(** ** The segmenter on sample transcripts *)

Lemma span_starts_iff_session_or_gap_witness :
  exists spans,
    group_messages_into_spans Iso.fromisoformat
      [Sample.user_hello; Sample.user_at_gap] 600 = Ok spans
    /\ together spans 0 1.
Proof.
  eexists. split; [vm_compute; reflexivity |].
  pose proof (span_starts_iff_session_or_gap Iso.fromisoformat
                [Sample.user_hello; Sample.user_at_gap] 600) as [_ H].
  assert (Hgap : (- 2 ^ 34 <= 600 < 2 ^ 34)%Z) by lia.
  specialize (H _ 0 Sample.user_hello Sample.user_at_gap Hgap
                ltac:(vm_compute; reflexivity) eq_refl eq_refl).
  destruct H as (_ & _ & Hexact & _).
  eapply Hexact; [reflexivity | vm_compute; reflexivity
                 | vm_compute; reflexivity | vm_compute; reflexivity].
Defined.

Lemma span_id_from_filtered_positions_witness :
  exists spans,
    group_messages_into_spans Iso.fromisoformat
      [Sample.summary; Sample.user_hello; Sample.user_past_gap] 600 = Ok spans
    /\ map id spans = ["s1-0-0"; "s1-1-1"]
    /\ NoDup (map id spans).
Proof.
  eexists. split; [vm_compute; reflexivity |].
  split; [vm_compute; reflexivity |].
  exact (proj2 (span_id_from_filtered_positions Iso.fromisoformat
                  [Sample.summary; Sample.user_hello; Sample.user_past_gap] 600 _
                  ltac:(vm_compute; reflexivity))).
Defined.

(** C4, at a threshold of 2**34 seconds: two entries of one session lie
    2**34 seconds and one microsecond apart, which is more than the
    threshold, and yet no span starts at the second: the seconds between
    them, as a float, are 2**34. *)
Lemma gap_below_float_spacing_not_seen :
  exists s,
    group_messages_into_spans Iso.fromisoformat
      [Sample.user_year_1000; Sample.user_year_1544] (2 ^ 34) = Ok [s]
    /\ entry_sessionId Sample.user_year_1000 = entry_sessionId Sample.user_year_1544
    /\ gap_exceeded Iso.fromisoformat (2 ^ 34)
         Sample.user_year_1000 Sample.user_year_1544
    /\ ~ starts_at [s] 1
    /\ together [s] 0 1.
Proof.
  eexists. split; [vm_compute; reflexivity |].
  split; [reflexivity |]. split; [| split].
  - exists (mkDatetime 364878 0 0 0 0 None), (mkDatetime 563719 1 53 4 1 None),
      17179869184000001%Z.
    repeat split; vm_compute; reflexivity.
  - intros (s & Hs & Hstart). apply list_elem_of_singleton in Hs. subst s.
    discriminate Hstart.
  - eexists. split; [apply list_elem_of_singleton; reflexivity |].
    split; [apply (list_elem_of_lookup_2 _ 0) | apply (list_elem_of_lookup_2 _ 2)];
      reflexivity.
Qed.

(** C5, on positions of the unfiltered input: with a summary record ahead
    of it, the only non-summary entry sits at position 1 of the input,
    and its span is named after position 0. *)
Lemma span_id_not_from_original_positions :
  exists s,
    group_messages_into_spans Iso.fromisoformat
      [Sample.summary; Sample.user_hello] 600 = Ok [s]
    /\ original_indices [Sample.summary; Sample.user_hello] = [1]
    /\ id s = "s1-0-0"
    /\ id_from_original [Sample.summary; Sample.user_hello] s = "s1-1-1"
    /\ id s <> id_from_original [Sample.summary; Sample.user_hello] s.
Proof.
  eexists. split; [vm_compute; reflexivity |].
  split; [vm_compute; reflexivity |].
  split; [vm_compute; reflexivity |].
  split; [vm_compute; reflexivity |].
  vm_compute. discriminate.
Qed.

(** C1. A span that opens with an assistant text and is later joined by a
    user text is titled from the assistant text, where the documented
    title is the user's. *)
Theorem title_from_earlier_assistant :
  exists s,
    group_messages_into_spans Iso.fromisoformat
      [Sample.assistant_early; Sample.user_later] 600 = Ok [s]
    /\ message_indices s = [0; 0; 1]
    /\ title s = Some "hi"
    /\ title_user_first [Sample.assistant_early; Sample.user_later] = Some "hello".
Proof.
  eexists. split; [vm_compute; reflexivity |].
  repeat split; vm_compute; reflexivity.
Qed.

(** C2. A summary record ahead of a user entry changes the span of that
    entry: its title and its end timestamp are lost. *)
Theorem summary_changes_span :
  exists s s',
    group_messages_into_spans Iso.fromisoformat
      [Sample.summary; Sample.user_hello] 600 = Ok [s]
    /\ group_messages_into_spans Iso.fromisoformat [Sample.user_hello] 600 = Ok [s']
    /\ title s = None /\ title s' = Some "hello"
    /\ end_timestamp s = None
    /\ end_timestamp s' = Some "2024-01-01T00:00:00Z"
    /\ s <> s'.
Proof.
  do 2 eexists. split; [vm_compute; reflexivity |].
  split; [vm_compute; reflexivity |].
  repeat split; try (vm_compute; reflexivity).
  vm_compute. discriminate.
Qed.

(** C3. The span of a single entry lists position 0 twice. *)
Theorem start_position_listed_twice :
  exists s,
    group_messages_into_spans Iso.fromisoformat [Sample.user_hello] 600 = Ok [s]
    /\ message_indices s = [0; 0]
    /\ ~ NoDup (message_indices s).
Proof.
  eexists. split; [vm_compute; reflexivity |].
  split; [vm_compute; reflexivity |].
  simpl. intros Hnd. apply NoDup_cons in Hnd as [Hnot _].
  apply Hnot. apply list_elem_of_here.
Qed.

(** C6. Behind a summary record, an entry with a TodoWrite tool use gets
    a span of kind [chat], where the kind of its one member is [todo]. *)
Theorem todo_span_classified_chat :
  exists s,
    group_messages_into_spans Iso.fromisoformat
      [Sample.summary; Sample.assistant_todo] 600 = Ok [s]
    /\ entries_at (non_summary [Sample.summary; Sample.assistant_todo])
         (span_range s) = [Sample.assistant_todo]
    /\ kind_of_members [Sample.assistant_todo] = todo
    /\ kind s = chat.
Proof.
  eexists. split; [vm_compute; reflexivity |].
  repeat split; vm_compute; reflexivity.
Qed.

(** ** The date filter *)

Section DateFilterFacts.

Variable fromisoformat : string -> option datetime.
Variable dateparser_parse : string -> option datetime.

Lemma cmp_fields_antisym (a b : datetime) :
  DT.cmp_fields b a = CompOpp (DT.cmp_fields a b).
Proof.
  unfold DT.cmp_fields.
  rewrite (Z.compare_antisym (dt_ordinal a) (dt_ordinal b)).
  rewrite (Z.compare_antisym (dt_hour a) (dt_hour b)).
  rewrite (Z.compare_antisym (dt_minute a) (dt_minute b)).
  rewrite (Z.compare_antisym (dt_second a) (dt_second b)).
  rewrite (Z.compare_antisym (dt_microsecond a) (dt_microsecond b)).
  destruct (dt_ordinal a ?= dt_ordinal b)%Z; simpl; try reflexivity.
  destruct (dt_hour a ?= dt_hour b)%Z; simpl; try reflexivity.
  destruct (dt_minute a ?= dt_minute b)%Z; simpl; try reflexivity.
  destruct (dt_second a ?= dt_second b)%Z; simpl; reflexivity.
Qed.

Lemma message_time_naive (m : TranscriptEntry) (t : datetime) :
  message_time fromisoformat m = Some t -> dt_tzinfo t = None.
Proof.
  unfold message_time.
  destruct (entry_timestamp m) as [ts|]; [|discriminate].
  destruct (Str.truthy ts); [|discriminate].
  destruct (parse_timestamp fromisoformat ts) as [d|]; [|discriminate].
  destruct (dt_tzinfo d) eqn:Htz; intros H; inversion H; subst; simpl; auto.
Qed.

(** [message_dt < from_dt] and [message_dt > to_dt] on naive values. *)
Lemma lt_naive (t b : datetime) :
  dt_tzinfo t = None -> dt_tzinfo b = None ->
  DT.lt t b = Ok (negb (DT.le b t)).
Proof.
  intros Ht Hb. unfold DT.lt, DT.cmp, DT.le. rewrite Ht, Hb. simpl.
  rewrite (cmp_fields_antisym t b).
  destruct (DT.cmp_fields t b); reflexivity.
Qed.

Lemma gt_naive (t b : datetime) :
  dt_tzinfo t = None -> dt_tzinfo b = None ->
  DT.gt t b = Ok (negb (DT.le t b)).
Proof.
  intros Ht Hb. unfold DT.gt, DT.cmp, DT.le. rewrite Ht, Hb. simpl.
  destruct (DT.cmp_fields t b); reflexivity.
Qed.

(** With naive bounds, one turn of the loop keeps exactly the entries of
    [retained]. *)
Lemma keeps_naive (from_dt to_dt : option datetime) (m : TranscriptEntry) :
  naive_bound from_dt -> naive_bound to_dt ->
  keeps fromisoformat from_dt to_dt m = Ok (retained fromisoformat from_dt to_dt m).
Proof.
  intros Hf Ht. unfold keeps, retained, within.
  destruct (is_summary m); [reflexivity |]. simpl.
  destruct (message_time fromisoformat m) as [t|] eqn:Hm; [|reflexivity].
  pose proof (message_time_naive m t Hm) as Hnaive.
  destruct from_dt as [fd|].
  - rewrite (lt_naive t fd Hnaive (Hf fd eq_refl)). simpl.
    destruct (DT.le fd t); simpl; [|reflexivity].
    destruct to_dt as [td|]; [|reflexivity].
    rewrite (gt_naive t td Hnaive (Ht td eq_refl)). simpl.
    rewrite negb_involutive. reflexivity.
  - simpl. destruct to_dt as [td|]; [|reflexivity].
    rewrite (gt_naive t td Hnaive (Ht td eq_refl)). simpl.
    rewrite negb_involutive. reflexivity.
Qed.

Lemma filter_loop_naive (from_dt to_dt : option datetime)
    (messages acc : list TranscriptEntry) :
  naive_bound from_dt -> naive_bound to_dt ->
  foldM (filter_body fromisoformat from_dt to_dt) acc messages =
  Ok (acc ++ List.filter (retained fromisoformat from_dt to_dt) messages).
Proof.
  intros Hf Ht. revert acc.
  induction messages as [|m messages IH]; intros acc.
  - simpl. rewrite app_nil_r. reflexivity.
  - rewrite foldM_cons.
    assert (filter_body fromisoformat from_dt to_dt acc m =
            Ok (if retained fromisoformat from_dt to_dt m then acc ++ [m] else acc))
      as ->.
    { unfold filter_body. rewrite (keeps_naive from_dt to_dt m Hf Ht). reflexivity. }
    simpl. rewrite IH.
    destruct (retained fromisoformat from_dt to_dt m); [|reflexivity].
    rewrite <- app_assoc. reflexivity.
Qed.

(** Whatever the bounds, the loop only appends entries of its input, in
    order. *)
Lemma filter_loop_sublist (from_dt to_dt : option datetime)
    (messages acc kept : list TranscriptEntry) :
  foldM (filter_body fromisoformat from_dt to_dt) acc messages = Ok kept ->
  exists tail, kept = acc ++ tail /\ sublist tail messages.
Proof.
  revert acc.
  induction messages as [|m messages IH]; intros acc Hrun.
  - simpl in Hrun. inversion Hrun; subst. exists []. rewrite app_nil_r.
    split; [reflexivity | constructor].
  - rewrite foldM_cons in Hrun.
    apply bind_Ok in Hrun as (acc' & Hbody & Hrest).
    unfold filter_body in Hbody.
    apply bind_Ok in Hbody as (k & _ & Hk). inversion Hk; subst acc'; clear Hk.
    destruct (IH _ Hrest) as (tail & Hkept & Hsub).
    destruct k.
    + exists (m :: tail). split.
      * rewrite Hkept, <- app_assoc. reflexivity.
      * apply sublist_skip. exact Hsub.
    + exists tail. split; [exact Hkept | apply sublist_cons; exact Hsub].
Qed.


Lemma resolve_to_absent (to_date : option string) :
  opt_truthy to_date = false -> resolve_to dateparser_parse to_date = Ok None.
Proof.
  destruct to_date as [s|]; simpl; [|reflexivity].
  intros ->. reflexivity.
Qed.






(** The filter between resolved, naive bounds. *)
Lemma filter_naive (messages : list TranscriptEntry)
    (from_date to_date : option string) (from_dt to_dt : option datetime) :
  opt_truthy from_date || opt_truthy to_date = true ->
  resolve_from dateparser_parse from_date = Ok from_dt ->
  resolve_to dateparser_parse to_date = Ok to_dt ->
  naive_bound from_dt -> naive_bound to_dt ->
  filter_messages_by_date fromisoformat dateparser_parse messages from_date to_date
  = Ok (List.filter (retained fromisoformat from_dt to_dt) messages).
Proof.
  intros Hgiven Hfrom Hto Hnf Hnt. unfold filter_messages_by_date.
  rewrite <- negb_orb, Hgiven. simpl.
  rewrite Hfrom, Hto. simpl.
  apply (filter_loop_naive from_dt to_dt messages [] Hnf Hnt).
Qed.


(** C10. Whatever the filter returns is a subsequence of its input: the
    retained entries are entries of the input, in the input's order, none
    taken twice (so the result is no longer than the input and repeats
    nothing the input does not).  The filter does return when both bounds
    are absent and when the given bounds resolve to naive instants. *)
Theorem filter_by_date_sublist (messages : list TranscriptEntry)
    (from_date to_date : option string) :
  ((opt_truthy from_date = false /\ opt_truthy to_date = false)
   \/ (exists from_dt to_dt,
         resolve_from dateparser_parse from_date = Ok from_dt
         /\ resolve_to dateparser_parse to_date = Ok to_dt
         /\ naive_bound from_dt /\ naive_bound to_dt) ->
   is_Ok (filter_messages_by_date fromisoformat dateparser_parse messages
            from_date to_date))
  /\ forall kept,
      filter_messages_by_date fromisoformat dateparser_parse messages
        from_date to_date = Ok kept ->
      sublist kept messages
      /\ length kept <= length messages
      /\ (NoDup messages -> NoDup kept).
Proof.
  split.
  - intros [[Hf Ht]|(from_dt & to_dt & Hfrom & Hto & Hnf & Hnt)].
    + exists messages. unfold filter_messages_by_date. rewrite Hf, Ht. reflexivity.
    + destruct (opt_truthy from_date || opt_truthy to_date) eqn:Hgiven.
      * eexists. apply (filter_naive messages from_date to_date from_dt to_dt);
          assumption.
      * apply orb_false_iff in Hgiven as [Hf Ht].
        exists messages. unfold filter_messages_by_date. rewrite Hf, Ht. reflexivity.
  - intros kept Hrun.
    assert (Hsub : sublist kept messages).
    { unfold filter_messages_by_date in Hrun.
      destruct (negb (opt_truthy from_date) && negb (opt_truthy to_date)).
      - inversion Hrun. subst. reflexivity.
      - apply bind_Ok in Hrun as (from_dt & _ & Hrun).
        apply bind_Ok in Hrun as (to_dt & _ & Hrun).
        destruct (filter_loop_sublist from_dt to_dt messages [] kept Hrun)
          as (tail & -> & Hsub).
        exact Hsub. }
    split; [exact Hsub |]. split.
    + apply sublist_length, Hsub.
    + intros Hnd. exact (sublist_NoDup _ _ Hnd Hsub).
Qed.

(** ** Relative days *)




Lemma le_refl (t : datetime) : DT.le t t = true.
Proof. unfold DT.le, DT.cmp_fields. rewrite !Z.compare_refl. reflexivity. Qed.



End DateFilterFacts.

(** ** The filter on a sample transcript *)

(** A bound that resolves to an instant with an offset cannot be compared
    with the naive time of an entry: the filter raises TypeError. *)
Lemma filter_aware_bound_raises :
  filter_messages_by_date Iso.fromisoformat (RefDates.parse RefDates.now)
    SampleDates.transcript (Some "2024-01-01T00:00:00Z") None
  = Raise DT.mixed_cmp.
Proof. vm_compute. reflexivity. Qed.

(** A date expression the parser does not understand is a ValueError. *)
Lemma filter_bad_expression_raises :
  filter_messages_by_date Iso.fromisoformat (RefDates.parse RefDates.now)
    SampleDates.transcript (Some "whenever") None
  = Raise (mkExn ValueError "Could not parse from-date: whenever").
Proof. vm_compute. reflexivity. Qed.

(** Timestamps with and without an offset in one session stop the
    segmenter with a TypeError. *)
Lemma group_mixed_offsets_raises :
  group_messages_into_spans Iso.fromisoformat
    [Sample.user_hello;
     UserTranscriptEntry "u5" (Some "s1") (Some "2024-01-01T00:05:00") false
       (ContentStr "no offset")] 600
  = Raise DT.mixed.
Proof. vm_compute. reflexivity. Qed.


Lemma filter_by_date_sublist_witness :
  sublist [Sample.summary; SampleDates.at_midnight] SampleDates.transcript.
Proof.
  apply (proj2 (filter_by_date_sublist Iso.fromisoformat (RefDates.parse RefDates.now)
                  SampleDates.transcript (Some "yesterday") None)).
  vm_compute. reflexivity.
Defined.


(** ** Loading a transcript *)

Section LoaderFacts.

Variable json_loads : string -> result json.
Variable parse_transcript_entry : list (string * json) -> result TranscriptEntry.
Variable re_sub : string -> string -> string -> string.

Lemma prefix_append (a b : string) : String.prefix a (a +:+ b) = true.
Proof.
  induction a as [|c a IH]; [destruct b; reflexivity |].
  rewrite append_String. simpl.
  destruct (ascii_dec c c) as [_|Hne]; [exact IH | contradiction Hne; reflexivity].
Qed.

(** Every exception of the [try] body is caught, and the clause that
    catches it prints one line that names the source and the line. *)
Lemma except_clauses_print (jsonl_path : string) (line_no : nat) (e : exn)
    (st : LoadState) :
  exists d,
    except_clauses re_sub jsonl_path line_no e st = Ok (print d st)
    /\ String.prefix (line_of line_no jsonl_path) d = true.
Proof.
  unfold except_clauses.
  destruct (exn_cls e);
    try (eexists; split; [reflexivity | apply prefix_append]);
    destruct (Str.contains "validation error" (Str.lower (exn_str e)));
    eexists; (split; [reflexivity | apply prefix_append]).
Qed.

(** One turn of the loop never raises, and does one of three things. *)
Lemma line_body_cases (jsonl_path : string) (st : LoadState) (line_no : nat)
    (line : string) :
  exists st',
    line_body json_loads parse_transcript_entry re_sub jsonl_path st (line_no, line)
    = Ok st'
    /\ ((blank line = true
         /\ converts json_loads parse_transcript_entry line = None
         /\ skipped json_loads parse_transcript_entry line = false
         /\ st' = st)
        \/ (exists entry,
              converts json_loads parse_transcript_entry line = Some entry
              /\ skipped json_loads parse_transcript_entry line = false
              /\ st' = append_message entry st)
        \/ (converts json_loads parse_transcript_entry line = None
            /\ skipped json_loads parse_transcript_entry line = true
            /\ exists d, st' = print d st
                         /\ String.prefix (line_of line_no jsonl_path) d = true)).
Proof.
  unfold line_body, skipped, converts, blank, try_body.
  destruct (Str.truthy (Str.strip line)); simpl.
  2:{ exists st. split; [reflexivity |]. left. repeat split; reflexivity. }
  destruct (json_loads (Str.strip line)) as [v|e]; simpl.
  2:{ destruct (except_clauses_print jsonl_path line_no e st) as (d & Hd & Hp).
      eexists. split; [exact Hd |]. right. right.
      repeat split. exists d. split; [reflexivity | exact Hp]. }
  destruct v as [| | | | |members];
    try (eexists; split; [reflexivity |]; right; right; repeat split;
         eexists; split; [reflexivity | apply prefix_append]).
  destruct (recognised (dict_get "type" members)).
  2:{ eexists. split; [reflexivity |]. right. right. repeat split.
      eexists. split; [reflexivity | apply prefix_append]. }
  destruct (parse_transcript_entry members) as [entry|e]; simpl.
  - eexists. split; [reflexivity |]. right. left.
    exists entry. repeat split; reflexivity.
  - destruct (except_clauses_print jsonl_path line_no e st) as (d & Hd & Hp).
    eexists. split; [exact Hd |]. right. right.
    repeat split. exists d. split; [reflexivity | exact Hp].
Qed.

(** The loop over the numbered lines, from any state and line number. *)
Lemma load_loop (jsonl_path : string) (f : list string) (k : nat) (st : LoadState) :
  exists diags,
    foldM (line_body json_loads parse_transcript_entry re_sub jsonl_path) st
      (combine (List.seq k (length f)) f)
    = Ok (mkLoad (ld_messages st ++ omap (converts json_loads parse_transcript_entry) f)
            (ld_stdout st ++ diags))
    /\ Forall2 (names_line jsonl_path) diags
         (List.filter (fun nl => skipped json_loads parse_transcript_entry (snd nl))
            (combine (List.seq k (length f)) f)).
Proof.
  revert k st. induction f as [|line f IH]; intros k st.
  - exists []. simpl. rewrite !app_nil_r. destruct st. split; [reflexivity | constructor].
  - change (combine (List.seq k (length (line :: f))) (line :: f))
      with ((k, line) :: combine (List.seq (S k) (length f)) f).
    rewrite foldM_cons.
    destruct (line_body_cases jsonl_path st k line) as (st' & Hbody & Hcases).
    rewrite Hbody. simpl.
    destruct (IH (S k) st') as (diags & Hrun & Hnames). rewrite Hrun.
    destruct Hcases as [(_ & Hc & Hs & ->)|[(entry & Hc & Hs & ->)|(Hc & Hs & d & -> & Hp)]];
      rewrite Hc, Hs.
    + exists diags. split; [reflexivity | exact Hnames].
    + exists diags. split; [|exact Hnames].
      simpl. rewrite <- app_assoc. reflexivity.
    + exists (d :: diags). split.
      * simpl. rewrite <- app_assoc. reflexivity.
      * constructor; [exact Hp | exact Hnames].
Qed.

(** C9 (amended). Read without a cache, [load_transcript] does not raise
    on a file that opens and decodes as UTF-8, whatever its lines [f].
    It returns the entries of the lines that convert (non-blank lines that
    decode to a JSON object of a recognised type and pass the schema
    conversion), in line order; blank lines print nothing; every other
    line prints one diagnostic that begins with "Line {n} of {path}", [n]
    counting lines from 0.  In particular an invalid-JSON line followed by
    a valid user line gives one entry and one diagnostic. *)
Theorem load_transcript_skips_bad_lines (jsonl_path : string) (f : list string)
    (from_date to_date : option string) (silent : bool) :
  (exists diags,
     load_transcript json_loads parse_transcript_entry re_sub jsonl_path (Ok f) None
       from_date to_date silent
     = Ok (omap (converts json_loads parse_transcript_entry) f,
           progress silent jsonl_path ++ diags)
     /\ Forall2 (names_line jsonl_path) diags
          (List.filter (fun nl => skipped json_loads parse_transcript_entry (snd nl))
             (enumerate f)))
  /\ (forall line, blank line = true ->
        converts json_loads parse_transcript_entry line = None
        /\ skipped json_loads parse_transcript_entry line = false)
  /\ (forall bad good e members entry,
        f = [bad; good] ->
        blank bad = false ->
        json_loads (Str.strip bad) = Raise e -> exn_cls e = JSONDecodeError ->
        blank good = false ->
        json_loads (Str.strip good) = Ok (JObject members) ->
        dict_get "type" members = Some (JString "user") ->
        parse_transcript_entry members = Ok entry ->
        load_transcript json_loads parse_transcript_entry re_sub jsonl_path (Ok f) None
          from_date to_date silent
        = Ok ([entry],
              progress silent jsonl_path
                ++ [line_of 0 jsonl_path +:+ " | JSON decode error: " +:+ exn_str e])).
Proof.
  split; [|split].
  - unfold load_transcript, enumerate. simpl.
    destruct (load_loop jsonl_path f 0
                (mkLoad [] (if silent then []
                            else ["Processing " +:+ jsonl_path +:+ "..."])))
      as (diags & Hrun & Hnames).
    exists diags. rewrite Hrun. simpl. split; [reflexivity | exact Hnames].
  - intros line Hb. unfold skipped, converts. rewrite Hb. split; reflexivity.
  - intros bad good e members entry -> Hb Hbad Hcls Hg Hgood Htype Hentry.
    unfold blank in Hb, Hg. apply negb_false_iff in Hb, Hg.
    unfold load_transcript, enumerate. simpl.
    rewrite Hb, Hg. unfold try_body. rewrite Hbad, Hgood. simpl.
    unfold except_clauses. rewrite Hcls. simpl.
    rewrite Htype. simpl. rewrite Hentry. simpl.
    unfold progress. destruct silent; reflexivity.
Qed.

End LoaderFacts.

(** ** The loader on a sample file *)

Lemma load_transcript_skips_bad_lines_witness :
  load_transcript Ref.json_loads Ref.parse_transcript_entry Ref.re_sub "a.jsonl"
    (Ok [SampleFile.bad_line; SampleFile.user_line]) None None None true
  = Ok ([SampleFile.user_entry],
        ["Line 0 of a.jsonl | JSON decode error: Expecting value"]).
Proof.
  refine (proj2 (proj2 (load_transcript_skips_bad_lines
                          Ref.json_loads Ref.parse_transcript_entry Ref.re_sub
                          "a.jsonl" [SampleFile.bad_line; SampleFile.user_line]
                          None None true))
            SampleFile.bad_line SampleFile.user_line
            (mkExn JSONDecodeError "Expecting value") _ SampleFile.user_entry
            eq_refl _ _ eq_refl _ _ _ _);
    vm_compute; reflexivity.
Defined.

(** C9, on a file that does not decode: with the byte ff on its first
    line, ahead of a valid user line, the read raises UnicodeDecodeError
    outside the [try] statement, and [load_transcript] raises with it
    instead of skipping the line. *)
Lemma load_transcript_raises_on_undecodable_line :
  load_transcript Ref.json_loads Ref.parse_transcript_entry Ref.re_sub "a.jsonl"
    SampleFile.undecodable None None None true
  = Raise SampleFile.invalid_start_byte
  /\ exn_cls SampleFile.invalid_start_byte = UnicodeDecodeError
  /\ ~ is_Ok (load_transcript Ref.json_loads Ref.parse_transcript_entry Ref.re_sub
                "a.jsonl" SampleFile.undecodable None None None true).
Proof.
  split; [reflexivity |]. split; [reflexivity |].
  intros [loaded Hrun]. discriminate Hrun.
Qed.

(** * Further properties *)

(** ** The segmenter *)

Section SegmenterMore.

Variable fromisoformat : string -> option datetime.

(** The spans a returned list is made of, when there is an entry to
    segment. *)
Lemma group_Ok_spans_ok (messages : list TranscriptEntry) (gap_seconds : Z)
    (spans : list Span) (s : Span) :
  group_messages_into_spans fromisoformat messages gap_seconds = Ok spans ->
  s ∈ spans ->
  non_summary messages <> []
  /\ spans_ok fromisoformat messages gap_seconds spans.
Proof.
  intros Hrun Hs.
  destruct (non_summary messages) as [|s0 seq0] eqn:Hseq.
  { rewrite (group_no_entries fromisoformat messages gap_seconds Hseq) in Hrun.
    inversion Hrun; subst spans. inversion Hs. }
  assert (Hne : non_summary messages <> []) by (rewrite Hseq; discriminate).
  rewrite <- Hseq. split; [exact Hne |].
  exact (group_spans_ok fromisoformat messages gap_seconds spans Hne Hrun).
Qed.

(** X1. The spans come in order and tile the positions of the
    non-summary entries: their ranges start..end, put end to end, are
    0, 1, ..., n-1; so every position lies in the range of exactly one
    span. *)
Theorem spans_tile_positions (messages : list TranscriptEntry) (gap_seconds : Z)
    (spans : list Span) :
  group_messages_into_spans fromisoformat messages gap_seconds = Ok spans ->
  concat (map span_range spans) = List.seq 0 (length (non_summary messages))
  /\ forall i, i < length (non_summary messages) ->
       exists s, s ∈ spans /\ start_index s <= i <= end_index s
                 /\ forall s', s' ∈ spans ->
                      start_index s' <= i <= end_index s' -> s' = s.
Proof.
  intros Hrun. split; [exact (span_ranges_partition fromisoformat _ _ _ Hrun) |].
  intros i Hi.
  assert (Hne : non_summary messages <> []).
  { intros Hnil. rewrite Hnil in Hi. simpl in Hi. lia. }
  pose proof (group_spans_ok fromisoformat messages gap_seconds spans Hne Hrun) as Hok.
  destruct (position_in_span fromisoformat messages gap_seconds spans i Hok Hi)
    as (s & Hs & Hr).
  exists s. split; [exact Hs |]. split; [exact Hr |].
  intros s' Hs' Hr'.
  exact (span_unique fromisoformat messages gap_seconds spans s' s i Hok Hs' Hs Hr' Hr).
Qed.

(** X2. [message_indices] of every span is its start index followed by
    the positions start, start+1, ..., end: the start is listed twice,
    every other member once. *)
Theorem message_indices_shape (messages : list TranscriptEntry) (gap_seconds : Z)
    (spans : list Span) (s : Span) :
  group_messages_into_spans fromisoformat messages gap_seconds = Ok spans ->
  s ∈ spans ->
  message_indices s
  = start_index s :: List.seq (start_index s) (S (end_index s) - start_index s)
  /\ length (message_indices s) = end_index s - start_index s + 2.
Proof.
  intros Hrun Hs.
  destruct (group_Ok_spans_ok messages gap_seconds spans s Hrun Hs) as [_ Hok].
  pose proof (so_spans _ _ _ _ Hok s Hs) as Hsok.
  pose proof (ok_bounds _ _ _ Hsok) as Hb.
  rewrite (ok_indices _ _ _ Hsok). unfold span_range.
  split; [reflexivity |]. simpl. rewrite length_seq. lia.
Qed.

(** X3. The members of a span belong to one session: every member's
    sessionId is the span's [session_id]. *)
Theorem span_members_share_session (messages : list TranscriptEntry)
    (gap_seconds : Z) (spans : list Span) (s : Span) (i : nat) :
  group_messages_into_spans fromisoformat messages gap_seconds = Ok spans ->
  s ∈ spans -> i ∈ message_indices s ->
  exists m, non_summary messages !! i = Some m
            /\ entry_sessionId m = session_id s.
Proof.
  intros Hrun Hs Hi.
  destruct (group_Ok_spans_ok messages gap_seconds spans s Hrun Hs) as [_ Hok].
  pose proof (so_spans _ _ _ _ Hok s Hs) as Hsok.
  apply (member_iff_range _ _ _ _ Hsok) in Hi.
  pose proof (ok_session _ _ _ Hsok i Hi) as Hsess.
  destruct (non_summary messages !! i) as [m|]; [|discriminate Hsess].
  exists m. split; [reflexivity |]. simpl in Hsess. inversion Hsess. reflexivity.
Qed.

(** X4. A span's kind is never [unknown], and its kind, title and end
    timestamp are computed from the entries of the unfiltered input
    [messages] at the span's positions (while start..end are positions
    of the filtered list): kind by the priority todo, tooling, system,
    chat, title the first text offered by a user or assistant entry. *)
Theorem span_attributes_read_unfiltered (messages : list TranscriptEntry)
    (gap_seconds : Z) (spans : list Span) (s : Span) :
  group_messages_into_spans fromisoformat messages gap_seconds = Ok spans ->
  s ∈ spans ->
  kind s <> unknown
  /\ kind s = kind_of_members (entries_at messages (span_range s))
  /\ title s = title_first_come (entries_at messages (span_range s))
  /\ entry_timestamp <$> messages !! end_index s = Some (end_timestamp s)
  /\ entry_timestamp <$> non_summary messages !! start_index s
     = Some (start_timestamp s).
Proof.
  intros Hrun Hs.
  destruct (group_Ok_spans_ok messages gap_seconds spans s Hrun Hs) as [_ Hok].
  pose proof (so_spans _ _ _ _ Hok s Hs) as Hsok.
  split.
  - rewrite (ok_kind _ _ _ Hsok). unfold kind_of_members.
    repeat case_match; discriminate.
  - split; [exact (ok_kind _ _ _ Hsok) |].
    split; [exact (ok_title _ _ _ Hsok) |].
    split; [exact (ok_end_ts _ _ _ Hsok) | exact (ok_start_ts _ _ _ Hsok)].
Qed.

(** X5. On an input without summary records every attribute of a span is
    that of its members: kind by the priority todo, tooling, system,
    chat over the members' content; title the first text offered by a
    user or assistant member; start and end timestamps those of the first
    and the last member. *)
Theorem span_attributes_of_members (messages : list TranscriptEntry)
    (gap_seconds : Z) (spans : list Span) (s : Span) :
  forallb (fun m => negb (is_summary m)) messages = true ->
  group_messages_into_spans fromisoformat messages gap_seconds = Ok spans ->
  s ∈ spans ->
  kind s = kind_of_members (entries_at messages (span_range s))
  /\ title s = title_first_come (entries_at messages (span_range s))
  /\ entry_timestamp <$> messages !! start_index s = Some (start_timestamp s)
  /\ entry_timestamp <$> messages !! end_index s = Some (end_timestamp s)
  /\ length (entries_at messages (span_range s))
     = S (end_index s) - start_index s.
Proof.
  intros Hall Hrun Hs.
  destruct (group_Ok_spans_ok messages gap_seconds spans s Hrun Hs) as [_ Hok].
  pose proof (so_spans _ _ _ _ Hok s Hs) as Hsok.
  pose proof (ok_bounds _ _ _ Hsok) as Hb.
  pose proof (ok_start_ts _ _ _ Hsok) as Hts.
  rewrite (non_summary_all messages Hall) in Hts, Hb.
  split; [exact (ok_kind _ _ _ Hsok) |].
  split; [exact (ok_title _ _ _ Hsok) |].
  split; [exact Hts |].
  split; [exact (ok_end_ts _ _ _ Hsok) |].
  unfold entries_at, span_range.
  assert (Hgen : forall a n, a + n <= length messages ->
            length (omap (fun i => messages !! i) (List.seq a n)) = n).
  { intros a n. revert a. induction n as [|n IH]; intros a Han; [reflexivity |].
    simpl. destruct (lookup_lt_is_Some_2 messages a ltac:(lia)) as [m Hm].
    rewrite Hm. simpl. rewrite IH; [reflexivity | lia]. }
  apply Hgen. lia.
Qed.

Lemma loop_body_Ok_inv (messages seq : list TranscriptEntry) (gap_seconds : Z)
    (st st' : SpanDraft * list Span) (i : nat) :
  loop_body fromisoformat messages seq gap_seconds st i = Ok st' ->
  exists b, boundary fromisoformat seq gap_seconds i = Ok b
            /\ snd st' = if b then snd st ++ [finalize_current_span (fst st)]
                         else snd st.
Proof.
  destruct st as [cur spans]. unfold loop_body. intros H.
  apply bind_Ok in H as (b & Hb & H). exists b. split; [exact Hb |].
  destruct b.
  - apply bind_Ok in H as (c0 & _ & H). apply bind_Ok in H as (c1 & _ & H).
    inversion H. reflexivity.
  - apply bind_Ok in H as (c1 & _ & H). inversion H. reflexivity.
Qed.


Lemma boundary_raise (seq : list TranscriptEntry) (gap_seconds : Z) (i : nat)
    (prev cur : TranscriptEntry) :
  seq !! i = Some prev -> seq !! S i = Some cur ->
  (is_Ok (boundary fromisoformat seq gap_seconds (S i))
   <-> ~ mixed_pair fromisoformat prev cur)
  /\ (forall e, boundary fromisoformat seq gap_seconds (S i) = Raise e ->
                e = DT.mixed).
Proof.
  intros Hprev Hcur.
  rewrite (boundary_pair fromisoformat seq gap_seconds (S i) prev cur);
    [| replace (S i - 1) with i by lia; exact Hprev | exact Hcur].
  unfold mixed_pair.
  destruct (bool_decide (entry_sessionId prev = entry_sessionId cur)) eqn:Hd; simpl.
  2:{ apply bool_decide_eq_false in Hd. split; [|discriminate].
      split; [intros _ [Hs _]; contradiction | intros _; eexists; reflexivity]. }
  apply bool_decide_eq_true in Hd.
  destruct (timestamp_dt fromisoformat (entry_timestamp prev)) as [p|].
  2:{ split; [|discriminate].
      split; [intros _ (_ & p & c & H & _); discriminate H
             | intros _; eexists; reflexivity]. }
  destruct (timestamp_dt fromisoformat (entry_timestamp cur)) as [c|].
  2:{ split; [|discriminate].
      split; [intros _ (_ & p' & c & _ & H & _); discriminate H
             | intros _; eexists; reflexivity]. }
  unfold DT.sub, aware.
  destruct (dt_tzinfo c) eqn:Htc, (dt_tzinfo p) eqn:Htp; simpl.
  - split; [|discriminate].
    split; [|intros _; eexists; reflexivity].
    intros _ (_ & p' & c' & Hp & Hc & Hne). inversion Hp; inversion Hc; subst.
    rewrite Htc, Htp in Hne. apply Hne. reflexivity.
  - split; [|intros e H; inversion H; reflexivity].
    split; [intros [b Hb]; discriminate Hb |].
    intros Hno. exfalso. apply Hno. split; [exact Hd |].
    exists p, c. repeat split; try reflexivity.
    rewrite Htc, Htp. discriminate.
  - split; [|intros e H; inversion H; reflexivity].
    split; [intros [b Hb]; discriminate Hb |].
    intros Hno. exfalso. apply Hno. split; [exact Hd |].
    exists p, c. repeat split; try reflexivity.
    rewrite Htc, Htp. discriminate.
  - split; [|discriminate].
    split; [|intros _; eexists; reflexivity].
    intros _ (_ & p' & c' & Hp & Hc & Hne). inversion Hp; inversion Hc; subst.
    rewrite Htc, Htp in Hne. apply Hne. reflexivity.
Qed.

(** A loop over [range(1, n + 1)] that raises does so in some turn,
    entered in a state the invariant holds of. *)
Lemma foldM_range_raise {St} (body : St -> nat -> result St)
    (Inv : nat -> St -> Prop) (n : nat) (st0 : St) (e : exn) :
  Inv 0 st0 ->
  (forall j st1 st2, j < n -> Inv j st1 -> body st1 (S j) = Ok st2 -> Inv (S j) st2) ->
  foldM body st0 (List.seq 1 n) = Raise e ->
  exists j st1, j < n /\ Inv j st1 /\ body st1 (S j) = Raise e.
Proof.
  intros H0 Hstep. induction n as [|n IH]; intros Hrun.
  - simpl in Hrun. discriminate Hrun.
  - rewrite seq_S, foldM_app in Hrun.
    destruct (foldM body st0 (List.seq 1 n)) as [st1|e'] eqn:Hprefix.
    + simpl in Hrun. destruct (body st1 (S n)) as [st2|e''] eqn:Hbody;
        [discriminate Hrun |].
      simpl in Hrun. inversion Hrun; subst e''.
      exists n, st1. split; [lia |]. split; [|exact Hbody].
      apply (foldM_range_inv body Inv n st0 st1 H0); [|exact Hprefix].
      intros j sa sb Hj. apply Hstep. lia.
    + simpl in Hrun. inversion Hrun; subst e'.
      destruct IH as (j & st1 & Hj & Hinv & Hbody); [|reflexivity|].
      { intros j sa sb Hj. apply Hstep. lia. }
      exists j, st1. split; [lia |]. split; assumption.
Qed.

(** X7. The segmenter returns exactly when no two adjacent non-summary
    entries of one session have parseable timestamps of which one carries
    an offset and the other does not; otherwise it raises the TypeError of
    the subtraction, and it never raises anything else. *)
Theorem group_raises_on_mixed_offsets (messages : list TranscriptEntry)
    (gap_seconds : Z) :
  (is_Ok (group_messages_into_spans fromisoformat messages gap_seconds)
   <-> forall i prev cur,
         non_summary messages !! i = Some prev ->
         non_summary messages !! S i = Some cur ->
         ~ mixed_pair fromisoformat prev cur)
  /\ (forall e,
        group_messages_into_spans fromisoformat messages gap_seconds = Raise e ->
        e = DT.mixed /\ exn_cls e = TypeError).
Proof.
  pose proof (non_summary_length messages) as Hlen.
  split; [split |].
  - intros [spans Hrun] i prev cur Hprev Hcur.
    apply (boundary_raise (non_summary messages) gap_seconds i prev cur Hprev Hcur).
    assert (Hne : non_summary messages <> []).
    { intros Hnil. rewrite Hnil in Hprev. discriminate Hprev. }
    rewrite (group_unfold fromisoformat _ _ Hne) in Hrun.
    destruct (loop_init fromisoformat messages gap_seconds Hne) as (cur0 & Hopen & _).
    rewrite Hopen in Hrun. simpl in Hrun.
    apply bind_Ok in Hrun as (st & Hloop & _).
    pose proof (lookup_lt_Some _ _ _ Hcur) as Hi.
    apply (foldM_range_inv
             (loop_body fromisoformat messages (non_summary messages) gap_seconds)
             (fun k _ => forall j, 1 <= j <= k ->
                is_Ok (boundary fromisoformat (non_summary messages) gap_seconds j))
             (length (non_summary messages) - 1) (cur0, []) st);
      [intros j Hj; lia | | exact Hloop | lia].
    intros j st1 st2 _ Hinv Hbody k Hk.
    destruct (decide (k = S j)) as [->|Hne']; [|apply Hinv; lia].
    apply loop_body_Ok_inv in Hbody as (b & Hb & _). exists b. exact Hb.
  - intros Hno. apply group_returns. intros i Hi.
    destruct i as [|i]; [lia |].
    destruct (lookup_lt_is_Some_2 (non_summary messages) i ltac:(lia)) as [prev Hprev].
    destruct (lookup_lt_is_Some_2 (non_summary messages) (S i) ltac:(lia)) as [cur Hcur].
    apply (boundary_raise (non_summary messages) gap_seconds i prev cur Hprev Hcur).
    exact (Hno i prev cur Hprev Hcur).
  - intros e Hrun.
    assert (Hne : non_summary messages <> []).
    { intros Hnil. rewrite (group_no_entries fromisoformat _ _ Hnil) in Hrun.
      discriminate Hrun. }
    rewrite (group_unfold fromisoformat _ _ Hne) in Hrun.
    destruct (loop_init fromisoformat messages gap_seconds Hne) as (cur0 & Hopen & Hinv0).
    rewrite Hopen in Hrun. simpl in Hrun.
    destruct (foldM _ _ _) as [st|e'] eqn:Hloop; [discriminate Hrun |].
    simpl in Hrun. inversion Hrun; subst e'.
    destruct (foldM_range_raise
                (loop_body fromisoformat messages (non_summary messages) gap_seconds)
                (loop_inv fromisoformat messages (non_summary messages) gap_seconds)
                (length (non_summary messages) - 1) (cur0, []) e Hinv0)
      as (j & st1 & Hj & Hinv & Hbody); [|exact Hloop|].
    { intros j sa sb Hj Hinv Hbody.
      apply (loop_step fromisoformat messages (non_summary messages) gap_seconds j sa sb);
        [exact Hlen | lia | exact Hinv | exact Hbody]. }
    destruct (boundary fromisoformat (non_summary messages) gap_seconds (S j))
      as [b|e'] eqn:Hb.
    + destruct (loop_body_returns fromisoformat messages (non_summary messages)
                  gap_seconds j st1 Hlen ltac:(lia) Hinv) as [st2 Hst2].
      { exists b. exact Hb. }
      rewrite Hst2 in Hbody. discriminate Hbody.
    + assert (e = e').
      { destruct st1 as [c sp]. unfold loop_body in Hbody. rewrite Hb in Hbody.
        simpl in Hbody. inversion Hbody. reflexivity. }
      subst e'.
      destruct (lookup_lt_is_Some_2 (non_summary messages) j ltac:(lia)) as [prev Hprev].
      destruct (lookup_lt_is_Some_2 (non_summary messages) (S j) ltac:(lia)) as [cur Hcur].
      pose proof (proj2 (boundary_raise (non_summary messages) gap_seconds j prev cur
                           Hprev Hcur) e Hb) as ->.
      split; reflexivity.
Qed.

(** X8. A larger gap threshold only merges spans: with
    [gap_seconds <= gap_seconds'], every span of the segmentation under
    [gap_seconds'] starts where a span of the segmentation under
    [gap_seconds] starts. *)
Theorem larger_gap_coarsens (messages : list TranscriptEntry)
    (gap_seconds gap_seconds' : Z) (spans spans' : list Span) :
  (gap_seconds <= gap_seconds')%Z ->
  group_messages_into_spans fromisoformat messages gap_seconds = Ok spans ->
  group_messages_into_spans fromisoformat messages gap_seconds' = Ok spans' ->
  forall s', s' ∈ spans' ->
    exists s, s ∈ spans /\ start_index s = start_index s'.
Proof.
  intros Hgap Hrun Hrun' s' Hs'.
  destruct (group_Ok_spans_ok messages gap_seconds' spans' s' Hrun' Hs') as [Hne Hok'].
  pose proof (group_spans_ok fromisoformat messages gap_seconds spans Hne Hrun) as Hok.
  pose proof (ok_bounds _ _ _ (so_spans _ _ _ _ Hok' s' Hs')) as Hb.
  destruct (start_index s') as [|i] eqn:Hstart.
  - destruct (position_in_span fromisoformat messages gap_seconds spans 0 Hok ltac:(lia))
      as (s & Hs & Hr).
    exists s. split; [exact Hs | lia].
  - apply (so_starts _ _ _ _ Hok (S i) ltac:(lia)).
    destruct (lookup_lt_is_Some_2 (non_summary messages) i ltac:(lia)) as [prev Hprev].
    destruct (lookup_lt_is_Some_2 (non_summary messages) (S i) ltac:(lia)) as [cur Hcur].
    apply (boundary_true_float fromisoformat _ gap_seconds i prev cur Hprev Hcur).
    assert (Hb' : boundary fromisoformat (non_summary messages) gap_seconds' (S i)
                  = Ok true).
    { apply (so_starts _ _ _ _ Hok' (S i) ltac:(lia)). exists s'. split; assumption. }
    apply (boundary_true_float fromisoformat _ gap_seconds' i prev cur Hprev Hcur) in Hb'.
    destruct Hb' as [Hsess|(dp & dc & delta & Hp & Hc & Hsub & Hgt)]; [left; exact Hsess |].
    right. exists dp, dc, delta. repeat split; try assumption.
    exact (total_seconds_gt_mono delta gap_seconds gap_seconds' Hgap Hgt).
Qed.

End SegmenterMore.

(** *** On sample transcripts *)

Lemma spans_tile_positions_witness :
  exists spans,
    group_messages_into_spans Iso.fromisoformat
      [Sample.summary; Sample.user_hello; Sample.user_past_gap] 600 = Ok spans
    /\ concat (map span_range spans) = [0; 1].
Proof.
  eexists. split; [vm_compute; reflexivity |].
  exact (proj1 (spans_tile_positions Iso.fromisoformat
                  [Sample.summary; Sample.user_hello; Sample.user_past_gap] 600 _
                  ltac:(vm_compute; reflexivity))).
Defined.

Lemma message_indices_shape_witness :
  exists spans,
    group_messages_into_spans Iso.fromisoformat
      [Sample.user_hello; Sample.assistant_hi] 600 = Ok spans
    /\ forall s, s ∈ spans ->
         length (message_indices s) = end_index s - start_index s + 2.
Proof.
  eexists. split; [vm_compute; reflexivity |].
  intros s Hs.
  exact (proj2 (message_indices_shape Iso.fromisoformat
                  [Sample.user_hello; Sample.assistant_hi] 600 _ s
                  ltac:(vm_compute; reflexivity) Hs)).
Defined.

Lemma span_members_share_session_witness :
  exists spans,
    group_messages_into_spans Iso.fromisoformat
      [Sample.user_hello; Sample.assistant_hi] 600 = Ok spans
    /\ forall s, s ∈ spans ->
         exists m, non_summary [Sample.user_hello; Sample.assistant_hi] !! 1 = Some m
                   /\ entry_sessionId m = session_id s.
Proof.
  eexists. split; [vm_compute; reflexivity |].
  intros s Hs. apply list_elem_of_singleton in Hs. subst s.
  refine (span_members_share_session Iso.fromisoformat
            [Sample.user_hello; Sample.assistant_hi] 600 _ _ 1
            ltac:(vm_compute; reflexivity) _ _).
  - apply list_elem_of_here.
  - apply list_elem_of_In. simpl. tauto.
Defined.

Lemma span_attributes_read_unfiltered_witness :
  exists spans,
    group_messages_into_spans Iso.fromisoformat
      [Sample.summary; Sample.assistant_todo] 600 = Ok spans
    /\ forall s, s ∈ spans ->
         kind s = kind_of_members
                    (entries_at [Sample.summary; Sample.assistant_todo] (span_range s)).
Proof.
  eexists. split; [vm_compute; reflexivity |].
  intros s Hs.
  exact (proj1 (proj2 (span_attributes_read_unfiltered Iso.fromisoformat
                         [Sample.summary; Sample.assistant_todo] 600 _ s
                         ltac:(vm_compute; reflexivity) Hs))).
Defined.

Lemma span_attributes_of_members_witness :
  exists spans,
    group_messages_into_spans Iso.fromisoformat
      [Sample.user_hello; Sample.assistant_todo] 600 = Ok spans
    /\ forall s, s ∈ spans ->
         kind s = kind_of_members
                    (entries_at [Sample.user_hello; Sample.assistant_todo] (span_range s)).
Proof.
  eexists. split; [vm_compute; reflexivity |].
  intros s Hs.
  exact (proj1 (span_attributes_of_members Iso.fromisoformat
                  [Sample.user_hello; Sample.assistant_todo] 600 _ s
                  eq_refl ltac:(vm_compute; reflexivity) Hs)).
Defined.


Lemma group_raises_on_mixed_offsets_witness :
  exn_cls DT.mixed = TypeError.
Proof.
  refine (proj2 (proj2 (group_raises_on_mixed_offsets Iso.fromisoformat
                          [Sample.user_hello;
                           UserTranscriptEntry "u5" (Some "s1")
                             (Some "2024-01-01T00:05:00") false
                             (ContentStr "no offset")] 600)
                   DT.mixed _)).
  vm_compute. reflexivity.
Defined.

Lemma larger_gap_coarsens_witness :
  exists spans spans',
    group_messages_into_spans Iso.fromisoformat
      [Sample.user_hello; Sample.user_past_gap] 600 = Ok spans
    /\ group_messages_into_spans Iso.fromisoformat
         [Sample.user_hello; Sample.user_past_gap] 601 = Ok spans'
    /\ forall s', s' ∈ spans' -> exists s, s ∈ spans /\ start_index s = start_index s'.
Proof.
  do 2 eexists. split; [vm_compute; reflexivity |].
  split; [vm_compute; reflexivity |].
  exact (larger_gap_coarsens Iso.fromisoformat
           [Sample.user_hello; Sample.user_past_gap] 600 601 _ _
           ltac:(lia) ltac:(vm_compute; reflexivity) ltac:(vm_compute; reflexivity)).
Defined.

(** ** The date filter *)

Section DateFilterMore.

Variable fromisoformat : string -> option datetime.
Variable dateparser_parse : string -> option datetime.




(** X10. A date expression that cannot be parsed stops the filter with a
    ValueError that names it, whatever the entries (even none) and before
    any of them is looked at; a bad [from_date] is reported before a bad
    [to_date]. *)
Theorem filter_unparseable_expression (messages : list TranscriptEntry)
    (from_date to_date : option string) (bad : string) :
  Str.truthy bad = true ->
  dateparser_parse bad = None ->
  (from_date = Some bad ->
   filter_messages_by_date fromisoformat dateparser_parse messages from_date to_date
   = Raise (mkExn ValueError ("Could not parse from-date: " +:+ bad)))
  /\ (to_date = Some bad ->
      (forall s, from_date = Some s -> Str.truthy s = true ->
                 dateparser_parse s <> None) ->
      filter_messages_by_date fromisoformat dateparser_parse messages from_date to_date
      = Raise (mkExn ValueError ("Could not parse to-date: " +:+ bad))).
Proof.
  intros Hbad Hnone. unfold filter_messages_by_date. split.
  - intros ->. simpl. rewrite Hbad. simpl. rewrite Hnone. reflexivity.
  - intros -> Hfrom. simpl. rewrite Hbad, andb_false_r.
    destruct from_date as [s|]; simpl.
    + destruct (Str.truthy s) eqn:Hs; simpl.
      * destruct (dateparser_parse s) as [d|] eqn:Hd;
          [|exfalso; exact (Hfrom s eq_refl Hs Hd)].
        simpl. rewrite Hnone. reflexivity.
      * rewrite Hnone. reflexivity.
    + rewrite Hnone. reflexivity.
Qed.






End DateFilterMore.

(** *** On the sample transcript *)


Lemma filter_unparseable_expression_witness :
  filter_messages_by_date Iso.fromisoformat (RefDates.parse RefDates.now)
    [] (Some "whenever") (Some "whenever")
  = Raise (mkExn ValueError "Could not parse from-date: whenever").
Proof.
  apply (proj1 (filter_unparseable_expression Iso.fromisoformat
                  (RefDates.parse RefDates.now) [] (Some "whenever") (Some "whenever")
                  "whenever" eq_refl ltac:(vm_compute; reflexivity))).
  reflexivity.
Defined.



(** ** The loader *)

Section LoaderMore.

Variable json_loads : string -> result json.
Variable parse_transcript_entry : list (string * json) -> result TranscriptEntry.
Variable re_sub : string -> string -> string -> string.

Lemma except_clauses_frame (jsonl_path : string) (line_no : nat) (e : exn) :
  exists d, forall st,
    except_clauses re_sub jsonl_path line_no e st = Ok (print d st).
Proof.
  unfold except_clauses.
  destruct (exn_cls e); try (eexists; intros st; reflexivity);
    destruct (Str.contains "validation error" (Str.lower (exn_str e)));
    eexists; intros st; reflexivity.
Qed.

(** What one turn of the loop adds does not depend on what was read
    before. *)
Lemma line_body_frame (jsonl_path : string) (line_no : nat) (line : string) :
  exists dm ds,
    (forall st,
       line_body json_loads parse_transcript_entry re_sub jsonl_path st (line_no, line)
       = Ok (mkLoad (ld_messages st ++ dm) (ld_stdout st ++ ds)))
    /\ dm = match converts json_loads parse_transcript_entry line with
            | Some entry => [entry]
            | None => []
            end
    /\ length ds = (if skipped json_loads parse_transcript_entry line then 1 else 0).
Proof.
  unfold line_body, skipped, converts, blank, try_body.
  destruct (Str.truthy (Str.strip line)); simpl.
  2:{ exists [], []. split; [|split; reflexivity].
      intros [ms out]. simpl. rewrite !app_nil_r. reflexivity. }
  destruct (json_loads (Str.strip line)) as [v|e]; simpl.
  2:{ destruct (except_clauses_frame jsonl_path line_no e) as (d & Hd).
      exists [], [d]. split; [|split; reflexivity].
      intros [ms out]. rewrite Hd. unfold print. simpl. rewrite app_nil_r. reflexivity. }
  destruct v as [| | | | |members];
    try (exists []; eexists [_]; split; [|split; reflexivity];
         intros [ms out]; unfold print; simpl; rewrite app_nil_r; reflexivity).
  destruct (recognised (dict_get "type" members)).
  2:{ exists []. eexists [_]. split; [|split; reflexivity].
      intros [ms out]. unfold print. simpl. rewrite app_nil_r. reflexivity. }
  destruct (parse_transcript_entry members) as [entry|e]; simpl.
  - exists [entry], []. split; [|split; reflexivity].
    intros [ms out]. unfold append_message. simpl. rewrite app_nil_r. reflexivity.
  - destruct (except_clauses_frame jsonl_path line_no e) as (d & Hd).
    exists [], [d]. split; [|split; reflexivity].
    intros [ms out]. rewrite Hd. unfold print. simpl. rewrite app_nil_r. reflexivity.
Qed.

Lemma load_loop_frame (jsonl_path : string) (f : list string) (k : nat) :
  exists diags,
    (forall st,
       foldM (line_body json_loads parse_transcript_entry re_sub jsonl_path) st
         (combine (List.seq k (length f)) f)
       = Ok (mkLoad (ld_messages st ++ omap (converts json_loads parse_transcript_entry) f)
               (ld_stdout st ++ diags)))
    /\ length diags
       = length (List.filter (skipped json_loads parse_transcript_entry) f).
Proof.
  revert k. induction f as [|line f IH]; intros k.
  - exists []. split; [|reflexivity].
    intros [ms out]. simpl. rewrite !app_nil_r. reflexivity.
  - destruct (line_body_frame jsonl_path k line) as (dm & ds & Hbody & Hdm & Hds).
    destruct (IH (S k)) as (diags & Hrun & Hlen).
    exists (ds ++ diags). split.
    + intros st.
      change (combine (List.seq k (length (line :: f))) (line :: f))
        with ((k, line) :: combine (List.seq (S k) (length f)) f).
      rewrite foldM_cons, Hbody. simpl. rewrite Hrun. simpl.
      rewrite <- !app_assoc. subst dm.
      destruct (converts json_loads parse_transcript_entry line); reflexivity.
    + rewrite length_app, Hds, Hlen. simpl.
      destruct (skipped json_loads parse_transcript_entry line); reflexivity.
Qed.

(** [load_transcript] without a cache on a file that was read, in terms
    of the loop. *)
Lemma load_transcript_no_cache (jsonl_path : string) (f : list string)
    (from_date to_date : option string) (silent : bool) :
  exists diags,
    load_transcript json_loads parse_transcript_entry re_sub jsonl_path (Ok f) None
      from_date to_date silent
    = Ok (omap (converts json_loads parse_transcript_entry) f,
          progress silent jsonl_path ++ diags)
    /\ (forall silent',
          load_transcript json_loads parse_transcript_entry re_sub jsonl_path (Ok f) None
            from_date to_date silent'
          = Ok (omap (converts json_loads parse_transcript_entry) f,
                progress silent' jsonl_path ++ diags))
    /\ length diags
       = length (List.filter (skipped json_loads parse_transcript_entry) f).
Proof.
  destruct (load_loop_frame jsonl_path f 0) as (diags & Hrun & Hlen).
  exists diags.
  assert (Hall : forall s,
            load_transcript json_loads parse_transcript_entry re_sub jsonl_path (Ok f) None
              from_date to_date s
            = Ok (omap (converts json_loads parse_transcript_entry) f,
                  progress s jsonl_path ++ diags)).
  { intros s. unfold load_transcript, enumerate. simpl. rewrite Hrun. reflexivity. }
  split; [apply Hall |]. split; [exact Hall | exact Hlen].
Qed.

Lemma line_kind (line : string) :
  (match converts json_loads parse_transcript_entry line with
   | Some _ => 1 | None => 0 end)
  + (if skipped json_loads parse_transcript_entry line then 1 else 0)
  + (if blank line then 1 else 0) = 1.
Proof.
  unfold skipped.
  destruct (blank line) eqn:Hb; simpl.
  - unfold converts. rewrite Hb. reflexivity.
  - destruct (converts json_loads parse_transcript_entry line); reflexivity.
Qed.

Lemma line_kinds_count (f : list string) :
  length (omap (converts json_loads parse_transcript_entry) f)
  + length (List.filter (skipped json_loads parse_transcript_entry) f)
  + length (List.filter blank f)
  = length f.
Proof.
  induction f as [|line f IH]; [reflexivity |].
  pose proof (line_kind line) as Hk.
  unfold omap in *. simpl.
  destruct (converts json_loads parse_transcript_entry line),
    (skipped json_loads parse_transcript_entry line), (blank line);
    simpl in *; lia.
Qed.

(** X13. Read without a cache, a file that cannot be opened or does not
    decode makes [load_transcript] raise the exception of the read, and a
    file that opens and decodes makes it return, whatever its lines.
    Every line is then accounted for once: the entries returned, the
    diagnostics printed and the blank lines add up to the number of
    lines. *)
Theorem load_transcript_accounts_for_lines (jsonl_path : string) (f : list string)
    (from_date to_date : option string) (silent : bool) :
  (forall e,
     load_transcript json_loads parse_transcript_entry re_sub jsonl_path (Raise e)
       None from_date to_date silent = Raise e)
  /\ exists entries diags,
       load_transcript json_loads parse_transcript_entry re_sub jsonl_path (Ok f) None
         from_date to_date silent
       = Ok (entries, progress silent jsonl_path ++ diags)
       /\ length entries + length diags + length (List.filter blank f) = length f.
Proof.
  split; [intros e; reflexivity |].
  destruct (load_transcript_no_cache jsonl_path f from_date to_date silent)
    as (diags & Hrun & _ & Hlen).
  eexists. exists diags. split; [exact Hrun |].
  rewrite Hlen. apply line_kinds_count.
Qed.

(** X14. [silent] silences the progress line only: the diagnostics of
    skipped lines are printed all the same, and the entries returned do
    not depend on it. *)
Theorem silent_keeps_diagnostics (jsonl_path : string) (f : list string)
    (from_date to_date : option string) :
  exists entries diags,
    load_transcript json_loads parse_transcript_entry re_sub jsonl_path (Ok f) None
      from_date to_date true
    = Ok (entries, diags)
    /\ load_transcript json_loads parse_transcript_entry re_sub jsonl_path (Ok f) None
         from_date to_date false
       = Ok (entries, ("Processing " +:+ jsonl_path +:+ "...") :: diags)
    /\ length diags
       = length (List.filter (skipped json_loads parse_transcript_entry) f).
Proof.
  destruct (load_transcript_no_cache jsonl_path f from_date to_date true)
    as (diags & _ & Hall & Hlen).
  eexists. exists diags. split; [apply (Hall true) |].
  split; [apply (Hall false) | exact Hlen].
Qed.

(** X15. Lines are converted one by one: the entries of a file made of
    two parts are the entries of the first part followed by those of the
    second, and its diagnostics are as many as those of the parts
    together. *)
Theorem load_transcript_concatenation (jsonl_path : string) (f1 f2 : list string)
    (from_date to_date : option string) :
  exists e1 e2 d1 d2 d,
    load_transcript json_loads parse_transcript_entry re_sub jsonl_path (Ok f1) None
      from_date to_date true = Ok (e1, d1)
    /\ load_transcript json_loads parse_transcript_entry re_sub jsonl_path (Ok f2) None
         from_date to_date true = Ok (e2, d2)
    /\ load_transcript json_loads parse_transcript_entry re_sub jsonl_path
         (Ok (f1 ++ f2)) None from_date to_date true = Ok (e1 ++ e2, d)
    /\ length d = length d1 + length d2.
Proof.
  destruct (load_transcript_no_cache jsonl_path f1 from_date to_date true)
    as (d1 & H1 & _ & L1).
  destruct (load_transcript_no_cache jsonl_path f2 from_date to_date true)
    as (d2 & H2 & _ & L2).
  destruct (load_transcript_no_cache jsonl_path (f1 ++ f2) from_date to_date true)
    as (d & H & _ & L).
  do 2 eexists. exists d1, d2, d.
  split; [exact H1 |]. split; [exact H2 |].
  rewrite omap_app in H. split; [exact H |].
  rewrite L, L1, L2, List.filter_app, length_app. reflexivity.
Qed.

(** X16. With a cache manager: a cache hit is returned as it is, the file
    not being read (so also when it could not be read); on a miss the file
    is parsed as without cache, the parsed entries are handed to
    [save_cached_entries], and an exception of that call is raised to the
    caller. *)
Theorem load_transcript_cache (cm : CacheManager) (jsonl_path : string)
    (f : list string) (from_date to_date : option string) (silent : bool) :
  (forall file cached,
     cache_lookup (Some cm) jsonl_path from_date to_date = Some cached ->
     load_transcript json_loads parse_transcript_entry re_sub jsonl_path file (Some cm)
       from_date to_date silent
     = Ok (cached, if silent then []
                   else ["Loading " +:+ jsonl_path +:+ " from cache..."]))
  /\ (cache_lookup (Some cm) jsonl_path from_date to_date = None ->
      exists entries out,
        load_transcript json_loads parse_transcript_entry re_sub jsonl_path (Ok f) None
          from_date to_date silent = Ok (entries, out)
        /\ (save_cached_entries cm jsonl_path entries = Ok tt ->
            load_transcript json_loads parse_transcript_entry re_sub jsonl_path (Ok f)
              (Some cm) from_date to_date silent = Ok (entries, out))
        /\ (forall e, save_cached_entries cm jsonl_path entries = Raise e ->
              load_transcript json_loads parse_transcript_entry re_sub jsonl_path (Ok f)
                (Some cm) from_date to_date silent = Raise e)).
Proof.
  split.
  - intros file cached Hhit. unfold load_transcript. rewrite Hhit. reflexivity.
  - intros Hmiss.
    destruct (load_loop_frame jsonl_path f 0) as (diags & Hrun & _).
    exists (omap (converts json_loads parse_transcript_entry) f),
      (progress silent jsonl_path ++ diags).
    split; [|split].
    + unfold load_transcript, enumerate. simpl. rewrite Hrun. reflexivity.
    + intros Hsave. unfold load_transcript, enumerate. rewrite Hmiss.
      cbn [mbind result_bind]. rewrite Hrun. simpl in *. rewrite Hsave. reflexivity.
    + intros e Hsave. unfold load_transcript, enumerate. rewrite Hmiss.
      cbn [mbind result_bind]. rewrite Hrun. simpl in *. rewrite Hsave. reflexivity.
Qed.

End LoaderMore.

(** *** On the sample file *)

Lemma load_transcript_cache_witness :
  load_transcript Ref.json_loads Ref.parse_transcript_entry Ref.re_sub "a.jsonl"
    (Ok [SampleFile.bad_line; SampleFile.user_line]) (Some SampleCache.failing)
    None None true
  = Raise SampleCache.disk_full.
Proof.
  destruct (proj2 (load_transcript_cache Ref.json_loads Ref.parse_transcript_entry
                     Ref.re_sub SampleCache.failing "a.jsonl"
                     [SampleFile.bad_line; SampleFile.user_line] None None true)
              eq_refl)
    as (entries & out & Hrun & _ & Hraise).
  apply Hraise. reflexivity.
Defined.

(** ** Titles *)

Lemma append_assoc (a b c : string) : (a +:+ b) +:+ c = a +:+ (b +:+ c).
Proof.
  induction a as [|x a IH]; [reflexivity |].
  rewrite !append_String, IH. reflexivity.
Qed.

Lemma append_nil_r (a : string) : a +:+ EmptyString = a.
Proof.
  induction a as [|x a IH]; [reflexivity |].
  rewrite append_String, IH. reflexivity.
Qed.

Lemma rev_app_append (a b : string) : String.rev_app a b = String.rev a +:+ b.
Proof.
  revert b. induction a as [|x a IH]; intros b; [reflexivity |].
  unfold String.rev. simpl. rewrite (IH (String x b)), (IH (String x EmptyString)).
  rewrite append_assoc. reflexivity.
Qed.

Lemma rev_String (x : ascii) (a : string) :
  String.rev (String x a) = String.rev a +:+ String x EmptyString.
Proof. unfold String.rev at 1. simpl. apply rev_app_append. Qed.

Lemma rev_append (a b : string) :
  String.rev (a +:+ b) = String.rev b +:+ String.rev a.
Proof.
  induction a as [|x a IH].
  - rewrite append_nil_l, append_nil_r. reflexivity.
  - rewrite append_String, !rev_String, IH, append_assoc. reflexivity.
Qed.

Lemma rev_involutive (a : string) : String.rev (String.rev a) = a.
Proof.
  induction a as [|x a IH]; [reflexivity |].
  rewrite rev_String, rev_append, IH. reflexivity.
Qed.

Lemma lstrip_suffix (s : string) : exists p, s = p +:+ Str.lstrip s.
Proof.
  induction s as [|c s (p & IH)]; [exists EmptyString; reflexivity |].
  simpl. destruct (Str.isspace c).
  - exists (String c p). rewrite append_String, <- IH. reflexivity.
  - exists EmptyString. reflexivity.
Qed.

Lemma lstrip_head (s : string) (c : ascii) (r : string) :
  Str.lstrip s = String c r -> Str.isspace c = false.
Proof.
  induction s as [|x s IH]; simpl; [discriminate |].
  destruct (Str.isspace x) eqn:Hx; [exact IH |].
  intros H. inversion H. subst. exact Hx.
Qed.

(** The stripped string does not start with white space. *)
Lemma strip_head (s : string) (c : ascii) (r : string) :
  Str.strip s = String c r -> Str.isspace c = false.
Proof.
  unfold Str.strip, Str.rstrip. intros Hw.
  destruct (lstrip_suffix (String.rev (Str.lstrip s))) as (p & Hp).
  assert (Hy : Str.lstrip s = Str.strip s +:+ String.rev p).
  { rewrite <- (rev_involutive (Str.lstrip s)). rewrite Hp at 1.
    rewrite rev_append. reflexivity. }
  unfold Str.strip, Str.rstrip in Hy. rewrite Hw, append_String in Hy.
  exact (lstrip_head s c _ Hy).
Qed.

Lemma linebreak_is_space (c : ascii) :
  Str.is_linebreak c = true -> Str.isspace c = true.
Proof.
  destruct c as [[] [] [] [] [] [] [] []]; vm_compute; intros H;
    first [reflexivity | discriminate H].
Qed.

Lemma rev_nonempty (x : ascii) (a : string) : String.rev (String x a) <> EmptyString.
Proof.
  rewrite rev_String. destruct (String.rev a); discriminate.
Qed.

Lemma no_linebreak_append (a b : string) :
  no_linebreak (a +:+ b) = no_linebreak a && no_linebreak b.
Proof.
  induction a as [|x a IH]; [reflexivity |].
  rewrite append_String. simpl. rewrite IH, andb_assoc. reflexivity.
Qed.

Lemma no_linebreak_rev (a : string) : no_linebreak (String.rev a) = no_linebreak a.
Proof.
  induction a as [|x a IH]; [reflexivity |].
  rewrite rev_String, no_linebreak_append, IH. simpl.
  rewrite andb_true_r. apply andb_comm.
Qed.

(** Every line [splitlines] returns is free of line boundaries. *)
Lemma splitlines_go_lines (n : nat) (s cur : string) :
  String.length s <= n ->
  no_linebreak cur = true ->
  Forall (fun l => no_linebreak l = true) (Str.splitlines_go cur s).
Proof.
  revert s cur. induction n as [|n IH]; intros s cur Hlen Hcur.
  - destruct s as [|c s]; [|simpl in Hlen; lia]. simpl.
    destruct cur as [|x cur]; [constructor |].
    constructor; [rewrite no_linebreak_rev; exact Hcur | constructor].
  - destruct s as [|c s].
    + apply (IH EmptyString cur); [simpl; lia | exact Hcur].
    + simpl in Hlen. simpl.
      destruct (Str.is_linebreak c) eqn:Hc.
      * constructor; [rewrite no_linebreak_rev; exact Hcur |].
        destruct s as [|c' s''].
        -- apply (IH EmptyString EmptyString); [simpl; lia | reflexivity].
        -- destruct ((Str.code c =? 13) && (Str.code c' =? 10)).
           ++ apply (IH s'' EmptyString); [simpl in Hlen; lia | reflexivity].
           ++ apply (IH (String c' s'') EmptyString); [lia | reflexivity].
      * apply (IH s (String c cur)); [lia |].
        simpl. rewrite Hc. exact Hcur.
Qed.

(** The first line starts with the characters already read. *)
Lemma splitlines_go_first (s cur : string) :
  cur <> EmptyString ->
  exists tail rest, Str.splitlines_go cur s = (String.rev cur +:+ tail) :: rest.
Proof.
  revert cur. induction s as [|c s IH]; intros cur Hcur.
  - destruct cur as [|x cur]; [contradiction |].
    exists EmptyString. eexists. simpl. rewrite append_nil_r. reflexivity.
  - simpl. destruct (Str.is_linebreak c).
    + exists EmptyString. eexists. rewrite append_nil_r. reflexivity.
    + destruct (IH (String c cur)) as (tail & rest & Hgo); [discriminate |].
      exists (String c tail), rest. rewrite Hgo, rev_String, append_assoc.
      reflexivity.
Qed.

Lemma substring_prefix_length (n : nat) (s : string) :
  String.length (String.substring 0 n s) <= n.
Proof.
  revert s. induction n as [|n IH]; intros [|c s]; simpl; try lia.
  specialize (IH s). lia.
Qed.

Lemma substring_prefix_no_linebreak (n : nat) (s : string) :
  no_linebreak s = true -> no_linebreak (String.substring 0 n s) = true.
Proof.
  revert s. induction n as [|n IH]; intros [|c s]; simpl; try reflexivity.
  intros H. apply andb_true_iff in H as [Hc Hs]. rewrite Hc. apply IH, Hs.
Qed.

(** The title a message offers is one line of 1 to 120 characters that
    starts with a character other than white space. *)
Lemma offered_title_shape (m : TranscriptEntry) (t : string) :
  offered_title m = Some t ->
  1 <= String.length t <= 120
  /\ no_linebreak t = true
  /\ exists c r, t = String c r /\ Str.isspace c = false.
Proof.
  unfold offered_title.
  destruct (Str.strip (extract_text_content (entry_content m))) as [|c w] eqn:Htext;
    [discriminate |].
  simpl Str.truthy. cbv iota. intros H. inversion H as [Ht]. clear H.
  pose proof (strip_head _ c w Htext) as Hspace.
  assert (Hlb : Str.is_linebreak c = false).
  { destruct (Str.is_linebreak c) eqn:Hc; [|reflexivity].
    rewrite (linebreak_is_space c Hc) in Hspace. discriminate Hspace. }
  assert (Hsplit : Str.splitlines (String c w)
                   = Str.splitlines_go (String c EmptyString) w).
  { unfold Str.splitlines. simpl. rewrite Hlb. reflexivity. }
  rewrite Hsplit.
  pose proof (splitlines_go_lines (String.length w) w (String c EmptyString)
                (Nat.le_refl _)) as Hall.
  destruct (splitlines_go_first w (String c EmptyString)) as (tail & rest & Hgo);
    [discriminate |].
  rewrite Hgo in *. change (String.rev (String c EmptyString) +:+ tail)
    with (String c tail) in *.
  assert (Hno : no_linebreak (String c tail) = true).
  { assert (Hcur : no_linebreak (String c EmptyString) = true)
      by (simpl; rewrite Hlb; reflexivity).
    specialize (Hall Hcur). inversion Hall. assumption. }
  simpl head. simpl default. unfold Str.slice_to.
  split; [|split].
  - split; [simpl; lia | apply substring_prefix_length].
  - apply substring_prefix_no_linebreak. exact Hno.
  - simpl. eexists _, _. split; [reflexivity | exact Hspace].
Qed.

Lemma title_first_come_offered (l : list TranscriptEntry) (t : string) :
  title_first_come l = Some t ->
  exists m, m ∈ l /\ offered_title m = Some t
            /\ (entry_type m = "user" \/ entry_type m = "assistant").
Proof.
  induction l as [|x l IH]; simpl; [discriminate |].
  destruct (String.eqb (entry_type x) "user" || String.eqb (entry_type x) "assistant")
    eqn:Hty.
  - destruct (offered_title x) as [t'|] eqn:Hoff.
    + intros H. inversion H. subst t'. exists x.
      split; [apply list_elem_of_here |]. split; [exact Hoff |].
      apply orb_true_iff in Hty as [Hu|Ha]; [left | right];
        apply String.eqb_eq; assumption.
    + intros H. destruct (IH H) as (m & Hm & Hrest).
      exists m. split; [apply list_elem_of_further, Hm | exact Hrest].
  - intros H. destruct (IH H) as (m & Hm & Hrest).
    exists m. split; [apply list_elem_of_further, Hm | exact Hrest].
Qed.

(** X17. A span's title, when it has one, is a single line of 1 to 120
    characters that starts with a character other than white space, and
    it is the title offered by a user or assistant entry of the input. *)
Theorem span_title_shape (fromisoformat : string -> option datetime)
    (messages : list TranscriptEntry) (gap_seconds : Z) (spans : list Span)
    (s : Span) (t : string) :
  group_messages_into_spans fromisoformat messages gap_seconds = Ok spans ->
  s ∈ spans ->
  title s = Some t ->
  1 <= String.length t <= 120
  /\ no_linebreak t = true
  /\ (exists c r, t = String c r /\ Str.isspace c = false)
  /\ exists m, m ∈ messages /\ offered_title m = Some t
               /\ (entry_type m = "user" \/ entry_type m = "assistant").
Proof.
  intros Hrun Hs Ht.
  destruct (group_Ok_spans_ok fromisoformat messages gap_seconds spans s Hrun Hs)
    as [_ Hok].
  pose proof (ok_title _ _ _ (so_spans _ _ _ _ Hok s Hs)) as Htitle.
  rewrite Ht in Htitle. symmetry in Htitle.
  destruct (title_first_come_offered _ t Htitle) as (m & Hm & Hoff & Hty).
  destruct (offered_title_shape m t Hoff) as (Hlen & Hno & Hhead).
  split; [exact Hlen |]. split; [exact Hno |]. split; [exact Hhead |].
  exists m. split; [|split; assumption].
  unfold entries_at in Hm. apply list_elem_of_omap in Hm as (i & _ & Hi).
  eapply list_elem_of_lookup_2. exact Hi.
Qed.

Lemma span_title_shape_witness :
  exists spans s,
    group_messages_into_spans Iso.fromisoformat
      [Sample.user_hello; Sample.assistant_hi] 600 = Ok spans
    /\ s ∈ spans
    /\ title s = Some "hello"
    /\ 1 <= String.length "hello" <= 120.
Proof.
  do 2 eexists. split; [vm_compute; reflexivity |].
  split; [apply list_elem_of_here |].
  split; [reflexivity |].
  exact (proj1 (span_title_shape Iso.fromisoformat
                  [Sample.user_hello; Sample.assistant_hi] 600 _ _ "hello"
                  ltac:(vm_compute; reflexivity) (list_elem_of_here _ _) eq_refl)).
Defined.

(** ** Content *)

(** X18. [_contains_todowrite] holds exactly of a content list with a
    tool-use item named "TodoWrite" (a string or absent content never
    qualifies), and whatever it holds of also counts as tool activity. *)
Theorem todowrite_is_tool_activity (content : MessageContent) :
  (_contains_todowrite content = true <->
   exists items i input,
     content = ContentList items /\ ToolUseContent i "TodoWrite" input ∈ items)
  /\ (_contains_todowrite content = true -> _has_tool_activity content = true).
Proof.
  split; [split |].
  - destruct content as [|s|items]; simpl; try discriminate.
    intros H. apply existsb_exists in H as (item & Hin & Hitem).
    destruct item as [|?|i name input|? ?|?]; try discriminate Hitem.
    apply String.eqb_eq in Hitem. subst name.
    exists items, i, input. split; [reflexivity |].
    apply list_elem_of_In. exact Hin.
  - intros (items & i & input & -> & Hin). simpl.
    apply existsb_exists. eexists. split; [apply list_elem_of_In; exact Hin |].
    reflexivity.
  - destruct content as [|s|items]; simpl; try discriminate.
    intros H. apply existsb_exists in H as (item & Hin & Hitem).
    apply existsb_exists. exists item. split; [exact Hin |].
    destruct item; try discriminate Hitem; reflexivity.
Qed.

Lemma extract_text_parts (items : list ContentItem) :
  flat_map (fun item => match item with TextContent text => [text] | _ => [] end)
    (List.filter is_text items)
  = flat_map (fun item => match item with TextContent text => [text] | _ => [] end)
      items.
Proof.
  induction items as [|item items IH]; [reflexivity |].
  destruct item; simpl; rewrite IH; reflexivity.
Qed.

(** X19. Only text items contribute to the extracted text: dropping the
    thinking, tool and image items of a content list leaves it unchanged,
    and a list without a text item has the empty text, so that an entry
    with such content never offers a title. *)
Theorem extract_text_only_text_items (items : list ContentItem) :
  extract_text_content (ContentList (List.filter is_text items))
  = extract_text_content (ContentList items)
  /\ (List.filter is_text items = [] ->
      extract_text_content (ContentList items) = EmptyString
      /\ forall m, entry_content m = ContentList items -> offered_title m = None).
Proof.
  split.
  - unfold extract_text_content. rewrite extract_text_parts. reflexivity.
  - intros Hnone.
    assert (Hempty : extract_text_content (ContentList items) = EmptyString).
    { unfold extract_text_content. rewrite <- extract_text_parts, Hnone. reflexivity. }
    split; [exact Hempty |].
    intros m Hm. unfold offered_title. rewrite Hm, Hempty. reflexivity.
Qed.

Lemma todowrite_is_tool_activity_witness :
  _has_tool_activity (entry_content Sample.assistant_todo) = true.
Proof.
  apply (proj2 (todowrite_is_tool_activity (entry_content Sample.assistant_todo))).
  reflexivity.
Defined.

Lemma extract_text_only_text_items_witness :
  offered_title Sample.assistant_todo = None.
Proof.
  refine (proj2 (proj2 (extract_text_only_text_items
                          [ToolUseContent "t1" "TodoWrite" EmptyString;
                           ToolUseContent "t2" "Bash" EmptyString]) eq_refl)
            Sample.assistant_todo eq_refl).
Defined.

(** ** Sorting by a string key *)

Section SortByKey.

Context {A : Type}.
Variable key : A -> string.

Lemma leb_false_ge (a b : string) : String.leb a b = false -> String.le b a.
Proof.
  intros Hab. destruct (total String.le a b) as [H|H]; [|exact H].
  unfold String.le in H. rewrite Hab in H. contradiction H.
Qed.

Lemma leb_refl (a : string) : String.leb a a = true.
Proof.
  pose proof (reflexivity (R := String.le) a) as H. unfold String.le in H.
  destruct (String.leb a a); [reflexivity | contradiction H].
Qed.

Lemma insert_by_key_perm (x : A) (l : list A) : insert_by_key key x l ≡ₚ x :: l.
Proof.
  induction l as [|y l IH]; simpl; [reflexivity |].
  destruct (String.leb (key x) (key y)); [reflexivity |].
  rewrite IH. apply Permutation_swap.
Qed.

Lemma stable_sort_perm (l : list A) : stable_sort key l ≡ₚ l.
Proof.
  induction l as [|x l IH]; simpl; [reflexivity |].
  rewrite insert_by_key_perm, IH. reflexivity.
Qed.

Lemma insert_by_key_sorted (x : A) (l : list A) :
  StronglySorted (fun a b => String.le (key a) (key b)) l ->
  StronglySorted (fun a b => String.le (key a) (key b)) (insert_by_key key x l).
Proof.
  induction 1 as [|y l Hsorted IH Hall]; simpl.
  - repeat constructor.
  - destruct (String.leb (key x) (key y)) eqn:Hxy.
    + assert (Hle : String.le (key x) (key y)) by (unfold String.le; rewrite Hxy; exact I).
      constructor; [constructor; assumption |].
      constructor; [exact Hle |].
      eapply Forall_impl; [exact Hall |].
      intros z Hz. simpl in Hz. etrans; eassumption.
    + constructor; [exact IH |].
      apply Forall_forall. intros z Hz.
      rewrite insert_by_key_perm in Hz.
      apply elem_of_cons in Hz as [->|Hz].
      * apply leb_false_ge. exact Hxy.
      * rewrite Forall_forall in Hall. apply Hall. exact Hz.
Qed.

Lemma stable_sort_sorted (l : list A) :
  StronglySorted (fun a b => String.le (key a) (key b)) (stable_sort key l).
Proof.
  induction l as [|x l IH]; simpl; [constructor |].
  apply insert_by_key_sorted. exact IH.
Qed.

Lemma insert_by_key_stable (k : string) (x : A) (l : list A) :
  List.filter (fun a => String.eqb (key a) k) (insert_by_key key x l)
  = List.filter (fun a => String.eqb (key a) k) (x :: l).
Proof.
  induction l as [|y l IH]; [reflexivity |].
  simpl. destruct (String.leb (key x) (key y)) eqn:Hxy; [reflexivity |].
  simpl. simpl in IH. rewrite IH.
  destruct (String.eqb (key x) k) eqn:Hx; [|reflexivity].
  destruct (String.eqb (key y) k) eqn:Hy; [|reflexivity].
  apply String.eqb_eq in Hx, Hy. rewrite Hx, Hy, leb_refl in Hxy. discriminate Hxy.
Qed.

Lemma stable_sort_stable (k : string) (l : list A) :
  List.filter (fun a => String.eqb (key a) k) (stable_sort key l)
  = List.filter (fun a => String.eqb (key a) k) l.
Proof.
  induction l as [|x l IH]; [reflexivity |].
  simpl stable_sort. rewrite insert_by_key_stable. simpl. rewrite IH. reflexivity.
Qed.

Lemma strongly_sorted_lookup (R : A -> A -> Prop) (l : list A) (i j : nat) (a b : A) :
  StronglySorted R l -> i < j -> l !! i = Some a -> l !! j = Some b -> R a b.
Proof.
  intros Hs. revert i j. induction Hs as [|x l Hs IH Hall]; intros i j Hij Hi Hj.
  - discriminate Hi.
  - destruct j as [|j]; [lia |]. destruct i as [|i].
    + simpl in Hi, Hj. inversion Hi; subst x.
      rewrite Forall_forall in Hall. apply Hall.
      eapply list_elem_of_lookup_2. exact Hj.
    + simpl in Hi, Hj. apply (IH i j); [lia | assumption..].
Qed.

End SortByKey.

(** ** Loading a directory *)

Section DirectoryFacts.

Variable json_loads : string -> result json.
Variable parse_transcript_entry : list (string * json) -> result TranscriptEntry.
Variable re_sub : string -> string -> string -> string.

(** The entries of the files, file after file, line after line: a
    directory load that returns has read every file. *)
Lemma directory_loop (jsonl_files : list (string * result (list string)))
    (from_date to_date : option string) (silent : bool)
    (st st' : list TranscriptEntry * list string) :
  foldM (directory_body json_loads parse_transcript_entry re_sub None
           from_date to_date silent) st jsonl_files = Ok st' ->
  fst st'
  = fst st ++ concat (map (fun file =>
                             omap (converts json_loads parse_transcript_entry)
                               (lines_read (snd file))) jsonl_files).
Proof.
  revert st. induction jsonl_files as [|file files IH]; intros st Hrun.
  - simpl in Hrun. inversion Hrun. simpl. rewrite app_nil_r. reflexivity.
  - rewrite foldM_cons in Hrun.
    apply bind_Ok in Hrun as (st1 & Hbody & Hrest).
    unfold directory_body in Hbody.
    apply bind_Ok in Hbody as (loaded & Hload & Hret).
    inversion Hret; subst st1. clear Hret.
    destruct (snd file) as [lines|e] eqn:Hfile; [| discriminate Hload].
    destruct (load_transcript_no_cache json_loads parse_transcript_entry re_sub
                (fst file) lines from_date to_date silent) as (diags & Hok & _).
    rewrite Hok in Hload. inversion Hload; subst loaded. clear Hload.
    rewrite (IH _ Hrest). simpl. rewrite Hfile. simpl.
    rewrite <- app_assoc. reflexivity.
Qed.

Lemma load_directory_Ok (jsonl_files : list (string * result (list string)))
    (from_date to_date : option string) (silent : bool)
    (entries : list TranscriptEntry) (out : list string) :
  load_directory_transcripts json_loads parse_transcript_entry re_sub jsonl_files
    None from_date to_date silent = Ok (entries, out) ->
  entries
  = stable_sort sort_key
      (concat (map (fun file =>
                      omap (converts json_loads parse_transcript_entry)
                        (lines_read (snd file)))
                 jsonl_files)).
Proof.
  unfold load_directory_transcripts. intros Hrun.
  apply bind_Ok in Hrun as (st & Hloop & Hrun).
  apply directory_loop in Hloop. simpl in Hloop.
  apply bind_Ok in Hrun as (sorted & Hsort & Hret).
  inversion Hret; subst. unfold sort_by_key in Hsort. rewrite Hloop in Hsort.
  destruct (_ && _); [discriminate Hsort |]. inversion Hsort. reflexivity.
Qed.

Lemma leb_empty (a : string) : String.le a EmptyString -> a = EmptyString.
Proof. destruct a; [reflexivity |]. unfold String.le. simpl. intros []. Qed.

(** X20. A directory load returns the entries of all its files (nothing
    lost, nothing added) in ascending order of their timestamp strings,
    compared character by character; summary records sort under the empty
    string, so nothing with a non-empty timestamp comes before a summary
    record. *)
Theorem load_directory_sorted (jsonl_files : list (string * result (list string)))
    (from_date to_date : option string) (silent : bool)
    (entries : list TranscriptEntry) (out : list string) :
  load_directory_transcripts json_loads parse_transcript_entry re_sub jsonl_files
    None from_date to_date silent = Ok (entries, out) ->
  entries ≡ₚ concat (map (fun file =>
                            omap (converts json_loads parse_transcript_entry)
                              (lines_read (snd file)))
                       jsonl_files)
  /\ (forall i j a b, i < j -> entries !! i = Some a -> entries !! j = Some b ->
        String.le (sort_key a) (sort_key b))
  /\ (forall i j a b, i < j -> entries !! i = Some a -> entries !! j = Some b ->
        is_summary b = true -> sort_key a = EmptyString).
Proof.
  intros Hrun. rewrite (load_directory_Ok _ _ _ _ _ _ Hrun).
  assert (Hsorted : forall i j a b, i < j ->
            stable_sort sort_key
              (concat (map (fun file =>
                              omap (converts json_loads parse_transcript_entry)
                                (lines_read (snd file))) jsonl_files)) !! i = Some a ->
            stable_sort sort_key
              (concat (map (fun file =>
                              omap (converts json_loads parse_transcript_entry)
                                (lines_read (snd file))) jsonl_files)) !! j = Some b ->
            String.le (sort_key a) (sort_key b)).
  { intros i j a b Hij Hi Hj.
    exact (strongly_sorted_lookup _ _ i j a b (stable_sort_sorted sort_key _) Hij Hi Hj). }
  split; [apply stable_sort_perm |]. split; [exact Hsorted |].
  intros i j a b Hij Hi Hj Hb.
  apply leb_empty. pose proof (Hsorted i j a b Hij Hi Hj) as Hle.
  unfold sort_key at 2 in Hle. unfold get_timestamp in Hle. rewrite Hb in Hle.
  exact Hle.
Qed.

(** X21. The sort of a directory load is stable: the entries that carry
    one and the same timestamp string come out in the order of the files
    and, within a file, of the lines. *)
Theorem load_directory_stable (jsonl_files : list (string * result (list string)))
    (from_date to_date : option string) (silent : bool)
    (entries : list TranscriptEntry) (out : list string) (ts : string) :
  load_directory_transcripts json_loads parse_transcript_entry re_sub jsonl_files
    None from_date to_date silent = Ok (entries, out) ->
  List.filter (fun e => String.eqb (sort_key e) ts) entries
  = List.filter (fun e => String.eqb (sort_key e) ts)
      (concat (map (fun file =>
                      omap (converts json_loads parse_transcript_entry)
                        (lines_read (snd file)))
                 jsonl_files)).
Proof.
  intros Hrun. rewrite (load_directory_Ok _ _ _ _ _ _ Hrun).
  apply stable_sort_stable.
Qed.

End DirectoryFacts.

Lemma load_directory_sorted_witness :
  exists entries out,
    load_directory_transcripts Ref.json_loads Ref.parse_transcript_entry Ref.re_sub
      SampleDirectory.files None None None true = Ok (entries, out)
    /\ entries ≡ₚ [UserTranscriptEntry EmptyString (Some "s2")
                     (Some "2024-01-02T00:00:00Z") false (ContentStr "later");
                   SummaryTranscriptEntry "u1" "A greeting";
                   SampleFile.user_entry].
Proof.
  do 2 eexists. split; [vm_compute; reflexivity |].
  exact (proj1 (load_directory_sorted Ref.json_loads Ref.parse_transcript_entry
                  Ref.re_sub SampleDirectory.files None None true _ _
                  ltac:(vm_compute; reflexivity))).
Defined.

Lemma load_directory_stable_witness :
  exists entries out,
    load_directory_transcripts Ref.json_loads Ref.parse_transcript_entry Ref.re_sub
      SampleDirectory.files None None None true = Ok (entries, out)
    /\ List.filter (fun e => String.eqb (sort_key e) "2024-01-01T00:00:00Z") entries
       = [SampleFile.user_entry].
Proof.
  do 2 eexists. split; [vm_compute; reflexivity |].
  exact (load_directory_stable Ref.json_loads Ref.parse_transcript_entry
           Ref.re_sub SampleDirectory.files None None true _ _
           "2024-01-01T00:00:00Z" ltac:(vm_compute; reflexivity)).
Defined.
